(** * Olympus back ends: chat-history store and RAG document store

    A shallow embedding of the request handlers of
    [src/lib/apis/rag.py] (FastAPI, SQLAlchemy, pgvector) and
    [src/lib/apis/history_backend.py] (Flask, psycopg2, pgvector),
    together with the properties the specification states about them.

    Conventions of the embedding:
    - a Python [str] is the list of its Unicode code points ([pystr]);
    - Python integers are [Z];
    - a PostgreSQL table is the list of its rows, a transaction is a pair
      of the committed state and the working copy of the connection;
    - a handler returns the HTTP response together with the committed
      state of the store after the request; the database is reachable (the
      branches for a connection that cannot be opened are left out);
    - what the handlers call in the interpreter, the embedding model and
      the database driver is a parameter of the section [Handlers];
    - vector components and similarity scores are real numbers;
    - [while] loops run on fuel: [None] means that the fuel ran out. *)

From Stdlib Require Import ZArith NArith List String Ascii Reals Lra Lia Bool.
From Stdlib Require Import DecimalString.
From stdpp Require Import base option list gmap sorting.

Local Open Scope Z_scope.

(** ** Python strings *)

Definition pychar : Type := N.
Definition pystr : Type := list N.

(** A literal of the source, as its code points. *)
Definition py (s : string) : pystr :=
  List.map N_of_ascii (list_ascii_of_string s).

(** [str.isspace] of one character: CPython's table of white space
    (U+0009..U+000D, U+001C..U+0020, U+0085, U+00A0, U+1680,
    U+2000..U+200A, U+2028, U+2029, U+202F, U+205F, U+3000). *)
Definition isspace (c : pychar) : bool :=
  (((9 <=? c) && (c <=? 13)) || ((28 <=? c) && (c <=? 32))
   || (c =? 133) || (c =? 160) || (c =? 5760)
   || ((8192 <=? c) && (c <=? 8202))
   || (c =? 8232) || (c =? 8233) || (c =? 8239) || (c =? 8287)
   || (c =? 12288))%N.

Fixpoint lstrip (s : pystr) : pystr :=
  match s with
  | [] => []
  | c :: rest => if isspace c then lstrip rest else s
  end.

Definition rstrip (s : pystr) : pystr := rev (lstrip (rev s)).

(** [s.strip()] *)
Definition strip (s : pystr) : pystr := rstrip (lstrip s).

(** [s.replace(a, b)] for one-character [a] and [b]. *)
Definition replace_char (a b : pychar) (s : pystr) : pystr :=
  List.map (fun c => if (c =? a)%N then b else c) s.

(** Index adjustment of a slice bound: a negative bound counts from the
    end, and every bound is clamped into [0, len]. *)
Definition slice_index (len i : Z) : Z :=
  if i <? 0 then Z.max 0 (i + len) else Z.min i len.

(** [s[start:stop]] *)
Definition py_slice (s : pystr) (start stop : Z) : pystr :=
  let len := Z.of_nat (length s) in
  let lo := slice_index len start in
  let hi := slice_index len stop in
  take (Z.to_nat (hi - lo)) (drop (Z.to_nat lo) s).

(** Truthiness of a string: [if s:]. *)
Definition nonempty (s : pystr) : bool :=
  match s with [] => false | _ :: _ => true end.

(** ** HTTP responses *)

Inductive response (A : Type) : Type :=
| Ok (body : A)
| HttpError (status : Z) (detail : pystr).
Arguments Ok {A} body.
Arguments HttpError {A} status detail.

(** What a call into a library returns: a value, or the text of the
    exception it raised. *)
Inductive outcome (A : Type) : Type :=
| Returned (a : A)
| Raised (msg : pystr).
Arguments Returned {A} a.
Arguments Raised {A} msg.

(** ** Text chunking of [ingest_file] (rag.py) *)

(** [cleaned = text_data.replace("\r", " ").strip()] *)
Definition clean (text_data : pystr) : pystr :=
  strip (replace_char 13%N 32%N text_data).

(** The parameter substitutions in front of the loop. *)
Definition chunk_params (chunk_size overlap : Z) : Z * Z :=
  let chunk_size := if chunk_size <=? 0 then 800 else chunk_size in
  let overlap := if overlap <? 0 then 0 else overlap in
  let overlap :=
    if overlap >=? chunk_size then Z.max 0 (chunk_size / 4) else overlap in
  (chunk_size, overlap).

(** The state of the loop after it ended: the list [chunks], and (a ghost
    record) the window [(start, end)] of every iteration it ran. *)
Record chunking : Type := Chunking {
  chunks_of : list pystr;
  windows_of : list (Z * Z)
}.

(** The [while start < length] loop. One unit of fuel is one test of the
    loop condition. *)
Fixpoint chunk_loop (fuel : nat) (cleaned : pystr) (chunk_size overlap : Z)
    (start : Z) (chunks : list pystr) (windows : list (Z * Z))
    : option chunking :=
  match fuel with
  | O => None
  | S fuel' =>
    let length := Z.of_nat (length cleaned) in
    if start <? length then
      let end_ := Z.min length (start + chunk_size) in
      let chunk := strip (py_slice cleaned start end_) in
      let chunks := if nonempty chunk then chunks ++ [chunk] else chunks in
      let windows := windows ++ [(start, end_)] in
      if end_ >=? length then Some (Chunking chunks windows)
      else chunk_loop fuel' cleaned chunk_size overlap (end_ - overlap)
             chunks windows
    else Some (Chunking chunks windows)
  end.

(** Substitutions and loop together, from [start = 0] and [chunks = []]. *)
Definition chunk_text (fuel : nat) (cleaned : pystr) (chunk_size overlap : Z)
    : option chunking :=
  let '(chunk_size, overlap) := chunk_params chunk_size overlap in
  chunk_loop fuel cleaned chunk_size overlap 0 [] [].

(** The text of a window, the chunks a list of windows emits (a window
    whose text is all white space emits none), the text put together again
    from consecutive pieces that share [overlap] characters, and the
    quotient rounded up. *)
Definition window_text (cleaned : pystr) (w : Z * Z) : pystr :=
  py_slice cleaned (fst w) (snd w).

Definition emitted (cleaned : pystr) (windows : list (Z * Z)) : list pystr :=
  List.filter nonempty
    (List.map (fun w => strip (window_text cleaned w)) windows).

Definition subtract_overlap (overlap : Z) (pieces : list pystr) : pystr :=
  match pieces with
  | [] => []
  | p :: rest => p ++ concat (List.map (drop (Z.to_nat overlap)) rest)
  end.

Definition ceil_div (a b : Z) : Z := (a + b - 1) / b.

(** What holds of a chunk: it is not empty, has at most [chunk_size]
    characters, is a contiguous piece of the cleaned text, and neither
    begins nor ends with white space. *)
Definition chunk_ok (cleaned : pystr) (chunk_size : Z) (c : pystr) : Prop :=
  c <> []
  /\ Z.of_nat (length c) <= chunk_size
  /\ (exists pre post, cleaned = pre ++ c ++ post)
  /\ (forall x, head c = Some x -> isspace x = false)
  /\ (forall x, last c = Some x -> isspace x = false).

(** ** Vectors and the distance operator *)

Definition vector : Type := list R.

Fixpoint dot (a b : vector) : R :=
  match a, b with
  | x :: a', y :: b' => (x * y + dot a' b')%R
  | _, _ => 0%R
  end.

Definition norm (a : vector) : R := sqrt (dot a a).

Definition scale (c : R) (a : vector) : vector := List.map (Rmult c) a.

(** Modelled from the spec: the operator [<=>] of the vector extension of
    the database, which is not part of the sources. Section 4.4 and the
    glossary give it as the cosine distance, [1 - cos] of the angle between
    the two vectors; it is taken over the real numbers. *)
Definition cosine_distance (a b : vector) : R :=
  (1 - dot a b / (norm a * norm b))%R.

#[global] Instance Rle_decision (x y : R) : Decision (x <= y)%R := Rle_dec x y.

(** [ORDER BY key ASC] and [ORDER BY key DESC] on a real-valued key: the
    order among rows of equal key is the engine's own. *)
Definition order_by_asc {A : Type} (key : A -> R) (rows : list A) : list A :=
  merge_sort (fun a b => (key a <= key b)%R) rows.

Definition order_by_desc {A : Type} (key : A -> R) (rows : list A) : list A :=
  merge_sort (fun a b => (key b <= key a)%R) rows.

(** [LIMIT n] for a non-negative [n]. *)
Definition limit {A : Type} (n : Z) (rows : list A) : list A :=
  take (Z.to_nat n) rows.

(** ** The chat-history store (history_backend.py) *)

Record Conversation : Type := {
  conv_id : Z;
  conv_created_at : Z;
  conv_title : option pystr
}.

Record Message : Type := {
  msg_id : Z;
  msg_conversation_id : Z;
  msg_sender : pystr;
  msg_message : pystr;
  msg_model_name : option pystr;
  msg_created_at : Z;
  msg_embedding : option vector
}.

Record HistoryDb : Type := {
  conversations : list Conversation;
  chat_messages : list Message
}.

(** A psycopg2 connection: statements act on the working copy; [commit]
    publishes it, [rollback] discards it, and closing the connection leaves
    the committed state in the database. *)
Record connection : Type := {
  committed : HistoryDb;
  working : HistoryDb
}.

Definition get_db_connection (db : HistoryDb) : connection :=
  {| committed := db; working := db |}.

Definition commit (conn : connection) : connection :=
  {| committed := working conn; working := working conn |}.

Definition rollback (conn : connection) : connection :=
  {| committed := committed conn; working := committed conn |}.

Definition close (conn : connection) : HistoryDb := committed conn.

(** [DELETE FROM chat_messages WHERE conversation_id = %s;] *)
Definition delete_messages_of (cid : Z) (conn : connection) : connection :=
  {| committed := committed conn;
     working :=
       {| conversations := conversations (working conn);
          chat_messages :=
            List.filter (fun m => negb (msg_conversation_id m =? cid))
              (chat_messages (working conn)) |} |}.

(** [DELETE FROM conversations WHERE id = %s RETURNING id;] with the rows
    it returns. *)
Definition delete_conversation_row (cid : Z) (conn : connection)
    : connection * list Z :=
  ({| committed := committed conn;
      working :=
        {| conversations :=
             List.filter (fun c => negb (conv_id c =? cid))
               (conversations (working conn));
           chat_messages := chat_messages (working conn) |} |},
   List.map conv_id
     (List.filter (fun c => conv_id c =? cid) (conversations (working conn)))).

(** [json_error(message, status)] *)
Definition json_error {A : Type} (message : string) (status : Z) : response A :=
  HttpError status (py message).

Record Deleted : Type := {
  deleted_flag : bool;
  deleted_conversation_id : Z
}.

Definition delete_conversation (db : HistoryDb) (cid : Z)
    : HistoryDb * response Deleted :=
  let conn := get_db_connection db in
  let conn := delete_messages_of cid conn in
  let '(conn, row) := delete_conversation_row cid conn in
  match row with
  | [] =>
    let conn := rollback conn in
    (close conn, json_error "Conversation not found" 404)
  | _ :: _ =>
    let conn := commit conn in
    (close conn, Ok {| deleted_flag := true; deleted_conversation_id := cid |})
  end.

Record BulkDeleted : Type := {
  bulk_requested : list Z;
  bulk_deleted : list Z;
  bulk_not_found : list Z;
  bulk_errors : list pystr
}.

(** The [for cid in conv_ids] loop of [bulk_delete_conversations]. *)
Fixpoint bulk_delete_loop (conv_ids : list Z) (conn : connection)
    (deleted not_found : list Z) : connection * list Z * list Z :=
  match conv_ids with
  | [] => (conn, deleted, not_found)
  | cid :: rest =>
    let conn := delete_messages_of cid conn in
    let '(conn, row) := delete_conversation_row cid conn in
    match row with
    | _ :: _ => bulk_delete_loop rest conn (deleted ++ [cid]) not_found
    | [] => bulk_delete_loop rest conn deleted (not_found ++ [cid])
    end
  end.

(** Query parameters of a request: missing, an integer, or text that
    [int()] rejects. *)
Inductive arg : Type :=
| Absent
| IntArg (z : Z)
| Malformed.

(** [parse_pagination]: [(limit, offset)] from [page_size] and [page]. *)
Definition parse_pagination (page_size_arg page_arg : arg) : Z * Z :=
  let '(page_size, page) :=
    match page_size_arg, page_arg with
    | Malformed, _ | _, Malformed => (20, 1)
    | Absent, Absent => (20, 1)
    | Absent, IntArg p => (20, p)
    | IntArg s, Absent => (s, 1)
    | IntArg s, IntArg p => (s, p)
    end in
  let page_size := Z.max 1 (Z.min page_size 200) in
  let page := Z.max 1 page in
  let offset := (page - 1) * page_size in
  (page_size, offset).

Record MessageView : Type := {
  view_id : Z;
  view_conversation_id : Z;
  view_sender : pystr;
  view_message : pystr;
  view_model_name : option pystr;
  view_created_at : Z;
  view_embedding : option (option vector)
}.

Record ConversationPage : Type := {
  page_conversation_id : Z;
  page_number : Z;
  page_size_of : Z;
  page_total : Z;
  page_has_next : bool;
  page_messages : list MessageView
}.

Definition message_view (include_embeddings : bool) (m : Message)
    : MessageView :=
  {| view_id := msg_id m;
     view_conversation_id := msg_conversation_id m;
     view_sender := msg_sender m;
     view_message := msg_message m;
     view_model_name := msg_model_name m;
     view_created_at := msg_created_at m;
     view_embedding :=
       if include_embeddings then Some (msg_embedding m) else None |}.

(** [ORDER BY created_at ASC]. Among rows of equal [created_at] the order
    is the engine's own and may differ from one query to the next; the
    definition takes one sorted arrangement. What is stated of the order
    is stated of sortedness and membership, which every arrangement has,
    and where the place of a single row matters the timestamps are assumed
    to differ. *)
Definition order_by_created_at (rows : list Message) : list Message :=
  merge_sort (H := fun a b => Z_le_dec (msg_created_at a) (msg_created_at b))
    (fun a b => msg_created_at a <= msg_created_at b) rows.

Definition get_conversation_details (db : HistoryDb) (cid : Z)
    (include_embeddings : bool) (page_size_arg page_arg : arg)
    : response ConversationPage :=
  let '(page_size, offset) := parse_pagination page_size_arg page_arg in
  let total :=
    Z.of_nat (length (List.filter (fun m => msg_conversation_id m =? cid)
                        (chat_messages db))) in
  if total =? 0 then json_error "Conversation not found" 404
  else
    let rows :=
      limit page_size
        (drop (Z.to_nat offset)
           (order_by_created_at
              (List.filter (fun m => msg_conversation_id m =? cid)
                 (chat_messages db)))) in
    Ok {| page_conversation_id := cid;
          page_number := offset / page_size + 1;
          page_size_of := page_size;
          page_total := total;
          page_has_next := offset + page_size <? total;
          page_messages := List.map (message_view include_embeddings) rows |}.

Record SearchHit : Type := {
  hit_id : Z;
  hit_conversation_id : Z;
  hit_sender : pystr;
  hit_message : pystr;
  hit_model_name : option pystr;
  hit_created_at : Z;
  hit_similarity : R
}.

Record SearchResult : Type := {
  search_results : list SearchHit;
  search_count : Z
}.

(** Truthiness of the optional [conversation_id] of the request body:
    [if conv_id:] is false for a missing value and for 0. *)
Definition scope_of (conv_id : option Z) : option Z :=
  match conv_id with
  | Some cid => if cid =? 0 then None else Some cid
  | None => None
  end.

(** The rows that pass the [WHERE] clause, with their embedding. *)
Definition search_candidates (db : HistoryDb) (conv_id : option Z)
    : list (Message * vector) :=
  omap (fun m =>
          match msg_embedding m with
          | Some e =>
            match scope_of conv_id with
            | Some cid =>
              if msg_conversation_id m =? cid then Some (m, e) else None
            | None => Some (m, e)
            end
          | None => None
          end) (chat_messages db).

Definition search_hit (query : vector) (row : Message * vector) : SearchHit :=
  let '(m, e) := row in
  {| hit_id := msg_id m;
     hit_conversation_id := msg_conversation_id m;
     hit_sender := msg_sender m;
     hit_message := msg_message m;
     hit_model_name := msg_model_name m;
     hit_created_at := msg_created_at m;
     hit_similarity := (1 - cosine_distance e query)%R |}.

(** The clamp of [similarity_search]: [max(1, min(top_k, 100))]. *)
Definition clamp_top_k (top_k : Z) : Z := Z.max 1 (Z.min top_k 100).

(** Whether the [conversations] table has a row of this id, and the store
    without the conversations of a list of ids and without their messages. *)
Definition has_conversation (db : HistoryDb) (cid : Z) : bool :=
  existsb (fun c => conv_id c =? cid) (conversations db).

Definition listed (ids : list Z) (id : Z) : bool := existsb (Z.eqb id) ids.

Definition without_conversations (ids : list Z) (db : HistoryDb) : HistoryDb :=
  {| conversations :=
       List.filter (fun c => negb (listed ids (conv_id c))) (conversations db);
     chat_messages :=
       List.filter (fun m => negb (listed ids (msg_conversation_id m)))
         (chat_messages db) |}.

(** *** The other handlers of the history store *)

(** [f"{n}"] for an integer. *)
Definition str_of_int (n : Z) : pystr :=
  py (NilZero.string_of_int (Z.to_int n)).

(** [ORDER BY created_at DESC] on [conversations]. *)
Definition order_by_created_at_desc (rows : list Conversation)
    : list Conversation :=
  merge_sort
    (H := fun a b => Z_le_dec (conv_created_at b) (conv_created_at a))
    (fun a b => conv_created_at b <= conv_created_at a) rows.

(** [(SELECT COUNT( * ) FROM chat_messages m WHERE m.conversation_id = c.id)] *)
Definition message_count (db : HistoryDb) (cid : Z) : Z :=
  Z.of_nat (length (List.filter (fun m => msg_conversation_id m =? cid)
                      (chat_messages db))).

Record ConversationView : Type := {
  cview_id : Z;
  cview_created_at : Z;
  cview_title : option pystr;
  cview_message_count : option Z
}.

Record ConversationList : Type := {
  clist_page : Z;
  clist_page_size : Z;
  clist_total : Z;
  clist_has_next : bool;
  clist_conversations : list ConversationView
}.

Definition conversation_view (db : HistoryDb) (include_counts : bool)
    (c : Conversation) : ConversationView :=
  {| cview_id := conv_id c;
     cview_created_at := conv_created_at c;
     cview_title := conv_title c;
     cview_message_count :=
       if include_counts then Some (message_count db (conv_id c)) else None |}.

Definition get_conversations (db : HistoryDb) (include_counts : bool)
    (page_size_arg page_arg : arg) : response ConversationList :=
  let '(page_size, offset) := parse_pagination page_size_arg page_arg in
  let total := Z.of_nat (length (conversations db)) in
  let rows :=
    limit page_size
      (drop (Z.to_nat offset) (order_by_created_at_desc (conversations db))) in
  Ok {| clist_page := offset / page_size + 1;
        clist_page_size := page_size;
        clist_total := total;
        clist_has_next := offset + page_size <? total;
        clist_conversations :=
          List.map (conversation_view db include_counts) rows |}.

Record Export : Type := {
  export_conversation_row : Conversation;
  export_messages : list MessageView;
  export_content_disposition : pystr
}.

Definition export_conversation (db : HistoryDb) (cid : Z) : response Export :=
  match List.filter (fun c => conv_id c =? cid) (conversations db) with
  | [] => json_error "Conversation not found" 404
  | conv :: _ =>
    let msgs :=
      order_by_created_at
        (List.filter (fun m => msg_conversation_id m =? cid)
           (chat_messages db)) in
    Ok {| export_conversation_row := conv;
          export_messages := List.map (message_view false) msgs;
          export_content_disposition :=
            py "attachment; filename=conversation_" ++ str_of_int cid
            ++ py ".json" |}
  end.

(** [UPDATE conversations SET title = %s WHERE id = %s
    RETURNING id, created_at, title;] with the rows it returns. *)
Definition update_title (cid : Z) (title : pystr) (conn : connection)
    : connection * list Conversation :=
  let retitle c :=
    {| conv_id := conv_id c; conv_created_at := conv_created_at c;
       conv_title := Some title |} in
  ({| committed := committed conn;
      working :=
        {| conversations :=
             List.map (fun c => if conv_id c =? cid then retitle c else c)
               (conversations (working conn));
           chat_messages := chat_messages (working conn) |} |},
   List.map retitle
     (List.filter (fun c => conv_id c =? cid) (conversations (working conn)))).

(** [title] is the string of the body, or [None] when the field is
    missing, null or not a string. *)
Definition update_conversation (db : HistoryDb) (cid : Z)
    (title : option pystr) : HistoryDb * response Conversation :=
  match title with
  | None => (db, json_error "Title is required" 400)
  | Some title =>
    if nonempty (strip title) then
      let conn := get_db_connection db in
      let '(conn, row) := update_title cid (strip title) conn in
      match row with
      | [] =>
        let conn := rollback conn in
        (close conn, json_error "Conversation not found" 404)
      | r :: _ =>
        let conn := commit conn in
        (close conn, Ok r)
      end
    else (db, json_error "Title is required" 400)
  end.

(** The store with the two sequences behind the [id] columns; like every
    sequence they keep the values drawn by a transaction that is rolled
    back. *)
Record HistoryState : Type := {
  state_db : HistoryDb;
  conversations_id_seq : Z;
  chat_messages_id_seq : Z
}.

Record MessageCreated : Type := {
  created_id : Z;
  created_conversation_id : Z;
  created_message : pystr;
  created_sender : pystr;
  created_model_name : option pystr;
  created_created_at : Z;
  created_conversation_title : option pystr
}.

(** Truthiness of an optional string of the body: [if s:]. *)
Definition given (s : option pystr) : bool :=
  match s with
  | Some (_ :: _) => true
  | _ => false
  end.

Definition text_of (s : option pystr) : pystr :=
  match s with Some t => t | None => [] end.

(** [INSERT INTO conversations ...;] and [INSERT INTO chat_messages ...;]
    on the working copy. *)
Definition insert_conversation (c : Conversation) (conn : connection)
    : connection :=
  {| committed := committed conn;
     working :=
       {| conversations := conversations (working conn) ++ [c];
          chat_messages := chat_messages (working conn) |} |}.

Definition insert_message (m : Message) (conn : connection) : connection :=
  {| committed := committed conn;
     working :=
       {| conversations := conversations (working conn);
          chat_messages := chat_messages (working conn) ++ [m] |} |}.

Record ContextMessage : Type := {
  context_role : pystr;
  context_content : pystr;
  context_timestamp : option pystr
}.

Record Context : Type := {
  context_conversation_id : Z;
  context_messages : list ContextMessage;
  context_message_count : Z;
  context_truncated : bool
}.

(** [sender IN ('user', 'ai')] *)
Definition user_or_ai (sender : pystr) : bool :=
  bool_decide (sender = py "user") || bool_decide (sender = py "ai").

(** The role a sender is mapped to. *)
Definition role_of (sender : pystr) : pystr :=
  if bool_decide (sender = py "user") then py "user" else py "assistant".

(** The messages of a response of [get_conversation_details]; none for an
    error. *)
Definition page_messages_of (r : response ConversationPage)
    : list MessageView :=
  match r with
  | Ok page => page_messages page
  | HttpError _ _ => []
  end.

(** ** The document store (rag.py) *)

Record Doc : Type := {
  doc_id : Z;
  doc_content : pystr;
  doc_embedding : vector
}.

(** A collection: its rows and the last value of the sequence behind the
    [id] column. The sequence is not transactional: a value drawn by a
    statement that is rolled back is not given out again. *)
Record Table : Type := {
  table_rows : list Doc;
  table_seq : Z
}.

Abbreviation Store := (gmap pystr Table).

Record UploadFile : Type := {
  upload_filename : option pystr;
  upload_bytes : list N
}.

Record Ingested : Type := {
  ingested_collection : pystr;
  ingested_file : pystr;
  ingested_chunks : Z;
  ingested_inserted : Z;
  ingested_ids : list Z
}.

Record Updated : Type := {
  updated_message : pystr;
  updated_id : Z
}.

Record QueryHit : Type := {
  query_id : Z;
  query_content : pystr;
  query_similarity : R
}.

(** The response of FastAPI to an exception no handler catches. *)
Definition internal_server_error {A : Type} : response A :=
  HttpError 500 (py "Internal Server Error").

(** [s.rsplit(sep, 1)[-1]]: what follows the last [sep], or all of [s]. *)
Fixpoint after_last (sep : pychar) (s : pystr) : pystr :=
  match s with
  | [] => []
  | c :: rest =>
    if existsb (N.eqb sep) rest then after_last sep rest
    else if (c =? sep)%N then rest else s
  end.

Definition query_hit (query : vector) (d : Doc) : QueryHit :=
  {| query_id := doc_id d;
     query_content := doc_content d;
     query_similarity := (1 - cosine_distance (doc_embedding d) query)%R |}.

(** [UPDATE t SET content = :content, embedding = :embedding WHERE id = :id]
    on the rows of a table. *)
Definition update_rows (id : Z) (content : pystr) (embedding : vector)
    (rows : list Doc) : list Doc :=
  List.map (fun d =>
              if doc_id d =? id
              then {| doc_id := doc_id d; doc_content := content;
                      doc_embedding := embedding |}
              else d) rows.

(** The rows that the per-chunk loop of [ingest_file] has added to the
    working copy after the chunks [chunks], whose embeddings are [embs],
    from the value [seq] of the sequence: one row per chunk, in order, with
    the next ids. *)
Fixpoint chunk_rows (seq : Z) (chunks : list pystr) (embs : list vector)
    : list Doc :=
  match chunks, embs with
  | ch :: chunks, emb :: embs =>
    {| doc_id := seq + 1; doc_content := ch; doc_embedding := emb |}
    :: chunk_rows (seq + 1) chunks embs
  | _, _ => []
  end.

(** *** The other handlers of the document store: views and invariants *)

Record DocView : Type := {
  docview_id : Z;
  docview_content : pystr
}.


Record Receipt : Type := {
  receipt_message : pystr;
  receipt_id : Z
}.

Definition doc_view (d : Doc) : DocView :=
  {| docview_id := doc_id d; docview_content := doc_content d |}.


(** What the primary key and the sequence of a table guarantee: no two
    rows share an id, and no id is ahead of the sequence. *)
Definition table_wf (t : Table) : Prop :=
  NoDup (List.map doc_id (table_rows t))
  /\ Forall (fun d => doc_id d <= table_seq t) (table_rows t).

Definition store_wf (store : Store) : Prop :=
  forall name t, store !! name = Some t -> table_wf t.

(** ** A sample runtime and sample stores, for the examples *)

(** [str.lower] on the letters A to Z. *)
Definition ascii_lower (s : pystr) : pystr :=
  List.map (fun c => if ((65 <=? c) && (c <=? 90))%N then (c + 32)%N else c) s.

(** A model that answers every text with the same unit vector, and one
    that is unavailable for the text "b". *)
Definition steady_encode (text : pystr) : outcome vector := Returned [1%R].

Definition flaky_encode (text : pystr) : outcome vector :=
  if decide (text = py "b") then Raised (py "model unavailable")
  else Returned [1%R].

(** A database that accepts every row and every vector. *)
Definition never_raises (rows : list Doc) (content : pystr) (e : vector)
    : bool := false.

(** A database that rejects the row with the content "b". *)
Definition rejects_b (rows : list Doc) (content : pystr) (e : vector)
    : bool := bool_decide (content = py "b").

(** A database that carries out every [UPDATE]. *)
Definition update_passes (rows : list Doc) (id : Z) (content : pystr)
    (e : vector) : bool := false.

Definition no_distance_error (query : vector) (stored : list vector)
    : option pystr := None.

Definition notes : Table :=
  {| table_rows :=
       [{| doc_id := 1; doc_content := py "hello world";
           doc_embedding := [1%R] |}];
     table_seq := 1 |}.

Definition sample_store : Store := {[ py "notes" := notes ]}.

(** Conversations 1, 2 and 7; conversation 7 has no message. *)
Definition sample_message (id cid : Z) (e : option vector) : Message :=
  {| msg_id := id; msg_conversation_id := cid; msg_sender := py "user";
     msg_message := py "hi"; msg_model_name := None; msg_created_at := id;
     msg_embedding := e |}.

Definition sample_history : HistoryDb :=
  {| conversations :=
       [{| conv_id := 1; conv_created_at := 10; conv_title := None |};
        {| conv_id := 2; conv_created_at := 20; conv_title := None |};
        {| conv_id := 7; conv_created_at := 30; conv_title := None |}];
     chat_messages :=
       [sample_message 1 1 (Some [1%R]); sample_message 2 2 None] |}.

(** [sample_history] with a third message, whose conversation 999 has no
    row. *)
Definition orphan_history : HistoryDb :=
  {| conversations := conversations sample_history;
     chat_messages :=
       chat_messages sample_history ++ [sample_message 3 999 None] |}.

(** Message 1 of conversation 2 points away from the query [[1]],
    message 2 of conversation 1 is the query itself, and message 3 has no
    embedding. *)
Definition ranked_history : HistoryDb :=
  {| conversations :=
       [{| conv_id := 1; conv_created_at := 10; conv_title := None |};
        {| conv_id := 2; conv_created_at := 20; conv_title := None |}];
     chat_messages :=
       [sample_message 1 2 (Some [(-1)%R]); sample_message 2 1 (Some [1%R]);
        sample_message 3 2 None] |}.

(** A runtime for the other handlers: bytes that are decoded as they are,
    no PDF reader, and a database in which [create_all] and the inserts of
    the history store do not fail, or in which the insert of a message
    always fails. *)
Definition ascii_decode (bytes : list N) : pystr := bytes.

Definition no_pdf (bytes : list N) : outcome pystr :=
  Raised (py "not a pdf").

Definition no_create_error (table_name : pystr) : option pystr := None.

Definition no_insert_error (db : HistoryDb) (cid : Z) : option pystr := None.

Definition full_disk (db : HistoryDb) (cid : Z) : option pystr :=
  Some (py "disk full").

(** The upload "memo.txt", and the store and the body after its ingestion
    into the collection "notes". *)
Definition memo : UploadFile :=
  {| upload_filename := Some (py "memo.txt");
     upload_bytes := py "alpha beta gamma" |}.

Definition memo_store : Store :=
  <[py "notes" :=
      {| table_rows :=
           table_rows notes
           ++ [{| doc_id := 2; doc_content := py "alpha beta gamma";
                  doc_embedding := [1%R] |}];
         table_seq := 2 |}]> sample_store.

Definition memo_body : Ingested :=
  {| ingested_collection := py "notes";
     ingested_file := py "memo.txt";
     ingested_chunks := 1;
     ingested_inserted := 1;
     ingested_ids := [2] |}.

(** The history store with its sequences, and the answer to a first
    message "hello" that opens a conversation titled " Plans ". *)
Definition sample_state : HistoryState :=
  {| state_db := sample_history;
     conversations_id_seq := 7;
     chat_messages_id_seq := 2 |}.

Definition sample_created : MessageCreated :=
  {| created_id := 3;
     created_conversation_id := 8;
     created_message := py "hello";
     created_sender := py "user";
     created_model_name := None;
     created_created_at := 40;
     created_conversation_title := Some (py " Plans ") |}.

Section Handlers.

Set Default Proof Using "Type".

(** The runtime the handlers call into. *)

(** [str.lower] *)
Variable str_lower : pystr -> pystr.
(** [model.encode(text).tolist()] of the sentence-embedding model. *)
Variable encode : pystr -> outcome vector.
(** Whether the database raises on the [INSERT] of this row into these
    rows (a dimension other than the column's, a lost connection). *)
Variable insert_raises : list Doc -> pystr -> vector -> bool.
(** The text of the error, if the database raises while it evaluates the
    distance of the query vector to these stored vectors (different
    dimensions, a malformed vector literal). *)
Variable distance_error : vector -> list vector -> option pystr.
(** The text of the error of the database for a negative [LIMIT]. *)
Variable limit_error : pystr.
(** [bytes.decode("utf-8", errors="ignore")] *)
Variable decode_utf8 : list N -> pystr.
(** Whether [from pypdf import PdfReader] succeeds, and the text of the
    pages of a PDF joined by newlines. *)
Variable pypdf_installed : bool.
Variable pdf_extract : list N -> outcome pystr.
(** [list({int(x) for x in ids})]: the elements of a set in the order in
    which the interpreter iterates over it. *)
Variable set_list : list Z -> list Z.

(** The text of the error, if [create_all] raises on the new table. *)
Variable create_table_error : pystr -> option pystr.
(** The texts of the errors of the database for a negative [OFFSET] and
    for an [INSERT] it rejects. *)
Variable offset_error : pystr.
Variable insert_error : pystr.
(** Whether the database raises on the [UPDATE] that sets the rows of this
    id among these rows to this content and vector (a dimension other than
    the column's, a lost connection), and the text of its error. *)
Variable update_raises : list Doc -> Z -> pystr -> vector -> bool.
Variable update_error : pystr.
(** The title the schema gives a conversation inserted with
    [DEFAULT VALUES]. *)
Variable default_title : option pystr.
(** The text of the error, if the database raises on the [INSERT] of a
    message of this conversation id into this working copy (a foreign key
    without its row). *)
Variable message_insert_error : HistoryDb -> Z -> option pystr.
(** [created_at.isoformat()] *)
Variable isoformat : Z -> pystr.

(** [collection_name.lower().replace(" ", "_")] *)
Definition table_name_of (collection_name : pystr) : pystr :=
  replace_char 32%N 95%N (str_lower collection_name).

Definition collection_not_found {A : Type} (table_name : pystr)
    : response A :=
  HttpError 404 (py "Collection '" ++ table_name ++ py "' not found.").

(** *** [update_document] *)

Definition update_document (store : Store) (collection_name : pystr)
    (id : Z) (content : pystr) : Store * response Updated :=
  let table_name := table_name_of collection_name in
  match store !! table_name with
  | None => (store, collection_not_found table_name)
  | Some table =>
    match encode content with
    | Raised msg => (store, HttpError 500 msg)
    | Returned embedding =>
      if update_raises (table_rows table) id content embedding
      then (store, HttpError 500 update_error)
      else
        let result :=
          List.filter (fun d => doc_id d =? id) (table_rows table) in
        let store :=
          <[table_name :=
              {| table_rows :=
                   update_rows id content embedding (table_rows table);
                 table_seq := table_seq table |}]> store in
        match result with
        | [] => (store, HttpError 404 (py "Document not found."))
        | d :: _ =>
          (store,
           Ok {| updated_message := py "Document updated successfully.";
                 updated_id := doc_id d |})
        end
    end
  end.

(** *** [ingest_file] *)

(** The text of the upload, by the extension of its name. *)
Definition read_upload (file : UploadFile) (filename : pystr)
    : response pystr :=
  let ext :=
    if existsb (N.eqb 46%N) filename
    then after_last 46%N (str_lower filename) else [] in
  if decide (ext = py "txt") then Ok (decode_utf8 (upload_bytes file))
  else if decide (ext = py "pdf") then
    if pypdf_installed then
      match pdf_extract (upload_bytes file) with
      | Returned text_data => Ok text_data
      | Raised _ => internal_server_error
      end
    else
      HttpError 500
        (py "PDF ingestion requires 'pypdf'. Install with: pip install pypdf")
  else HttpError 400 (py "Only .txt and .pdf files are supported.").

(** The [for ch in chunks] loop inside the connection: the rows of the
    working copy, the sequence, and the ids collected so far. The second
    component is [None] when [encode] or the [INSERT] raised. *)
Fixpoint insert_chunks (rows : list Doc) (seq : Z) (chunks : list pystr)
    (inserted_ids : list Z) : Z * option (list Doc * list Z) :=
  match chunks with
  | [] => (seq, Some (rows, inserted_ids))
  | ch :: rest =>
    match encode ch with
    | Raised _ => (seq, None)
    | Returned emb =>
      if insert_raises rows ch emb then (seq, None)
      else
        let new_id := seq + 1 in
        insert_chunks
          (rows ++ [{| doc_id := new_id; doc_content := ch;
                       doc_embedding := emb |}])
          new_id rest (inserted_ids ++ [new_id])
    end
  end.

(** The loop gets through the chunks [done]: [encode] returns the
    embeddings [embs] for them, and no [INSERT] raises on the rows that are
    in the working copy when its chunk is reached. *)
Definition loop_passes (rows : list Doc) (seq : Z) (done : list pystr)
    (embs : list vector) : Prop :=
  Forall2 (fun ch emb => encode ch = Returned emb) done embs
  /\ forall (i : nat) ch emb,
      done !! i = Some ch -> embs !! i = Some emb ->
      insert_raises (rows ++ chunk_rows seq (take i done) (take i embs)) ch emb
      = false.

(** The loop fails at the chunk [ch] that it reaches with the working rows
    [rows]: [encode] raises on it, or the [INSERT] of its row does. *)
Definition chunk_fails (rows : list Doc) (ch : pystr) : Prop :=
  (exists msg, encode ch = Raised msg)
  \/ (exists emb, encode ch = Returned emb /\ insert_raises rows ch emb = true).

(** From [if not chunks] to the end of [ingest_file]. The working copy
    is committed after the loop; an exception inside the [with] block
    closes the connection without a commit. *)
Definition persist_chunks (store : Store) (table_name : pystr)
    (table : Table) (filename : pystr) (chunks : list pystr)
    : Store * response Ingested :=
  match chunks with
  | [] =>
    (store,
     HttpError 400 (py "No valid chunks produced from file content."))
  | _ :: _ =>
    match insert_chunks (table_rows table) (table_seq table) chunks [] with
    | (seq, Some (rows, inserted_ids)) =>
      (<[table_name := {| table_rows := rows; table_seq := seq |}]> store,
       Ok {| ingested_collection := table_name;
             ingested_file := filename;
             ingested_chunks := Z.of_nat (length chunks);
             ingested_inserted := Z.of_nat (length inserted_ids);
             ingested_ids := inserted_ids |})
    | (seq, None) =>
      (<[table_name :=
           {| table_rows := table_rows table; table_seq := seq |}]> store,
       internal_server_error)
    end
  end.

Definition ingest_file (fuel : nat) (store : Store)
    (collection_name : pystr) (file : UploadFile) (chunk_size overlap : Z)
    : option (Store * response Ingested) :=
  let table_name := table_name_of collection_name in
  match store !! table_name with
  | None => Some (store, collection_not_found table_name)
  | Some table =>
    let filename :=
      match upload_filename file with
      | Some (c :: name) => c :: name
      | _ => py "uploaded"
      end in
    match read_upload file filename with
    | HttpError status detail => Some (store, HttpError status detail)
    | Ok text_data =>
      let cleaned := clean text_data in
      if nonempty cleaned then
        match chunk_text fuel cleaned chunk_size overlap with
        | None => None
        | Some ch =>
          Some (persist_chunks store table_name table filename
                  (chunks_of ch))
        end
      else
        Some (store,
              HttpError 400 (py "File appears to be empty or unreadable."))
    end
  end.

(** *** [query_collection] *)

Definition query_collection (store : Store) (collection_name : pystr)
    (query_text : pystr) (top_k : Z) : response (list QueryHit) :=
  let table_name := table_name_of collection_name in
  match store !! table_name with
  | None => collection_not_found table_name
  | Some table =>
    match encode query_text with
    | Raised msg => HttpError 500 msg
    | Returned query_embedding =>
      match distance_error query_embedding
              (List.map doc_embedding (table_rows table)) with
      | Some msg => HttpError 500 msg
      | None =>
        if top_k <? 0 then HttpError 500 limit_error
        else
          Ok (limit top_k
                (order_by_desc query_similarity
                   (List.map (query_hit query_embedding)
                      (table_rows table))))
      end
    end
  end.

(** *** [similarity_search] (history_backend.py) *)

Definition similarity_search (db : HistoryDb) (query_embedding : vector)
    (top_k : Z) (conv_id : option Z) : response SearchResult :=
  let top_k := clamp_top_k top_k in
  let candidates := search_candidates db conv_id in
  match distance_error query_embedding (List.map snd candidates) with
  | Some msg =>
    HttpError 500 (py "Similarity search error: " ++ msg)
  | None =>
    let rows :=
      limit top_k
        (order_by_asc (fun row => cosine_distance (snd row) query_embedding)
           candidates) in
    Ok {| search_results := List.map (search_hit query_embedding) rows;
          search_count := Z.of_nat (length rows) |}
  end.

(** *** [bulk_delete_conversations] (history_backend.py) *)

Definition bulk_delete_conversations (db : HistoryDb) (ids : list Z)
    : HistoryDb * response BulkDeleted :=
  match ids with
  | [] =>
    (db, json_error "conversation_ids (non-empty list) is required" 400)
  | _ :: _ =>
    let conv_ids := set_list ids in
    let conn := get_db_connection db in
    let '(conn, deleted, not_found) :=
      bulk_delete_loop conv_ids conn [] [] in
    let conn := commit conn in
    (close conn,
     Ok {| bulk_requested := conv_ids;
           bulk_deleted := deleted;
           bulk_not_found := not_found;
           bulk_errors := [] |})
  end.

(** *** [create_collection] and [delete_collection] *)

(** [metadata] is the set of the names in [Base.metadata.tables], which
    lives as long as the process. The class of the new table is registered
    in it before [create_all] runs. *)
Definition create_collection (metadata : gset pystr) (store : Store)
    (collection_name : pystr) : gset pystr * Store * response pystr :=
  let table_name := table_name_of collection_name in
  let already_exists :=
    HttpError 400 (py "Collection '" ++ table_name ++ py "' already exists.") in
  if bool_decide (table_name ∈ metadata)
  then (metadata, store, already_exists)
  else
    match store !! table_name with
    | Some _ => (metadata, store, already_exists)
    | None =>
      let metadata := {[table_name]} ∪ metadata in
      match create_table_error table_name with
      | Some msg => (metadata, store, HttpError 500 msg)
      | None =>
        (metadata,
         <[table_name := {| table_rows := []; table_seq := 0 |}]> store,
         Ok (py "Collection '" ++ table_name ++ py "' created successfully."))
      end
    end.

Definition delete_collection (store : Store) (collection_name : pystr)
    : Store * response pystr :=
  let table_name := table_name_of collection_name in
  match store !! table_name with
  | None => (store, collection_not_found table_name)
  | Some _ =>
    (delete table_name store,
     Ok (py "Collection '" ++ table_name ++ py "' deleted successfully."))
  end.

(** *** [list_documents], [get_document], [delete_document],
    [add_document] *)


Definition get_document (store : Store) (collection_name : pystr) (id : Z)
    : response DocView :=
  let table_name := table_name_of collection_name in
  match store !! table_name with
  | None => collection_not_found table_name
  | Some table =>
    match List.filter (fun d => doc_id d =? id) (table_rows table) with
    | [] => HttpError 404 (py "Document not found.")
    | d :: _ => Ok (doc_view d)
    end
  end.

Definition delete_document (store : Store) (collection_name : pystr) (id : Z)
    : Store * response Receipt :=
  let table_name := table_name_of collection_name in
  match store !! table_name with
  | None => (store, collection_not_found table_name)
  | Some table =>
    let result := List.filter (fun d => doc_id d =? id) (table_rows table) in
    let store :=
      <[table_name :=
          {| table_rows :=
               List.filter (fun d => negb (doc_id d =? id)) (table_rows table);
             table_seq := table_seq table |}]> store in
    match result with
    | [] => (store, HttpError 404 (py "Document not found."))
    | d :: _ =>
      (store,
       Ok {| receipt_message := py "Document deleted successfully.";
             receipt_id := doc_id d |})
    end
  end.

Definition add_document (store : Store) (collection_name content : pystr)
    : Store * response Receipt :=
  let table_name := table_name_of collection_name in
  match store !! table_name with
  | None => (store, collection_not_found table_name)
  | Some table =>
    match encode content with
    | Raised msg => (store, HttpError 500 msg)
    | Returned embedding =>
      if insert_raises (table_rows table) content embedding
      then (store, HttpError 500 insert_error)
      else
        let new_id := table_seq table + 1 in
        (<[table_name :=
             {| table_rows :=
                  table_rows table
                  ++ [{| doc_id := new_id; doc_content := content;
                         doc_embedding := embedding |}];
                table_seq := new_id |}]> store,
         Ok {| receipt_message := py "Document added successfully.";
               receipt_id := new_id |})
    end
  end.

(** *** [add_message] and [get_conversation_context]
    (history_backend.py) *)

(** [now] is the time the schema's default gives [created_at]. The fields
    of the body are [None] when they are missing or null. *)
Definition add_message (st : HistoryState) (now : Z)
    (message sender : option pystr) (conversation_id : option Z)
    (conversation_title model_name : option pystr)
    (embedding : option vector) : HistoryState * response MessageCreated :=
  if negb (given message) || negb (given sender)
  then (st, json_error "Message and sender are required" 400)
  else
    let conn := get_db_connection (state_db st) in
    let '(conn, conv_seq, cid) :=
      match scope_of conversation_id with
      | Some cid => (conn, conversations_id_seq st, cid)
      | None =>
        let new_id := conversations_id_seq st + 1 in
        let title :=
          if given conversation_title
             && nonempty (strip (text_of conversation_title))
          then Some (strip (text_of conversation_title))
          else default_title in
        (insert_conversation
           {| conv_id := new_id; conv_created_at := now;
              conv_title := title |} conn,
         new_id, new_id)
      end in
    match message_insert_error (working conn) cid with
    | Some msg =>
      let conn := rollback conn in
      ({| state_db := close conn;
          conversations_id_seq := conv_seq;
          chat_messages_id_seq := chat_messages_id_seq st |},
       HttpError 500 (py "Failed to add message: " ++ msg))
    | None =>
      let msg_id := chat_messages_id_seq st + 1 in
      let conn :=
        insert_message
          {| msg_id := msg_id; msg_conversation_id := cid;
             msg_sender := text_of sender; msg_message := text_of message;
             msg_model_name := model_name; msg_created_at := now;
             msg_embedding := embedding |} conn in
      let conn := commit conn in
      ({| state_db := close conn;
          conversations_id_seq := conv_seq;
          chat_messages_id_seq := msg_id |},
       Ok {| created_id := msg_id;
             created_conversation_id := cid;
             created_message := text_of message;
             created_sender := text_of sender;
             created_model_name := model_name;
             created_created_at := now;
             created_conversation_title := conversation_title |})
    end.

Definition context_message (m : Message) : ContextMessage :=
  {| context_role := role_of (msg_sender m);
     context_content := msg_message m;
     context_timestamp := Some (isoformat (msg_created_at m)) |}.

(** The rows of the context query, before they are formatted. *)
Definition context_rows (db : HistoryDb) (cid limit_ : Z)
    (include_system : bool) : list Message :=
  limit limit_
    (order_by_created_at
       (List.filter
          (fun m =>
             (msg_conversation_id m =? cid)
             && (include_system || user_or_ai (msg_sender m)))
          (chat_messages db))).

(** An argument [limit] that [int()] rejects is an exception outside the
    [try] of the handler: the answer is the one of the 500 handler. *)
Definition get_conversation_context (db : HistoryDb) (cid : Z)
    (limit_arg : arg) (include_system : bool) : response Context :=
  match limit_arg with
  | Malformed => json_error "Internal server error" 500
  | _ =>
    let limit_ := match limit_arg with IntArg z => z | _ => 20 end in
    let limit_ := Z.max 1 (Z.min limit_ 100) in
    if Z.of_nat (length (List.filter (fun c => conv_id c =? cid)
                           (conversations db))) =? 0
    then json_error "Conversation not found" 404
    else
      let context_messages :=
        List.map context_message
          (context_rows db cid limit_ include_system) in
      Ok {| context_conversation_id := cid;
            context_messages := context_messages;
            context_message_count := Z.of_nat (length context_messages);
            context_truncated :=
              Z.of_nat (length context_messages) =? limit_ |}
  end.

(** ** Strings and slices *)

Lemma lstrip_head s c r : lstrip s = c :: r -> isspace c = false.
Proof.
  induction s as [|x s IH]; simpl; [discriminate|].
  destruct (isspace x) eqn:E; [exact IH|].
  intros [= <- _]. exact E.
Qed.

Lemma lstrip_app_nonspace l c r :
  isspace c = false -> lstrip (l ++ c :: r) = lstrip l ++ c :: r.
Proof.
  intros Hc. induction l as [|x l IH]; simpl.
  - now rewrite Hc.
  - destruct (isspace x); [exact IH | reflexivity].
Qed.

Lemma rstrip_cons_nonspace c t :
  isspace c = false -> rstrip (c :: t) = c :: rstrip t.
Proof.
  intros Hc. unfold rstrip. simpl.
  rewrite (lstrip_app_nonspace _ c []) by exact Hc.
  rewrite rev_app_distr. reflexivity.
Qed.

Lemma strip_cons_nonspace c t :
  isspace c = false -> strip (c :: t) = c :: rstrip t.
Proof.
  intros Hc. unfold strip. simpl. rewrite Hc.
  now apply rstrip_cons_nonspace.
Qed.

Lemma strip_head s c r : strip s = c :: r -> isspace c = false.
Proof.
  unfold strip. destruct (lstrip s) as [|x t] eqn:E.
  - discriminate.
  - pose proof (lstrip_head _ _ _ E) as Hx.
    rewrite rstrip_cons_nonspace by exact Hx.
    now intros [= <- _].
Qed.

Lemma py_slice_inside (s : pystr) (a b : Z) :
  0 <= a -> a <= b -> b <= Z.of_nat (length s) ->
  py_slice s a b = take (Z.to_nat (b - a)) (drop (Z.to_nat a) s).
Proof.
  intros Ha Hab Hb. unfold py_slice, slice_index.
  destruct (Z.ltb_spec a 0); [lia|].
  destruct (Z.ltb_spec b 0); [lia|].
  now rewrite !Z.min_l by lia.
Qed.

(** ** The chunking loop *)

Lemma emitted_app cleaned ws1 ws2 :
  emitted cleaned (ws1 ++ ws2) = emitted cleaned ws1 ++ emitted cleaned ws2.
Proof. unfold emitted. now rewrite List.map_app, List.filter_app. Qed.

Lemma emitted_one cleaned chunks a b :
  (if nonempty (strip (py_slice cleaned a b))
   then chunks ++ [strip (py_slice cleaned a b)] else chunks)
  = chunks ++ emitted cleaned [(a, b)].
Proof.
  unfold emitted. simpl.
  destruct (nonempty _); [reflexivity | now rewrite app_nil_r].
Qed.

Lemma ceil_div_step x b : 0 < b -> ceil_div (x - b) b + 1 = ceil_div x b.
Proof.
  intros Hb. unfold ceil_div.
  replace (x + b - 1) with (x - b + b - 1 + 1 * b) by lia.
  now rewrite Z.div_add by lia.
Qed.

Lemma ceil_div_pos x b : 0 < b -> 0 < x -> 1 <= ceil_div x b.
Proof.
  intros Hb Hx. unfold ceil_div. apply Z.div_le_lower_bound; lia.
Qed.

(** [ceil_div a b] is the least integer [q] with [a <= q * b]. *)
Lemma ceil_div_spec a b :
  0 < b -> (ceil_div a b - 1) * b < a <= ceil_div a b * b.
Proof.
  intros Hb. unfold ceil_div.
  pose proof (Z.div_mod (a + b - 1) b ltac:(lia)) as Hdm.
  pose proof (Z.mod_pos_bound (a + b - 1) b Hb) as Hm.
  nia.
Qed.

Lemma length_py_slice_inside (s : pystr) a b :
  0 <= a -> a <= b -> b <= Z.of_nat (length s) ->
  Z.of_nat (length (py_slice s a b)) = b - a.
Proof.
  intros. rewrite py_slice_inside by lia.
  rewrite length_take, length_drop. lia.
Qed.

Section ChunkLoop.
Variables (cleaned : pystr) (cs ov : Z).
Hypothesis Hov : 0 <= ov < cs.
Let len := Z.of_nat (length cleaned).

Lemma chunk_loop_spec (fuel : nat) :
  forall start chunks ws,
    0 <= start ->
    (Z.to_nat (len - start) < fuel)%nat ->
    exists more,
      chunk_loop fuel cleaned cs ov start chunks ws
      = Some (Chunking (chunks ++ emitted cleaned more) (ws ++ more))
      /\ (start < len ->
          exists rest, more = (start, Z.min len (start + cs)) :: rest)
      /\ (start < len ->
          Z.of_nat (length more) <= ceil_div (len - start) (cs - ov))
      /\ (start < len ->
          subtract_overlap ov (List.map (window_text cleaned) more)
          = drop (Z.to_nat start) cleaned).
Proof using Hov.
  induction fuel as [|fuel IH]; intros start chunks ws Hs Hfuel; [lia|].
  cbn [chunk_loop]. fold len.
  destruct (Z.ltb_spec start len) as [Hlt|Hge].
  2:{ exists []. rewrite !app_nil_r. repeat split; intros; lia. }
  set (e := Z.min len (start + cs)).
  rewrite (emitted_one cleaned chunks start e).
  destruct (Z.geb_spec e len) as [Hend|Hmore].
  - exists [(start, e)]. split; [reflexivity|].
    split; [intros _; now exists []|].
    split; [intros _; simpl; apply (ceil_div_pos (len - start)); lia|].
    intros _. simpl. rewrite app_nil_r. unfold window_text. simpl.
    rewrite py_slice_inside by (fold len; lia).
    apply take_ge. rewrite length_drop. fold len. lia.
  - assert (He : e = start + cs) by lia.
    destruct (IH (e - ov) (chunks ++ emitted cleaned [(start, e)])
                (ws ++ [(start, e)])) as (more & Hrun & Hhead & Hbound & Hcover);
      [lia | lia |].
    exists ((start, e) :: more). split.
    { rewrite Hrun.
      change ((start, e) :: more) with ([(start, e)] ++ more).
      rewrite (emitted_app cleaned [(start, e)] more).
      now rewrite !app_assoc. }
    split; [intros _; now exists more|].
    split.
    { intros _. specialize (Hbound ltac:(lia)).
      rewrite <- (ceil_div_step (len - start) (cs - ov)) by lia.
      replace (len - start - (cs - ov)) with (len - (e - ov)) by lia.
      simpl length. lia. }
    intros _. destruct (Hhead ltac:(lia)) as [rest ->].
    specialize (Hcover ltac:(lia)).
    cbn [subtract_overlap List.map] in *.
    cbn [concat].
    set (tail := concat (List.map (drop (Z.to_nat ov))
                           (List.map (window_text cleaned) rest))) in *.
    assert (Hlen' : Z.of_nat (length (window_text cleaned
                        (e - ov, Z.min len (e - ov + cs)))) >= ov).
    { unfold window_text. simpl.
      rewrite length_py_slice_inside by (fold len; lia). lia. }
    rewrite <- drop_app_le by lia.
    rewrite Hcover, drop_drop.
    unfold window_text at 1. simpl.
    rewrite py_slice_inside by (fold len; lia).
    replace (Z.to_nat (e - ov) + Z.to_nat ov)%nat
      with (Z.to_nat start + Z.to_nat (e - start))%nat by lia.
    rewrite <- drop_drop. apply take_drop.
Qed.
End ChunkLoop.

Lemma chunk_params_valid chunk_size overlap :
  0 <= snd (chunk_params chunk_size overlap)
       < fst (chunk_params chunk_size overlap).
Proof.
  unfold chunk_params. cbn [fst snd].
  set (cs := if chunk_size <=? 0 then 800 else chunk_size).
  assert (Hcs : 0 < cs).
  { subst cs. destruct (Z.leb_spec chunk_size 0); lia. }
  set (o := if overlap <? 0 then 0 else overlap).
  assert (Ho : 0 <= o).
  { subst o. destruct (Z.ltb_spec overlap 0); lia. }
  destruct (Z.geb_spec o cs); [|lia].
  assert (cs / 4 < cs) by (apply Z.div_lt; lia).
  assert (0 <= cs / 4) by (apply Z.div_pos; lia).
  lia.
Qed.

Lemma chunk_params_id chunk_size overlap :
  0 < chunk_size -> 0 <= overlap < chunk_size ->
  chunk_params chunk_size overlap = (chunk_size, overlap).
Proof.
  intros Hcs Hov. unfold chunk_params.
  destruct (Z.leb_spec chunk_size 0); [lia|].
  destruct (Z.ltb_spec overlap 0); [lia|].
  destruct (Z.geb_spec overlap chunk_size); [lia|reflexivity].
Qed.

Lemma clean_head text_data :
  clean text_data <> [] ->
  exists c rest, clean text_data = c :: rest /\ isspace c = false.
Proof.
  intros Hne. destruct (clean text_data) as [|c rest] eqn:E; [done|].
  exists c, rest. split; [reflexivity|].
  unfold clean in E. exact (strip_head _ _ _ E).
Qed.

Lemma emitted_nonempty cleaned ws :
  Forall (fun c => c <> []) (emitted cleaned ws).
Proof.
  unfold emitted. apply List.Forall_forall. intros c Hc.
  apply List.filter_In in Hc as [_ Hc]. now destruct c.
Qed.

(** The chunks the loop leaves are the trimmed texts of its windows, in
    order, without the empty ones. *)
Lemma chunk_text_runs cleaned chunk_size overlap fuel :
  (length cleaned < fuel)%nat ->
  exists ws,
    chunk_text fuel cleaned chunk_size overlap
    = Some (Chunking (emitted cleaned ws) ws)
    /\ (cleaned <> [] ->
        exists rest,
          ws = (0, Z.min (Z.of_nat (length cleaned))
                     (fst (chunk_params chunk_size overlap))) :: rest)
    /\ (cleaned <> [] ->
        Z.of_nat (length ws)
        <= ceil_div (Z.of_nat (length cleaned))
             (fst (chunk_params chunk_size overlap)
              - snd (chunk_params chunk_size overlap)))
    /\ (cleaned <> [] ->
        subtract_overlap (snd (chunk_params chunk_size overlap))
          (List.map (window_text cleaned) ws) = cleaned).
Proof.
  intros Hfuel. unfold chunk_text.
  pose proof (chunk_params_valid chunk_size overlap) as Hv.
  destruct (chunk_params chunk_size overlap) as [cs ov]. cbn [fst snd] in *.
  destruct (chunk_loop_spec cleaned cs ov Hv fuel 0 [] [])
    as (ws & Hrun & Hhead & Hbound & Hcover); [lia | lia |].
  exists ws. split; [exact Hrun|].
  assert (Hpos : cleaned <> [] -> 0 < Z.of_nat (length cleaned)).
  { destruct cleaned; [done | simpl; lia]. }
  split; [intros Hne; apply Hhead; auto|].
  split.
  - intros Hne. specialize (Hbound (Hpos Hne)).
    now rewrite Z.sub_0_r in Hbound.
  - intros Hne. now apply Hcover, Hpos.
Qed.

(** C1: for every upload whose cleaned text is not empty and for all
    integers [chunk_size] and [overlap], after the substitutions every
    iteration that continues moves [start] forward by at least 1, the loop
    ends within [length + 1] tests of its condition and leaves at least one
    chunk, none of them empty; and on an empty list of chunks the handler
    answers 400 with the no-chunks message and leaves the store as it was. *)
Theorem chunking_terminates_with_a_chunk
    (text_data : pystr) (chunk_size overlap : Z) :
  clean text_data <> [] ->
  let cleaned := clean text_data in
  let length := Z.of_nat (length cleaned) in
  let cs := fst (chunk_params chunk_size overlap) in
  let ov := snd (chunk_params chunk_size overlap) in
  (forall start,
      0 <= start < length -> Z.min length (start + cs) < length ->
      start + 1 <= Z.min length (start + cs) - ov)
  /\ (forall fuel, (List.length cleaned < fuel)%nat ->
      exists r,
        chunk_text fuel cleaned chunk_size overlap = Some r
        /\ chunks_of r <> []
        /\ Forall (fun c => c <> []) (chunks_of r))
  /\ (forall store table_name table filename,
      persist_chunks store table_name table filename []
      = (store,
         HttpError 400 (py "No valid chunks produced from file content."))).
Proof.
  intros Hne cleaned len cs ov.
  pose proof (chunk_params_valid chunk_size overlap) as Hv.
  fold cs ov in Hv.
  split; [intros start Hs Hend; lia|].
  split; [|reflexivity].
  intros fuel Hfuel.
  destruct (chunk_text_runs cleaned chunk_size overlap fuel Hfuel)
    as (ws & Hrun & Hhead & _).
  exists (Chunking (emitted cleaned ws) ws).
  split; [exact Hrun|]. cbn [chunks_of].
  split; [|apply emitted_nonempty].
  destruct (Hhead Hne) as [rest ->]. fold cs.
  destruct (clean_head text_data Hne) as (c & t & Hc & Hsp).
  fold cleaned in Hc.
  unfold emitted, window_text. cbn [List.map fst snd].
  rewrite py_slice_inside by lia.
  rewrite Hc. change (Z.to_nat 0) with 0%nat. cbn [drop].
  destruct (Z.to_nat (Z.min (Z.of_nat (List.length (c :: t))) cs - 0))
    as [|n] eqn:En.
  { cbn [List.length] in En. lia. }
  cbn [take]. rewrite strip_cons_nonspace by exact Hsp.
  cbn [List.filter nonempty]. discriminate.
Qed.

(** C2 (as amended): for every upload whose cleaned text is not empty and
    for all integers [chunk_size] and [overlap], with the effective values
    after the substitutions, the windows of the loop, with the overlap
    taken off each window after the first, put the cleaned text together
    again from start to end; the chunks are the trimmed texts of these
    windows, in order, without the ones that are all white space; and the
    loop runs at most [ceil(length / (chunk_size - overlap))] iterations. *)
Theorem windows_cover_cleaned_text
    (text_data : pystr) (chunk_size overlap : Z) (fuel : nat) :
  clean text_data <> [] ->
  (length (clean text_data) < fuel)%nat ->
  let cleaned := clean text_data in
  let cs := fst (chunk_params chunk_size overlap) in
  let ov := snd (chunk_params chunk_size overlap) in
  exists r,
    chunk_text fuel cleaned chunk_size overlap = Some r
    /\ subtract_overlap ov (List.map (window_text cleaned) (windows_of r))
       = cleaned
    /\ chunks_of r = emitted cleaned (windows_of r)
    /\ Z.of_nat (length (windows_of r))
       <= ceil_div (Z.of_nat (length cleaned)) (cs - ov).
Proof.
  intros Hne Hfuel cleaned cs ov.
  destruct (chunk_text_runs cleaned chunk_size overlap fuel Hfuel)
    as (ws & Hrun & _ & Hbound & Hcover).
  exists (Chunking (emitted cleaned ws) ws). cbn [chunks_of windows_of].
  repeat split; auto.
Qed.

(** The whole handler returns: with more fuel than the cleaned text has
    characters the chunking loop inside it ends. *)
Lemma ingest_file_returns (store : Store) (collection_name : pystr)
    (file : UploadFile) (chunk_size overlap : Z) :
  exists fuel result,
    ingest_file fuel store collection_name file chunk_size overlap
    = Some result.
Proof.
  unfold ingest_file.
  destruct (store !! table_name_of collection_name) as [table|];
    [|exists 0%nat; eauto].
  destruct (read_upload file _) as [text_data|status detail];
    [|exists 0%nat; eauto].
  destruct (nonempty (clean text_data)); [|exists 0%nat; eauto].
  exists (S (length (clean text_data))).
  destruct (chunk_text_runs (clean text_data) chunk_size overlap
              (S (length (clean text_data)))) as (ws & -> & _); [lia|].
  eauto.
Qed.

(** ** The chat-history store *)

Lemma filter_nil_iff {A : Type} (f : A -> bool) (l : list A) :
  List.filter f l = [] <-> Forall (fun x => f x = false) l.
Proof.
  induction l as [|x l IH]; simpl.
  - split; [constructor | reflexivity].
  - destruct (f x) eqn:E.
    + split; [discriminate|]. intros H. inversion H; congruence.
    + rewrite IH. split; [now constructor | now inversion 1].
Qed.

Lemma filter_all {A : Type} (f : A -> bool) (l : list A) :
  Forall (fun x => f x = true) l -> List.filter f l = l.
Proof.
  induction 1 as [|x l Hx _ IH]; simpl; [reflexivity|].
  now rewrite Hx, IH.
Qed.

Lemma filter_filter {A : Type} (f g : A -> bool) (l : list A) :
  List.filter f (List.filter g l) = List.filter (fun x => g x && f x) l.
Proof.
  induction l as [|x l IH]; simpl; [reflexivity|].
  destruct (g x); simpl; [destruct (f x)|]; now rewrite IH.
Qed.

Lemma returning_nil_iff (cid : Z) (conn : connection) :
  snd (delete_conversation_row cid conn) = []
  <-> has_conversation (working conn) cid = false.
Proof.
  unfold delete_conversation_row, has_conversation. cbn [snd].
  induction (conversations (working conn)) as [|c l IH]; simpl.
  - split; reflexivity.
  - destruct (conv_id c =? cid); simpl; [split; discriminate | exact IH].
Qed.

(** C8: for every conversation id, when the conversation exists the
    response is the success one and exactly the conversation row and the
    messages of that conversation are gone from the committed store; when
    it does not exist the response is 404 "Conversation not found" and the
    committed store is the one before the request, messages included. *)
Theorem delete_conversation_all_or_nothing (db : HistoryDb) (cid : Z) :
  (has_conversation db cid = true ->
   delete_conversation db cid
   = (without_conversations [cid] db,
      Ok {| deleted_flag := true; deleted_conversation_id := cid |}))
  /\ (has_conversation db cid = false ->
      delete_conversation db cid
      = (db, json_error "Conversation not found" 404)).
Proof.
  unfold delete_conversation.
  pose proof (returning_nil_iff cid
                (delete_messages_of cid (get_db_connection db))) as Hrow.
  destruct (delete_conversation_row cid
              (delete_messages_of cid (get_db_connection db)))
    as [conn row] eqn:Hdel.
  cbn [snd] in Hrow.
  change (has_conversation
            (working (delete_messages_of cid (get_db_connection db))) cid)
    with (has_conversation db cid) in Hrow.
  unfold delete_conversation_row in Hdel. injection Hdel as <- _.
  split; intros Hhas.
  - destruct row as [|r row].
    { destruct Hrow as [Hnone _]. rewrite Hnone in Hhas by reflexivity.
      discriminate. }
    unfold without_conversations, close, commit. cbn.
    f_equal. f_equal; apply List.filter_ext; intros x;
      unfold listed; cbn; now rewrite orb_false_r.
  - apply Hrow in Hhas. now subst row.
Qed.

Lemma filter_idem {A : Type} (f : A -> bool) (l : list A) :
  List.filter f (List.filter f l) = List.filter f l.
Proof.
  rewrite filter_filter. apply List.filter_ext. intros x. now destruct (f x).
Qed.

Lemma without_nil (db : HistoryDb) : without_conversations [] db = db.
Proof.
  destruct db as [convs msgs]. unfold without_conversations. cbn.
  f_equal; apply filter_all, List.Forall_forall; reflexivity.
Qed.

Lemma without_cons (cid : Z) (rest : list Z) (db : HistoryDb) :
  without_conversations rest (without_conversations [cid] db)
  = without_conversations (cid :: rest) db.
Proof.
  unfold without_conversations. cbn [conversations chat_messages].
  rewrite !filter_filter.
  f_equal; apply List.filter_ext; intros x; unfold listed; cbn;
    rewrite orb_false_r; now destruct (_ =? cid).
Qed.

Lemma without_idem (ids : list Z) (db : HistoryDb) :
  without_conversations ids (without_conversations ids db)
  = without_conversations ids db.
Proof.
  unfold without_conversations. cbn [conversations chat_messages].
  now rewrite !filter_idem.
Qed.

Lemma has_conversation_without (ids : list Z) (db : HistoryDb) (cid : Z) :
  has_conversation (without_conversations ids db) cid
  = negb (listed ids cid) && has_conversation db cid.
Proof.
  unfold has_conversation, without_conversations. cbn [conversations].
  induction (conversations db) as [|c l IH]; cbn.
  - now rewrite andb_false_r.
  - destruct (listed ids (conv_id c)) eqn:Hin; cbn; rewrite IH.
    + destruct (Z.eqb_spec (conv_id c) cid) as [<-|]; [|reflexivity].
      now rewrite Hin.
    + destruct (Z.eqb_spec (conv_id c) cid) as [<-|]; [|reflexivity].
      now rewrite Hin.
Qed.

(** The loop of the bulk deletion over ids without repetition: the working
    copy loses the listed conversations and their messages, [deleted]
    gains the ids that had a conversation row and [not_found] the others,
    each in the order of the iteration. *)
Lemma bulk_delete_loop_spec (conv_ids : list Z) :
  forall conn deleted not_found,
    NoDup conv_ids ->
    bulk_delete_loop conv_ids conn deleted not_found
    = ({| committed := committed conn;
          working := without_conversations conv_ids (working conn) |},
       deleted ++ List.filter (has_conversation (working conn)) conv_ids,
       not_found
       ++ List.filter (fun i => negb (has_conversation (working conn) i))
            conv_ids).
Proof.
  induction conv_ids as [|cid rest IH]; intros conn deleted not_found Hnd.
  - cbn. rewrite without_nil, !app_nil_r. now destruct conn.
  - apply NoDup_cons in Hnd as [Hfresh Hnd].
    cbn [bulk_delete_loop].
    pose proof (returning_nil_iff cid (delete_messages_of cid conn)) as Hrow.
    destruct (delete_conversation_row cid (delete_messages_of cid conn))
      as [conn' row] eqn:Hdel.
    cbn [snd] in Hrow.
    change (has_conversation (working (delete_messages_of cid conn)) cid)
      with (has_conversation (working conn) cid) in Hrow.
    assert (Hconn : conn' = {| committed := committed conn;
                               working := without_conversations [cid]
                                            (working conn) |}).
    { unfold delete_conversation_row in Hdel. injection Hdel as <- _.
      unfold without_conversations, delete_messages_of. cbn.
      f_equal. f_equal; apply List.filter_ext; intros x;
        unfold listed; cbn; now rewrite orb_false_r. }
    assert (Hrest : forall i, In i rest ->
              has_conversation (working conn') i
              = has_conversation (working conn) i).
    { intros i Hi. subst conn'. cbn [working].
      rewrite has_conversation_without. unfold listed. cbn.
      destruct (Z.eqb_spec i cid) as [->|]; [|reflexivity].
      exfalso. apply Hfresh. now apply list_elem_of_In. }
    assert (Hnd' : NoDup rest) by exact Hnd.
    cbn [List.filter].
    destruct row as [|r row].
    + destruct Hrow as [Hnone _]. rewrite Hnone by reflexivity. cbn [negb].
      rewrite IH by exact Hnd'.
      rewrite (List.filter_ext_in _ _ _ Hrest).
      rewrite (List.filter_ext_in
                 (fun i => negb (has_conversation (working conn') i))
                 (fun i => negb (has_conversation (working conn) i)))
        by (intros i Hi; now rewrite Hrest).
      subst conn'. cbn [committed working]. rewrite without_cons.
      now rewrite <- app_assoc.
    + destruct (has_conversation (working conn) cid) eqn:Hhas.
      2:{ destruct Hrow as [_ Hsome]. discriminate (Hsome eq_refl). }
      cbn [negb]. rewrite IH by exact Hnd'.
      rewrite (List.filter_ext_in _ _ _ Hrest).
      rewrite (List.filter_ext_in
                 (fun i => negb (has_conversation (working conn') i))
                 (fun i => negb (has_conversation (working conn) i)))
        by (intros i Hi; now rewrite Hrest).
      subst conn'. cbn [committed working]. rewrite without_cons.
      now rewrite <- app_assoc.
Qed.

Lemma bulk_delete_conversations_spec (db : HistoryDb) (ids : list Z) :
  ids <> [] ->
  NoDup (set_list ids) ->
  bulk_delete_conversations db ids
  = (without_conversations (set_list ids) db,
     Ok {| bulk_requested := set_list ids;
           bulk_deleted := List.filter (has_conversation db) (set_list ids);
           bulk_not_found :=
             List.filter (fun i => negb (has_conversation db i))
               (set_list ids);
           bulk_errors := [] |}).
Proof.
  intros Hne Hnd. unfold bulk_delete_conversations.
  destruct ids as [|i ids]; [done|].
  now rewrite bulk_delete_loop_spec by exact Hnd.
Qed.

(** C9: with conversations 1 and 2 in the store and 999 not, and the set
    of the requested ids iterated as 1, 2, 999, the bulk deletion of
    [1, 2, 999] answers [deleted = [1, 2]] and [not_found = [999]] and
    commits the store without conversations 1 and 2 and without their
    messages; the same request on the store it left answers
    [deleted = []] and [not_found = [1, 2, 999]] and changes nothing. *)
Theorem bulk_delete_scenario (db : HistoryDb) :
  set_list [1; 2; 999] = [1; 2; 999] ->
  has_conversation db 1 = true ->
  has_conversation db 2 = true ->
  has_conversation db 999 = false ->
  let first := bulk_delete_conversations db [1; 2; 999] in
  snd first
  = Ok {| bulk_requested := [1; 2; 999];
          bulk_deleted := [1; 2];
          bulk_not_found := [999];
          bulk_errors := [] |}
  /\ fst first = without_conversations [1; 2; 999] db
  /\ has_conversation (fst first) 1 = false
  /\ has_conversation (fst first) 2 = false
  /\ Forall (fun m => msg_conversation_id m <> 1 /\ msg_conversation_id m <> 2)
       (chat_messages (fst first))
  /\ bulk_delete_conversations (fst first) [1; 2; 999]
     = (fst first,
        Ok {| bulk_requested := [1; 2; 999];
              bulk_deleted := [];
              bulk_not_found := [1; 2; 999];
              bulk_errors := [] |}).
Proof.
  intros Hset H1 H2 H999 first.
  assert (Hnd : NoDup (set_list [1; 2; 999])).
  { rewrite Hset.
    repeat (apply NoDup_cons_2;
            [rewrite ?not_elem_of_cons; repeat split;
             (discriminate || apply not_elem_of_nil)|]).
    apply NoDup_nil_2. }
  assert (Hfirst : first
            = (without_conversations [1; 2; 999] db,
               Ok {| bulk_requested := [1; 2; 999];
                     bulk_deleted := [1; 2];
                     bulk_not_found := [999];
                     bulk_errors := [] |})).
  { subst first. rewrite bulk_delete_conversations_spec by done.
    rewrite Hset. cbn [List.filter]. now rewrite H1, H2, H999. }
  rewrite Hfirst. cbn [fst snd].
  split; [reflexivity|]. split; [reflexivity|].
  split; [now rewrite has_conversation_without|].
  split; [now rewrite has_conversation_without|].
  split.
  - unfold without_conversations. cbn [chat_messages].
    apply List.Forall_forall. intros m Hm.
    apply List.filter_In in Hm as [_ Hm]. unfold listed in Hm. cbn in Hm.
    destruct (Z.eqb_spec (msg_conversation_id m) 1); [discriminate|].
    destruct (Z.eqb_spec (msg_conversation_id m) 2); [discriminate|].
    done.
  - rewrite bulk_delete_conversations_spec by done.
    rewrite Hset, without_idem. cbn [List.filter].
    now rewrite !has_conversation_without.
Qed.

(** C10: for every store and conversation id, when no row of
    [chat_messages] carries the id, the details request answers
    404 "Conversation not found", whatever the [conversations] table
    holds: a conversation row of that id makes no difference. *)
Theorem details_not_found_without_messages
    (convs : list Conversation) (msgs : list Message) (cid : Z)
    (include_embeddings : bool) (page_size_arg page_arg : arg) :
  Forall (fun m => msg_conversation_id m <> cid) msgs ->
  get_conversation_details
    {| conversations := convs; chat_messages := msgs |}
    cid include_embeddings page_size_arg page_arg
  = HttpError 404 (py "Conversation not found").
Proof.
  intros Hnone. unfold get_conversation_details.
  destruct (parse_pagination page_size_arg page_arg) as [page_size offset].
  cbn [chat_messages].
  replace (List.filter (fun m => msg_conversation_id m =? cid) msgs)
    with (@nil Message); [reflexivity|].
  symmetry. apply filter_nil_iff.
  eapply List.Forall_impl; [|exact Hnone].
  intros m Hm. now apply Z.eqb_neq.
Qed.

(** ** The document store *)

Lemma update_rows_ids id content embedding rows :
  List.map doc_id (update_rows id content embedding rows)
  = List.map doc_id rows.
Proof.
  unfold update_rows. rewrite List.map_map. apply List.map_ext.
  intros d. now destruct (doc_id d =? id).
Qed.

Lemma update_rows_lookup id content embedding rows (i : nat) (d : Doc) :
  rows !! i = Some d ->
  update_rows id content embedding rows !! i
  = Some (if doc_id d =? id
          then {| doc_id := doc_id d; doc_content := content;
                  doc_embedding := embedding |}
          else d).
Proof.
  intros Hd. unfold update_rows.
  change (List.map ?f rows) with (f <$> rows).
  now rewrite list_lookup_fmap, Hd.
Qed.

Lemma update_rows_absent id content embedding rows :
  Forall (fun d => doc_id d <> id) rows ->
  update_rows id content embedding rows = rows.
Proof.
  induction 1 as [|d rows Hd _ IH]; cbn; [reflexivity|].
  apply Z.eqb_neq in Hd. unfold update_rows in IH. now rewrite Hd, IH.
Qed.

Lemma returning_first_id id rows :
  Exists (fun d => doc_id d = id) rows ->
  exists d rest,
    List.filter (fun d => doc_id d =? id) rows = d :: rest /\ doc_id d = id.
Proof.
  induction 1 as [d rows Hd | d rows _ IH]; cbn.
  - apply Z.eqb_eq in Hd as Hd'. rewrite Hd'. eauto.
  - destruct (Z.eqb_spec (doc_id d) id); eauto.
Qed.

(** C7: for every store, collection name, document id and new content:
    without a table of the normalised name the answer is the 404 of the
    collection and the store is as before. With the table, [encode] runs
    before the [UPDATE]: when it raises on the new content the answer is
    500 and the store is as before, whether or not a row carries the id,
    and so it is when the [UPDATE] raises. When [encode] returns an
    embedding and the [UPDATE] does not raise, an id that no row carries
    gives 404 "Document not found." and the store as before, and an id
    that a row carries gives the success response with that same id and
    commits the table in which the rows of that id hold the new content
    together with the new embedding, every other row is as before and the
    ids of the rows, in order, are unchanged; no other table is touched. *)
Theorem update_document_replaces
    (store : Store) (collection_name : pystr) (id : Z) (content : pystr) :
  let table_name := table_name_of collection_name in
  (store !! table_name = None ->
   update_document store collection_name id content
   = (store, collection_not_found table_name))
  /\ (forall table msg,
      store !! table_name = Some table ->
      encode content = Raised msg ->
      update_document store collection_name id content
      = (store, HttpError 500 msg))
  /\ (forall table embedding,
      store !! table_name = Some table ->
      encode content = Returned embedding ->
      update_raises (table_rows table) id content embedding = true ->
      update_document store collection_name id content
      = (store, HttpError 500 update_error))
  /\ (forall table embedding,
      store !! table_name = Some table ->
      encode content = Returned embedding ->
      update_raises (table_rows table) id content embedding = false ->
      let rows := update_rows id content embedding (table_rows table) in
      (Forall (fun d => doc_id d <> id) (table_rows table) ->
       update_document store collection_name id content
       = (store, HttpError 404 (py "Document not found.")))
      /\ (Exists (fun d => doc_id d = id) (table_rows table) ->
          update_document store collection_name id content
          = (<[table_name :=
                 {| table_rows := rows; table_seq := table_seq table |}]>
               store,
             Ok {| updated_message := py "Document updated successfully.";
                   updated_id := id |})
          /\ forall other, other <> table_name ->
              fst (update_document store collection_name id content) !! other
              = store !! other)
      /\ List.map doc_id rows = List.map doc_id (table_rows table)
      /\ (forall (i : nat) (d : Doc),
          table_rows table !! i = Some d ->
          rows !! i
          = Some (if doc_id d =? id
                  then {| doc_id := id; doc_content := content;
                          doc_embedding := embedding |}
                  else d))).
Proof.
  intros table_name. split; [|split; [|split]].
  - intros Hnone. unfold update_document. fold table_name. now rewrite Hnone.
  - intros table msg Htable Henc. unfold update_document. fold table_name.
    now rewrite Htable, Henc.
  - intros table embedding Htable Henc Hraises. unfold update_document.
    fold table_name. now rewrite Htable, Henc, Hraises.
  - intros table embedding Htable Henc Hpasses rows.
    split; [|split; [|split]].
    + intros Habsent. unfold update_document. fold table_name.
      rewrite Htable, Henc, Hpasses.
      rewrite update_rows_absent by exact Habsent.
      replace (List.filter (fun d => doc_id d =? id) (table_rows table))
        with (@nil Doc).
      2:{ symmetry. apply filter_nil_iff.
          eapply List.Forall_impl; [|exact Habsent].
          intros d Hd. now apply Z.eqb_neq. }
      f_equal. apply insert_id. rewrite Htable. now destruct table.
    + intros Hpresent. unfold update_document. fold table_name.
      rewrite Htable, Henc, Hpasses.
      destruct (returning_first_id id _ Hpresent) as (d & rest & -> & ->).
      split; [reflexivity|].
      intros other Hother. cbn [fst]. now apply lookup_insert_ne.
    + apply update_rows_ids.
    + intros i d Hd. subst rows.
      rewrite (update_rows_lookup _ _ _ _ _ _ Hd).
      destruct (Z.eqb_spec (doc_id d) id) as [->|]; reflexivity.
Qed.

(** What the per-chunk loop leaves: on success the working rows are the
    old rows followed by one row per chunk, in order, each with the
    embedding of its content and the next value of the sequence; a failure
    comes from a chunk on which [encode] or the [INSERT] raised. *)
Lemma insert_chunks_spec (chunks : list pystr) :
  forall rows seq inserted_ids,
    match insert_chunks rows seq chunks inserted_ids with
    | (seq', Some (rows', ids')) =>
      exists new_rows,
        rows' = rows ++ new_rows
        /\ ids' = inserted_ids ++ List.map doc_id new_rows
        /\ List.map doc_content new_rows = chunks
        /\ Forall (fun d => encode (doc_content d) = Returned (doc_embedding d))
             new_rows
    | (_, None) =>
      exists ch,
        In ch chunks
        /\ ((exists msg, encode ch = Raised msg)
            \/ (exists emb rows',
                 encode ch = Returned emb
                 /\ insert_raises rows' ch emb = true))
    end.
Proof.
  induction chunks as [|ch rest IH]; intros rows seq inserted_ids.
  - cbn. exists []. now rewrite !app_nil_r.
  - cbn [insert_chunks]. destruct (encode ch) as [emb|msg] eqn:Henc.
    2:{ exists ch. split; [now left | left; eauto]. }
    destruct (insert_raises rows ch emb) eqn:Hins.
    { exists ch. split; [now left | right; eauto]. }
    specialize (IH (rows ++ [{| doc_id := seq + 1; doc_content := ch;
                                doc_embedding := emb |}])
                  (seq + 1) (inserted_ids ++ [seq + 1])).
    destruct (insert_chunks _ _ rest _) as [seq' [[rows' ids']|]].
    + destruct IH as (new_rows & -> & -> & Hcontent & Henc').
      exists ({| doc_id := seq + 1; doc_content := ch; doc_embedding := emb |}
              :: new_rows).
      rewrite <- !app_assoc. cbn. rewrite Hcontent.
      repeat split; auto.
    + destruct IH as (ch' & Hin & Hwhy). exists ch'.
      split; [now right | exact Hwhy].
Qed.

Lemma loop_passes_nil (rows : list Doc) (seq : Z) : loop_passes rows seq [] [].
Proof. split; [constructor|]. intros i ch emb Hi. now destruct i. Qed.

Lemma loop_passes_cons (rows : list Doc) (seq : Z) (ch : pystr) (emb : vector)
    (done : list pystr) (embs : list vector) :
  loop_passes rows seq (ch :: done) (emb :: embs)
  <-> encode ch = Returned emb
      /\ insert_raises rows ch emb = false
      /\ loop_passes
           (rows ++ [{| doc_id := seq + 1; doc_content := ch;
                        doc_embedding := emb |}])
           (seq + 1) done embs.
Proof.
  unfold loop_passes. split.
  - intros [Hall Hins]. inversion Hall as [|? ? ? ? Henc Hrest]; subst.
    split; [exact Henc|]. split.
    + specialize (Hins 0%nat ch emb eq_refl eq_refl). cbn in Hins.
      now rewrite app_nil_r in Hins.
    + split; [exact Hrest|]. intros i c e Hc He.
      specialize (Hins (S i) c e Hc He). cbn in Hins.
      now rewrite <- app_assoc.
  - intros (Henc & Hfirst & Hall & Hins). split; [now constructor|].
    intros [|i] c e Hc He.
    + injection Hc as <-. injection He as <-. cbn. now rewrite app_nil_r.
    + specialize (Hins i c e Hc He). cbn.
      now rewrite <- app_assoc in Hins.
Qed.

(** The loop on chunks it gets through: it goes on with the rest, from the
    rows, the sequence and the ids that these chunks leave. *)
Lemma insert_chunks_app (done : list pystr) :
  forall embs rows seq rest inserted_ids,
    loop_passes rows seq done embs ->
    insert_chunks rows seq (done ++ rest) inserted_ids
    = insert_chunks (rows ++ chunk_rows seq done embs)
        (seq + Z.of_nat (length done)) rest
        (inserted_ids ++ seqZ (seq + 1) (Z.of_nat (length done))).
Proof.
  induction done as [|ch done IH]; intros embs rows seq rest inserted_ids Hpass.
  - cbn. now rewrite !app_nil_r, Z.add_0_r.
  - destruct embs as [|emb embs];
      [destruct Hpass as [Hall _]; inversion Hall|].
    apply loop_passes_cons in Hpass as (Henc & Hins & Hpass).
    cbn [app insert_chunks]. rewrite Henc, Hins.
    rewrite (IH embs _ _ rest _ Hpass). cbn [chunk_rows length].
    rewrite <- !app_assoc. cbn [app].
    rewrite (seqZ_cons (seq + 1)) by lia.
    replace (seq + Z.of_nat (S (length done)))
      with (seq + 1 + Z.of_nat (length done)) by lia.
    replace (Z.succ (seq + 1)) with (seq + 1 + 1) by lia.
    replace (Z.pred (Z.of_nat (S (length done))))
      with (Z.of_nat (length done)) by lia.
    reflexivity.
Qed.

(** Either the loop fails at some chunk, having got through the chunks in
    front of it, or it gets through all of them. *)
Lemma loop_cases (chunks : list pystr) :
  forall rows seq,
    (exists done ch rest embs,
        chunks = done ++ ch :: rest
        /\ loop_passes rows seq done embs
        /\ chunk_fails (rows ++ chunk_rows seq done embs) ch)
    \/ (exists embs, loop_passes rows seq chunks embs).
Proof.
  induction chunks as [|ch chunks IH]; intros rows seq.
  - right. exists []. apply loop_passes_nil.
  - destruct (encode ch) as [emb|msg] eqn:Henc.
    2:{ left. exists [], ch, chunks, [].
        split; [reflexivity|]. split; [apply loop_passes_nil|].
        left. eauto. }
    destruct (insert_raises rows ch emb) eqn:Hins.
    { left. exists [], ch, chunks, [].
      split; [reflexivity|]. split; [apply loop_passes_nil|].
      right. exists emb. cbn. now rewrite app_nil_r. }
    destruct (IH (rows ++ [{| doc_id := seq + 1; doc_content := ch;
                              doc_embedding := emb |}]) (seq + 1))
      as [(done & c & rest & embs & -> & Hpass & Hfail) | [embs Hpass]].
    + left. exists (ch :: done), c, rest, (emb :: embs).
      split; [reflexivity|].
      split; [apply loop_passes_cons; auto|].
      cbn [chunk_rows]. now rewrite <- app_assoc in Hfail.
    + right. exists (emb :: embs). apply loop_passes_cons. auto.
Qed.

(** C6: for every store with the table and every non-empty list of chunks:
    when the per-chunk loop, having got through the chunks [done], reaches
    a chunk on which [encode] raises or on which the [INSERT] raises, the
    response is the 500 of an unhandled exception and every table of the
    committed store has the rows it had before the request: the rows
    inserted for [done] are not committed; when [encode] returns for every
    chunk and no [INSERT] raises, the response is the success one and the
    table is committed with its old rows followed by one row per chunk, in order,
    each with its chunk, the embedding of the chunk and the next id of the
    sequence, no other table being touched; and one of the two is always
    the case. *)
Theorem ingest_commits_all_or_nothing
    (store : Store) (table_name : pystr) (table : Table) (filename : pystr)
    (chunks : list pystr) :
  chunks <> [] ->
  store !! table_name = Some table ->
  let result := persist_chunks store table_name table filename chunks in
  let rows := table_rows table in
  let seq := table_seq table in
  (forall done ch rest embs,
      chunks = done ++ ch :: rest ->
      loop_passes rows seq done embs ->
      chunk_fails (rows ++ chunk_rows seq done embs) ch ->
      snd result = internal_server_error
      /\ forall name,
          table_rows <$> (fst result !! name) = table_rows <$> (store !! name))
  /\ (forall embs,
      loop_passes rows seq chunks embs ->
      result
      = (<[table_name :=
             {| table_rows := rows ++ chunk_rows seq chunks embs;
                table_seq := seq + Z.of_nat (length chunks) |}]> store,
         Ok {| ingested_collection := table_name;
               ingested_file := filename;
               ingested_chunks := Z.of_nat (length chunks);
               ingested_inserted := Z.of_nat (length chunks);
               ingested_ids := seqZ (seq + 1) (Z.of_nat (length chunks)) |})
      /\ List.map doc_content (chunk_rows seq chunks embs) = chunks
      /\ Forall (fun d => encode (doc_content d) = Returned (doc_embedding d))
           (chunk_rows seq chunks embs)
      /\ forall name, name <> table_name -> fst result !! name = store !! name)
  /\ ((exists done ch rest embs,
         chunks = done ++ ch :: rest
         /\ loop_passes rows seq done embs
         /\ chunk_fails (rows ++ chunk_rows seq done embs) ch)
      \/ (exists embs, loop_passes rows seq chunks embs)).
Proof.
  intros Hne Htable result rows seq. subst result rows seq.
  split; [|split].
  - intros done ch rest embs -> Hpass Hfail.
    unfold persist_chunks.
    destruct (done ++ ch :: rest) as [|c0 l0] eqn:Hchunks; [done|].
    rewrite <- Hchunks.
    rewrite (insert_chunks_app done embs _ _ (ch :: rest) [] Hpass).
    cbn [insert_chunks].
    assert (Hnone :
              snd match encode ch with
                  | Raised _ =>
                    (table_seq table + Z.of_nat (length done), None)
                  | Returned emb =>
                    if insert_raises
                         (table_rows table
                          ++ chunk_rows (table_seq table) done embs) ch emb
                    then (table_seq table + Z.of_nat (length done), None)
                    else
                      insert_chunks
                        ((table_rows table
                          ++ chunk_rows (table_seq table) done embs)
                         ++ [{| doc_id :=
                                  table_seq table + Z.of_nat (length done) + 1;
                                doc_content := ch; doc_embedding := emb |}])
                        (table_seq table + Z.of_nat (length done) + 1) rest
                        (([] ++ seqZ (table_seq table + 1)
                                  (Z.of_nat (length done)))
                         ++ [table_seq table + Z.of_nat (length done) + 1])
                  end = None).
    { destruct Hfail as [[msg Hmsg] | (emb & Hemb & Hins)].
      - now rewrite Hmsg.
      - now rewrite Hemb, Hins. }
    destruct (match encode ch with
              | Raised _ => _
              | Returned _ => _
              end) as [seq' loop].
    cbn [snd] in Hnone. subst loop. cbn [fst snd].
    split; [reflexivity|].
    intros name. destruct (decide (table_name = name)) as [<-|Hname].
    + now rewrite lookup_insert_eq, Htable.
    + now rewrite lookup_insert_ne.
  - intros embs Hpass.
    assert (Hrun : insert_chunks (table_rows table) (table_seq table) chunks []
                   = (table_seq table + Z.of_nat (length chunks),
                      Some (table_rows table
                            ++ chunk_rows (table_seq table) chunks embs,
                            seqZ (table_seq table + 1)
                              (Z.of_nat (length chunks))))).
    { pose proof (insert_chunks_app chunks embs _ _ [] [] Hpass) as Happ.
      rewrite app_nil_r in Happ. exact Happ. }
    assert (Hresult :
              persist_chunks store table_name table filename chunks
              = (<[table_name :=
                     {| table_rows :=
                          table_rows table
                          ++ chunk_rows (table_seq table) chunks embs;
                        table_seq :=
                          table_seq table + Z.of_nat (length chunks) |}]>
                   store,
                 Ok {| ingested_collection := table_name;
                       ingested_file := filename;
                       ingested_chunks := Z.of_nat (length chunks);
                       ingested_inserted := Z.of_nat (length chunks);
                       ingested_ids :=
                         seqZ (table_seq table + 1)
                           (Z.of_nat (length chunks)) |})).
    { unfold persist_chunks.
      destruct chunks as [|c0 l0] eqn:Hchunks; [done|].
      rewrite Hrun.
      now rewrite length_seqZ, Z2Nat.id by lia. }
    split; [exact Hresult|].
    destruct Hpass as [Hall _].
    split; [|split].
    + clear -Hall. generalize (table_seq table).
      induction Hall as [|c e cs es _ _ IH]; intros seq0; [reflexivity|].
      cbn. now rewrite IH.
    + clear -Hall. generalize (table_seq table).
      induction Hall as [|c e cs es Hc _ IH]; intros seq0; [constructor|].
      cbn. constructor; [exact Hc | apply IH].
    + intros name Hname. rewrite Hresult. cbn [fst].
      now apply lookup_insert_ne.
  - apply loop_cases.
Qed.

(** An error response of the whole handler leaves the rows of every
    table as they were. *)
Lemma ingest_file_error_keeps_rows (fuel : nat) (store store' : Store)
    (collection_name : pystr) (file : UploadFile) (chunk_size overlap : Z)
    (status : Z) (detail : pystr) :
  ingest_file fuel store collection_name file chunk_size overlap
  = Some (store', HttpError status detail) ->
  forall name, table_rows <$> (store' !! name) = table_rows <$> (store !! name).
Proof.
  unfold ingest_file.
  destruct (store !! table_name_of collection_name) as [table|] eqn:Htable;
    [|now intros [= <- _ _]].
  destruct (read_upload file _) as [text_data|status' detail'];
    [|now intros [= <- _ _]].
  destruct (nonempty (clean text_data)); [|now intros [= <- _ _]].
  destruct (chunk_text fuel _ chunk_size overlap) as [ch|]; [|discriminate].
  unfold persist_chunks. destruct (chunks_of ch) as [|c rest];
    [now intros [= <- _ _]|].
  destruct (insert_chunks _ _ (c :: rest) [])
    as [seq [[rows ids]|]]; [discriminate|].
  intros [= <- _ _] name.
  destruct (decide (table_name_of collection_name = name)) as [<-|Hname].
  - now rewrite lookup_insert_eq, Htable.
  - now rewrite lookup_insert_ne.
Qed.

(** ** Cosine distance *)

Lemma dot_self_nonneg (a : vector) : (0 <= dot a a)%R.
Proof.
  induction a as [|x a IH]; cbn; [lra|].
  pose proof (Rle_0_sqr x) as Hx. unfold Rsqr in Hx. lra.
Qed.

Lemma cauchy_schwarz (a : vector) :
  forall b, (dot a b * dot a b <= dot a a * dot b b)%R.
Proof.
  induction a as [|x a IH]; intros [|y b]; cbn; try nra.
  - specialize (IH b).
    pose proof (dot_self_nonneg a) as HA.
    pose proof (dot_self_nonneg b) as HB.
    set (s := dot a b) in *. set (A := dot a a) in *. set (B := dot b b) in *.
    destruct (Req_dec A 0) as [HA0|HA0].
    + assert (Hs : s = 0%R) by nra.
      rewrite Hs, HA0. nra.
    + assert (HApos : (0 < A)%R) by lra.
      assert (Hkey : (0 <= A * (x * x * B + A * (y * y) - 2 * (x * y * s)))%R).
      { replace (A * (x * x * B + A * (y * y) - 2 * (x * y * s)))%R
          with ((x * x) * (A * B - s * s) + (x * s - A * y) * (x * s - A * y))%R
          by ring.
        pose proof (Rle_0_sqr (x * s - A * y)) as H1. unfold Rsqr in H1.
        pose proof (Rle_0_sqr x) as H2. unfold Rsqr in H2.
        nra. }
      assert (Hcross : (0 <= x * x * B + A * (y * y) - 2 * (x * y * s))%R).
      { apply (Rmult_le_reg_l A); [exact HApos|]. now rewrite Rmult_0_r. }
      nra.
Qed.

Lemma dot_le_norms (a b : vector) : (dot a b <= norm a * norm b)%R.
Proof.
  unfold norm. rewrite <- sqrt_mult by apply dot_self_nonneg.
  apply Rle_trans with (Rabs (dot a b)); [apply Rle_abs|].
  rewrite <- sqrt_Rsqr_abs. apply sqrt_le_1_alt. unfold Rsqr.
  apply cauchy_schwarz.
Qed.

Lemma similarity_le_1 (e q : vector) :
  (0 < norm e)%R -> (0 < norm q)%R -> (1 - cosine_distance e q <= 1)%R.
Proof.
  intros He Hq. unfold cosine_distance.
  assert (Hpos : (0 < norm e * norm q)%R) by now apply Rmult_lt_0_compat.
  assert (dot e q / (norm e * norm q) <= 1)%R; [|lra].
  apply (Rmult_le_reg_r (norm e * norm q)); [exact Hpos|].
  unfold Rdiv. rewrite Rmult_assoc, Rinv_l by lra.
  rewrite Rmult_1_r, Rmult_1_l. apply dot_le_norms.
Qed.

Lemma dot_scale_l (c : R) (a : vector) :
  forall b, dot (scale c a) b = (c * dot a b)%R.
Proof.
  induction a as [|x a IH]; intros [|y b]; cbn; try ring.
  unfold scale in IH. rewrite IH. ring.
Qed.

Lemma dot_comm (a : vector) : forall b, dot a b = dot b a.
Proof.
  induction a as [|x a IH]; intros [|y b]; cbn; try reflexivity.
  rewrite IH. ring.
Qed.

Lemma norm_scale (c : R) (a : vector) :
  (0 <= c)%R -> norm (scale c a) = (c * norm a)%R.
Proof.
  intros Hc. unfold norm.
  rewrite dot_scale_l, (dot_comm a), dot_scale_l.
  replace (c * (c * dot a a))%R with ((c * c) * dot a a)%R by ring.
  rewrite sqrt_mult; [|nra|apply dot_self_nonneg].
  now rewrite sqrt_square.
Qed.

Lemma norm_sqr (a : vector) : (norm a * norm a = dot a a)%R.
Proof. unfold norm. apply sqrt_sqrt, dot_self_nonneg. Qed.

Lemma similarity_same_direction (c : R) (q : vector) :
  (0 < c)%R -> (0 < norm q)%R ->
  (1 - cosine_distance (scale c q) q = 1)%R.
Proof.
  intros Hc Hq. unfold cosine_distance.
  rewrite dot_scale_l, norm_scale by lra.
  rewrite <- (norm_sqr q).
  field. split; lra.
Qed.

(** ** Ordering and limits *)

Lemma order_by_asc_sorted {A : Type} (key : A -> R) (rows : list A) :
  StronglySorted (fun a b => (key a <= key b)%R) (order_by_asc key rows).
Proof.
  assert (Transitive (fun a b : A => (key a <= key b)%R))
    by (intros x y z; apply Rle_trans).
  assert (Total (fun a b : A => (key a <= key b)%R))
    by (intros x y; destruct (Rle_dec (key x) (key y)); [left | right]; lra).
  unfold order_by_asc. now apply StronglySorted_merge_sort.
Qed.

Lemma order_by_desc_sorted {A : Type} (key : A -> R) (rows : list A) :
  StronglySorted (fun a b => (key b <= key a)%R) (order_by_desc key rows).
Proof.
  assert (Transitive (fun a b : A => (key b <= key a)%R))
    by (intros x y z Hxy Hyz; now apply Rle_trans with (key y)).
  assert (Total (fun a b : A => (key b <= key a)%R))
    by (intros x y; destruct (Rle_dec (key x) (key y)); [right | left]; lra).
  unfold order_by_desc. now apply StronglySorted_merge_sort.
Qed.

Lemma limit_sorted {A : Type} (R : relation A) (n : Z) (rows : list A) :
  StronglySorted R rows -> StronglySorted R (limit n rows).
Proof.
  intros Hs. unfold limit.
  rewrite <- (take_drop (Z.to_nat n) rows) in Hs.
  now apply StronglySorted_app_1_l in Hs.
Qed.

Lemma limit_subset {A : Type} (n : Z) (rows : list A) (x : A) :
  x ∈ limit n rows -> x ∈ rows.
Proof.
  unfold limit. intros Hx.
  rewrite <- (take_drop (Z.to_nat n) rows). apply elem_of_app. now left.
Qed.

Lemma length_limit {A : Type} (n : Z) (rows : list A) :
  length (limit n rows) = Nat.min (Z.to_nat n) (length rows).
Proof. unfold limit. apply length_take. Qed.

Lemma length_order_by_asc {A : Type} (key : A -> R) (rows : list A) :
  length (order_by_asc key rows) = length rows.
Proof.
  unfold order_by_asc. apply Permutation_length, merge_sort_Permutation.
Qed.

Lemma length_order_by_desc {A : Type} (key : A -> R) (rows : list A) :
  length (order_by_desc key rows) = length rows.
Proof.
  unfold order_by_desc. apply Permutation_length, merge_sort_Permutation.
Qed.

(** ** Similarity search *)

Lemma search_candidates_elem (db : HistoryDb) (conv_id : option Z)
    (m : Message) (e : vector) :
  (m, e) ∈ search_candidates db conv_id ->
  m ∈ chat_messages db
  /\ msg_embedding m = Some e
  /\ (forall cid, scope_of conv_id = Some cid -> msg_conversation_id m = cid).
Proof.
  unfold search_candidates. rewrite list_elem_of_omap.
  intros (m' & Hm' & Hrow).
  destruct (msg_embedding m') as [e'|] eqn:He; [|discriminate].
  destruct (scope_of conv_id) as [cid|].
  - destruct (Z.eqb_spec (msg_conversation_id m') cid); [|discriminate].
    injection Hrow as <- <-. repeat split; auto. now intros ? [= <-].
  - injection Hrow as <- <-. repeat split; auto. discriminate.
Qed.

Lemma search_candidates_scoped (db : HistoryDb) (cid : Z) :
  cid <> 0 ->
  search_candidates db (Some cid)
  = List.filter (fun row => msg_conversation_id (fst row) =? cid)
      (search_candidates db None).
Proof.
  intros Hcid. unfold search_candidates, scope_of.
  apply Z.eqb_neq in Hcid. rewrite Hcid.
  induction (chat_messages db) as [|m l IH]; [reflexivity|].
  cbn. destruct (msg_embedding m) as [e|]; [|exact IH].
  cbn. destruct (msg_conversation_id m =? cid); cbn; now rewrite IH.
Qed.

(** What a successful search returns, unfolded. *)
Lemma similarity_search_ok (db : HistoryDb) (query : vector) (top_k : Z)
    (conv_id : option Z) (res : SearchResult) :
  similarity_search db query top_k conv_id = Ok res ->
  search_results res
  = List.map (search_hit query)
      (limit (clamp_top_k top_k)
         (order_by_asc (fun row => cosine_distance (snd row) query)
            (search_candidates db conv_id))).
Proof.
  unfold similarity_search.
  destruct (distance_error _ _); [discriminate|].
  now intros [= <-].
Qed.

Lemma query_collection_ok (store : Store) (collection_name query_text : pystr)
    (top_k : Z) (hits : list QueryHit) :
  query_collection store collection_name query_text top_k = Ok hits ->
  exists table query,
    store !! table_name_of collection_name = Some table
    /\ encode query_text = Returned query
    /\ 0 <= top_k
    /\ hits
       = limit top_k
           (order_by_desc query_similarity
              (List.map (query_hit query) (table_rows table))).
Proof.
  unfold query_collection.
  destruct (store !! table_name_of collection_name) as [table|];
    [|discriminate].
  destruct (encode query_text) as [query|]; [|discriminate].
  destruct (distance_error _ _); [discriminate|].
  destruct (Z.ltb_spec top_k 0); [discriminate|].
  intros [= <-]. exists table, query. auto.
Qed.

(** The rows that [LIMIT] keeps of a sorted list come before the rows it
    leaves out, and the first row of a sorted list comes before every row. *)
Lemma limit_rest {A : Type} (R : relation A) (n : Z) (rows : list A) :
  StronglySorted R rows ->
  limit n rows ++ drop (Z.to_nat n) rows = rows
  /\ Forall (fun r => Forall (fun h => R h r) (limit n rows))
       (drop (Z.to_nat n) rows).
Proof.
  intros Hs. unfold limit. split; [apply take_drop|].
  rewrite <- (take_drop (Z.to_nat n) rows) in Hs.
  apply StronglySorted_app in Hs as (Hcross & _ & _).
  apply List.Forall_forall. intros r Hr.
  apply List.Forall_forall. intros h Hh.
  apply Hcross; now apply list_elem_of_In.
Qed.

Lemma sorted_head {A : Type} (R : relation A) (rows : list A) (x : A) :
  (forall a, R a a) ->
  StronglySorted R rows ->
  x ∈ rows ->
  exists h tl, rows = h :: tl /\ R h x.
Proof.
  intros Hrefl Hs Hx. destruct rows as [|h tl]; [inversion Hx|].
  exists h, tl. split; [reflexivity|].
  apply elem_of_cons in Hx as [->|Hx]; [apply Hrefl|].
  inversion Hs as [|? ? _ Hall]; subst.
  rewrite List.Forall_forall in Hall. apply Hall. now apply list_elem_of_In.
Qed.

Lemma distance_same_direction (c : R) (q : vector) :
  (0 < c)%R -> (0 < norm q)%R -> cosine_distance (scale c q) q = 0%R.
Proof.
  intros Hc Hq. pose proof (similarity_same_direction c q Hc Hq). lra.
Qed.

(** C3: a search of the history store on which the distance operator does
    not raise, and a query of an existing collection for which [encode]
    returns a vector, the distance operator does not raise and [top_k] is
    not negative, succeed, and their results are these. The rows come by
    non-increasing similarity, the similarity of a returned row being 1
    minus the cosine distance between the stored embedding of the row and
    the query vector. There are as many as the limit allows, the clamped
    [top_k] or [top_k], or all candidates when there are fewer, and they
    are the best: a candidate that is left out scores no more than any
    returned row. When neither the query vector nor a stored vector is
    null, no returned row scores more than 1, and as soon as a candidate is
    a positive multiple of the query vector the first returned row scores
    exactly 1. The last two parts are the bound and the value of the
    score itself. *)
Theorem similarity_results_ordered :
  (forall db query top_k conv_id,
      let candidates := search_candidates db conv_id in
      distance_error query (List.map snd candidates) = None ->
      exists res,
        similarity_search db query top_k conv_id = Ok res
        /\ StronglySorted
             (fun a b => (hit_similarity b <= hit_similarity a)%R)
             (search_results res)
        /\ Forall (fun h =>
                     exists m e,
                       m ∈ chat_messages db
                       /\ msg_embedding m = Some e
                       /\ hit_id h = msg_id m
                       /\ hit_similarity h
                          = (1 - cosine_distance e query)%R)
             (search_results res)
        /\ length (search_results res)
           = Nat.min (Z.to_nat (clamp_top_k top_k)) (length candidates)
        /\ (exists rows rest,
              search_results res = List.map (search_hit query) rows
              /\ rows ++ rest ≡ₚ candidates
              /\ Forall (fun r =>
                           Forall (fun h =>
                                     (1 - cosine_distance (snd r) query
                                      <= hit_similarity h)%R)
                             (search_results res))
                   rest)
        /\ ((0 < norm query)%R ->
            Forall (fun row => (0 < norm (snd row))%R) candidates ->
            Forall (fun h => (hit_similarity h <= 1)%R) (search_results res)
            /\ forall m e c,
                (m, e) ∈ candidates ->
                e = scale c query ->
                (0 < c)%R ->
                exists h hits,
                  search_results res = h :: hits
                  /\ hit_similarity h = 1%R))
  /\ (forall store collection_name query_text top_k table query,
      store !! table_name_of collection_name = Some table ->
      encode query_text = Returned query ->
      distance_error query (List.map doc_embedding (table_rows table))
      = None ->
      0 <= top_k ->
      exists hits,
        query_collection store collection_name query_text top_k = Ok hits
        /\ StronglySorted
             (fun a b => (query_similarity b <= query_similarity a)%R) hits
        /\ Forall (fun h =>
                     exists d,
                       d ∈ table_rows table
                       /\ query_id h = doc_id d
                       /\ query_content h = doc_content d
                       /\ query_similarity h
                          = (1 - cosine_distance (doc_embedding d) query)%R)
             hits
        /\ length hits
           = Nat.min (Z.to_nat top_k) (length (table_rows table))
        /\ (exists rest,
              hits ++ rest
              ≡ₚ List.map (query_hit query) (table_rows table)
              /\ Forall (fun r =>
                           Forall (fun h =>
                                     (query_similarity r
                                      <= query_similarity h)%R) hits)
                   rest)
        /\ ((0 < norm query)%R ->
            Forall (fun d => (0 < norm (doc_embedding d))%R)
              (table_rows table) ->
            Forall (fun h => (query_similarity h <= 1)%R) hits
            /\ forall d c,
                d ∈ table_rows table ->
                doc_embedding d = scale c query ->
                (0 < c)%R ->
                0 < top_k ->
                exists h tl, hits = h :: tl /\ query_similarity h = 1%R))
  /\ (forall e query : vector,
      (0 < norm e)%R -> (0 < norm query)%R ->
      (1 - cosine_distance e query <= 1)%R)
  /\ (forall (c : R) (query : vector),
      (0 < c)%R -> (0 < norm query)%R ->
      (1 - cosine_distance (scale c query) query = 1)%R).
Proof.
  split; [|split; [|split]].
  - intros db query top_k conv_id candidates Herr.
    unfold similarity_search. fold candidates. rewrite Herr.
    eexists. split; [reflexivity|]. cbn [search_results].
    set (key := fun row : Message * vector => cosine_distance (snd row) query).
    set (sorted := order_by_asc key candidates).
    assert (Hsorted : StronglySorted (fun a b => (key a <= key b)%R) sorted)
      by apply order_by_asc_sorted.
    assert (Hperm : sorted ≡ₚ candidates) by apply merge_sort_Permutation.
    assert (Hsim : forall row,
               hit_similarity (search_hit query row) = (1 - key row)%R)
      by (intros [m e]; reflexivity).
    assert (Hin : forall row, row ∈ limit (clamp_top_k top_k) sorted ->
                              row ∈ candidates).
    { intros row Hrow. apply limit_subset in Hrow. now rewrite <- Hperm. }
    split; [|split; [|split; [|split]]].
    + apply (StronglySorted_fmap _ (fun a b => (key a <= key b)%R)).
      * intros a b Hab. rewrite !Hsim. lra.
      * now apply limit_sorted.
    + apply List.Forall_forall. intros h Hh.
      apply List.in_map_iff in Hh as ([m e] & <- & Hrow).
      apply list_elem_of_In, Hin in Hrow.
      apply search_candidates_elem in Hrow as (Hm & He & _).
      exists m, e. auto.
    + rewrite length_map, length_limit. unfold sorted.
      now rewrite length_order_by_asc.
    + exists (limit (clamp_top_k top_k) sorted),
        (drop (Z.to_nat (clamp_top_k top_k)) sorted).
      destruct (limit_rest _ (clamp_top_k top_k) sorted Hsorted)
        as [Happ Hrest].
      split; [reflexivity|]. split; [now rewrite Happ|].
      eapply List.Forall_impl; [|exact Hrest].
      intros r Hr. apply List.Forall_forall. intros h Hh.
      apply List.in_map_iff in Hh as (row & <- & Hrow).
      rewrite List.Forall_forall in Hr. specialize (Hr row Hrow).
      rewrite Hsim. unfold key in Hr |- *. lra.
    + intros Hq Hnonnull. rewrite List.Forall_forall in Hnonnull.
      split.
      * apply List.Forall_forall. intros h Hh.
        apply List.in_map_iff in Hh as (row & <- & Hrow).
        apply list_elem_of_In, Hin, list_elem_of_In, Hnonnull in Hrow.
        rewrite Hsim. now apply similarity_le_1.
      * intros m e c Hcand -> Hc.
        rewrite <- Hperm in Hcand.
        destruct (sorted_head _ sorted _ (fun a => Rle_refl (key a))
                    Hsorted Hcand) as (h & tl & Hhead & Hle).
        assert (Hh : h ∈ candidates)
          by (rewrite <- Hperm, Hhead; apply list_elem_of_here).
        apply list_elem_of_In, Hnonnull in Hh.
        unfold limit. rewrite Hhead.
        destruct (Z.to_nat (clamp_top_k top_k)) as [|k] eqn:Hk;
          [unfold clamp_top_k in Hk; lia|].
        cbn [take List.map]. eexists _, _. split; [reflexivity|].
        rewrite Hsim.
        pose proof (similarity_le_1 (snd h) query Hh Hq) as Hmax.
        unfold key in Hle |- *. cbn [snd] in Hle.
        rewrite (distance_same_direction c query Hc Hq) in Hle. lra.
  - intros store collection_name query_text top_k table query
      Htable Henc Herr Htop.
    unfold query_collection. rewrite Htable, Henc, Herr.
    destruct (Z.ltb_spec top_k 0) as [|_]; [lia|].
    eexists. split; [reflexivity|].
    set (all := List.map (query_hit query) (table_rows table)).
    set (sorted := order_by_desc query_similarity all).
    assert (Hsorted : StronglySorted
                        (fun a b => (query_similarity b
                                     <= query_similarity a)%R) sorted)
      by apply order_by_desc_sorted.
    assert (Hperm : sorted ≡ₚ all) by apply merge_sort_Permutation.
    assert (Hin : forall h, h ∈ limit top_k sorted ->
                            exists d, d ∈ table_rows table
                                      /\ h = query_hit query d).
    { intros h Hh. apply limit_subset in Hh. rewrite Hperm in Hh.
      apply list_elem_of_In, List.in_map_iff in Hh as (d & <- & Hd).
      exists d. split; [now apply list_elem_of_In | reflexivity]. }
    split; [|split; [|split; [|split]]].
    + now apply limit_sorted.
    + apply List.Forall_forall. intros h Hh.
      apply list_elem_of_In, Hin in Hh as (d & Hd & ->).
      exists d. repeat split; auto.
    + rewrite length_limit. unfold sorted, all.
      now rewrite length_order_by_desc, length_map.
    + exists (drop (Z.to_nat top_k) sorted).
      destruct (limit_rest _ top_k sorted Hsorted) as [Happ Hrest].
      split; [now rewrite Happ | exact Hrest].
    + intros Hq Hnonnull. rewrite List.Forall_forall in Hnonnull.
      split.
      * apply List.Forall_forall. intros h Hh.
        apply list_elem_of_In, Hin in Hh as (d & Hd & ->).
        cbn [query_hit query_similarity].
        apply similarity_le_1; [|exact Hq].
        now apply Hnonnull, list_elem_of_In.
      * intros d c Hd Hemb Hc Hpos.
        assert (Hcand : query_hit query d ∈ sorted).
        { rewrite Hperm. apply list_elem_of_In, List.in_map.
          now apply list_elem_of_In. }
        destruct (sorted_head _ sorted _
                    (fun a => Rle_refl (query_similarity a)) Hsorted Hcand)
          as (h & tl & Hhead & Hle).
        destruct (Z.to_nat top_k) as [|k] eqn:Hk; [lia|].
        assert (Hh : h ∈ limit top_k sorted)
          by (unfold limit; rewrite Hhead, Hk; apply list_elem_of_here).
        unfold limit. rewrite Hhead, Hk.
        cbn [take]. eexists _, _. split; [reflexivity|].
        apply Hin in Hh as (d' & Hd' & ->).
        cbn [query_hit query_similarity] in Hle |- *.
        rewrite Hemb, (distance_same_direction c query Hc Hq) in Hle.
        assert (Hmax : (1 - cosine_distance (doc_embedding d') query <= 1)%R).
        { apply similarity_le_1; [|exact Hq].
          now apply Hnonnull, list_elem_of_In. }
        lra.
  - apply similarity_le_1.
  - apply similarity_same_direction.
Qed.

(** C4 (as amended): for every search with a conversation id other than 0,
    every returned row belongs to that conversation; the candidates are
    the rows of the unrestricted search that belong to the conversation,
    and the clamped [top_k] is applied to these candidates after they are
    ordered, so that the number of rows returned is the smaller of the
    clamped [top_k] and the number of candidates in the conversation. *)
Theorem search_stays_in_scope
    (db : HistoryDb) (query : vector) (top_k cid : Z) (res : SearchResult) :
  cid <> 0 ->
  similarity_search db query top_k (Some cid) = Ok res ->
  Forall (fun h => hit_conversation_id h = cid) (search_results res)
  /\ search_candidates db (Some cid)
     = List.filter (fun row => msg_conversation_id (fst row) =? cid)
         (search_candidates db None)
  /\ search_results res
     = List.map (search_hit query)
         (limit (clamp_top_k top_k)
            (order_by_asc (fun row => cosine_distance (snd row) query)
               (search_candidates db (Some cid))))
  /\ length (search_results res)
     = Nat.min (Z.to_nat (clamp_top_k top_k))
         (length (search_candidates db (Some cid))).
Proof.
  intros Hcid Hok.
  pose proof (similarity_search_ok _ _ _ _ _ Hok) as Hres.
  split; [|split; [|split]].
  - rewrite Hres. apply List.Forall_forall. intros h Hh.
    apply List.in_map_iff in Hh as ([m e] & <- & Hrow).
    apply list_elem_of_In, limit_subset in Hrow.
    unfold order_by_asc in Hrow. rewrite merge_sort_Permutation in Hrow.
    apply search_candidates_elem in Hrow as (_ & _ & Hscope).
    cbn. apply Hscope. unfold scope_of.
    apply Z.eqb_neq in Hcid. now rewrite Hcid.
  - now apply search_candidates_scoped.
  - exact Hres.
  - rewrite Hres, length_map, length_limit, length_order_by_asc.
    reflexivity.
Qed.

Lemma clamp_top_k_range (top_k : Z) :
  1 <= clamp_top_k top_k <= 100
  /\ (top_k < 1 -> clamp_top_k top_k = 1)
  /\ (100 < top_k -> clamp_top_k top_k = 100)
  /\ (1 <= top_k <= 100 -> clamp_top_k top_k = top_k).
Proof. unfold clamp_top_k. lia. Qed.

(** C5 (as amended): in the similarity search of the history store the
    number of rows asked for is [top_k] clamped into [1, 100]: below 1 it
    is 1, above 100 it is 100, and the search returns that many rows or
    all candidates when there are fewer. The query of a collection passes
    [top_k] to [LIMIT] as it is: a successful query has a [top_k] that is
    not negative and returns [top_k] rows or all rows of the collection
    when there are fewer. *)
Theorem top_k_clamped_in_history_search :
  (forall db query top_k conv_id res,
      similarity_search db query top_k conv_id = Ok res ->
      1 <= clamp_top_k top_k <= 100
      /\ (top_k < 1 -> clamp_top_k top_k = 1)
      /\ (100 < top_k -> clamp_top_k top_k = 100)
      /\ (1 <= top_k <= 100 -> clamp_top_k top_k = top_k)
      /\ length (search_results res)
         = Nat.min (Z.to_nat (clamp_top_k top_k))
             (length (search_candidates db conv_id)))
  /\ (forall store collection_name query_text top_k hits,
      query_collection store collection_name query_text top_k = Ok hits ->
      0 <= top_k
      /\ exists table,
          store !! table_name_of collection_name = Some table
          /\ length hits
             = Nat.min (Z.to_nat top_k) (length (table_rows table))).
Proof.
  split.
  - intros db query top_k conv_id res Hok.
    destruct (clamp_top_k_range top_k) as (Hr & Hlo & Hhi & Hid).
    split; [exact Hr|]. split; [exact Hlo|].
    split; [exact Hhi|]. split; [exact Hid|].
    rewrite (similarity_search_ok _ _ _ _ _ Hok).
    now rewrite length_map, length_limit, length_order_by_asc.
  - intros store collection_name query_text top_k hits Hok.
    destruct (query_collection_ok _ _ _ _ _ Hok)
      as (table & query & Htable & _ & Hk & ->).
    split; [exact Hk|]. exists table. split; [exact Htable|].
    now rewrite length_limit, length_order_by_desc, length_map.
Qed.

(** ** More on strings and on the chunks *)

Lemma lstrip_suffix (s : pystr) : exists pre, s = pre ++ lstrip s.
Proof.
  induction s as [|c s [pre IH]]; simpl.
  - now exists [].
  - destruct (isspace c).
    + exists (c :: pre). simpl. now f_equal.
    + now exists [].
Qed.

Lemma rstrip_prefix (s : pystr) : exists post, s = rstrip s ++ post.
Proof.
  unfold rstrip. destruct (lstrip_suffix (rev s)) as [pre Hpre].
  exists (rev pre).
  rewrite <- (rev_involutive s), Hpre at 1.
  now rewrite rev_app_distr.
Qed.

Lemma strip_infix (s : pystr) : exists pre post, s = pre ++ strip s ++ post.
Proof.
  unfold strip. destruct (lstrip_suffix s) as [pre Hpre].
  destruct (rstrip_prefix (lstrip s)) as [post Hpost].
  exists pre, post. now rewrite <- Hpost.
Qed.

Lemma length_strip (s : pystr) : (length (strip s) <= length s)%nat.
Proof.
  destruct (strip_infix s) as (pre & post & Hs).
  rewrite Hs at 2. rewrite !length_app. lia.
Qed.

Lemma strip_last (s : pystr) (x : pychar) :
  last (strip s) = Some x -> isspace x = false.
Proof.
  unfold strip, rstrip.
  destruct (lstrip (rev (lstrip s))) as [|c t] eqn:E; [discriminate|].
  simpl. rewrite last_snoc. intros [= <-].
  exact (lstrip_head _ _ _ E).
Qed.

Lemma ceil_div_zero b : 0 < b -> ceil_div 0 b = 0.
Proof. intros Hb. unfold ceil_div. apply Z.div_small. lia. Qed.

Lemma ceil_div_unfold x b :
  0 < b -> 0 < x -> ceil_div x b = 1 + ceil_div (Z.max 0 (x - b)) b.
Proof.
  intros Hb Hx. destruct (Z.le_gt_cases x b) as [Hle|Hgt].
  - rewrite Z.max_l by lia. rewrite ceil_div_zero by lia.
    pose proof (ceil_div_spec x b Hb). nia.
  - rewrite Z.max_r by lia. rewrite <- (ceil_div_step x b) by lia. lia.
Qed.

(** The windows of the loop: each starts inside the text and is
    [chunk_size] wide or ends with the text; their number. *)
Lemma chunk_loop_windows (cleaned : pystr) (cs ov : Z) :
  0 <= ov < cs ->
  forall (fuel : nat) start chunks ws,
    0 <= start ->
    (Z.to_nat (Z.of_nat (length cleaned) - start) < fuel)%nat ->
    exists more,
      chunk_loop fuel cleaned cs ov start chunks ws
      = Some (Chunking (chunks ++ emitted cleaned more) (ws ++ more))
      /\ Forall (fun w => 0 <= fst w < Z.of_nat (length cleaned)
                          /\ snd w = Z.min (Z.of_nat (length cleaned))
                                       (fst w + cs)) more
      /\ (start < Z.of_nat (length cleaned) ->
          Z.of_nat (length more)
          = 1 + ceil_div (Z.max 0 (Z.of_nat (length cleaned) - start - cs))
                  (cs - ov)).
Proof.
  intros Hov. set (len := Z.of_nat (length cleaned)).
  induction fuel as [|fuel IH]; intros start chunks ws Hs Hfuel; [lia|].
  cbn [chunk_loop]. fold len.
  destruct (Z.ltb_spec start len) as [Hlt|Hge].
  2:{ exists []. rewrite !app_nil_r. repeat split; [constructor | lia]. }
  set (e := Z.min len (start + cs)).
  rewrite (emitted_one cleaned chunks start e).
  destruct (Z.geb_spec e len) as [Hend|Hmore].
  - exists [(start, e)]. split; [reflexivity|]. split.
    + constructor; [cbn; lia | constructor].
    + intros _. cbn [length]. rewrite Z.max_l by lia.
      rewrite ceil_div_zero by lia. lia.
  - destruct (IH (e - ov) (chunks ++ emitted cleaned [(start, e)])
                (ws ++ [(start, e)])) as (more & Hrun & Hwin & Hcount);
      [lia | lia |].
    exists ((start, e) :: more). split.
    { rewrite Hrun.
      change ((start, e) :: more) with ([(start, e)] ++ more).
      rewrite (emitted_app cleaned [(start, e)] more).
      now rewrite !app_assoc. }
    split; [constructor; [cbn; lia | exact Hwin]|].
    intros _. specialize (Hcount ltac:(lia)).
    cbn [length]. rewrite Nat2Z.inj_succ, Hcount.
    rewrite (ceil_div_unfold (Z.max 0 (len - start - cs)) (cs - ov)) by lia.
    replace (len - (e - ov) - cs) with (len - start - cs - (cs - ov)) by lia.
    rewrite (Z.max_r 0 (len - start - cs)) by lia. lia.
Qed.

Lemma emitted_ok (cleaned : pystr) (cs : Z) (ws : list (Z * Z)) :
  Forall (fun w => 0 <= fst w < Z.of_nat (length cleaned)
                   /\ snd w = Z.min (Z.of_nat (length cleaned)) (fst w + cs))
    ws ->
  0 < cs ->
  Forall (chunk_ok cleaned cs) (emitted cleaned ws).
Proof.
  intros Hws Hcs. unfold emitted. apply List.Forall_forall. intros c Hc.
  apply List.filter_In in Hc as [Hc Hne].
  apply List.in_map_iff in Hc as ([s e] & <- & Hw).
  rewrite List.Forall_forall in Hws. destruct (Hws _ Hw) as [Hs He].
  unfold window_text in *. cbn [fst snd] in *.
  assert (Hslice : py_slice cleaned s e
                   = take (Z.to_nat (e - s)) (drop (Z.to_nat s) cleaned))
    by (apply py_slice_inside; lia).
  set (piece := py_slice cleaned s e) in *.
  assert (Hlen : Z.of_nat (length piece) <= cs).
  { rewrite Hslice, length_take. lia. }
  repeat split.
  - now destruct (strip piece).
  - pose proof (length_strip piece). lia.
  - destruct (strip_infix piece) as (pre & post & Hpiece).
    exists (take (Z.to_nat s) cleaned ++ pre),
           (post ++ drop (Z.to_nat (e - s)) (drop (Z.to_nat s) cleaned)).
    rewrite <- (take_drop (Z.to_nat s) cleaned) at 1.
    rewrite <- (take_drop (Z.to_nat (e - s)) (drop (Z.to_nat s) cleaned)) at 1.
    rewrite <- Hslice. rewrite Hpiece at 1. now rewrite <- !app_assoc.
  - intros x Hx. destruct (strip piece) as [|c t] eqn:E; [discriminate|].
    injection Hx as <-. exact (strip_head _ _ _ E).
  - apply strip_last.
Qed.

Lemma length_emitted (cleaned : pystr) (ws : list (Z * Z)) :
  (length (emitted cleaned ws) <= length ws)%nat.
Proof.
  unfold emitted.
  etransitivity; [apply List.filter_length_le|]. now rewrite length_map.
Qed.

Lemma chunk_text_windows (cleaned : pystr) (chunk_size overlap : Z)
    (fuel : nat) :
  (length cleaned < fuel)%nat ->
  exists ws,
    chunk_text fuel cleaned chunk_size overlap
    = Some (Chunking (emitted cleaned ws) ws)
    /\ Forall (chunk_ok cleaned (fst (chunk_params chunk_size overlap)))
         (emitted cleaned ws)
    /\ (cleaned <> [] ->
        Z.of_nat (length ws)
        = 1 + ceil_div
                (Z.max 0 (Z.of_nat (length cleaned)
                          - fst (chunk_params chunk_size overlap)))
                (fst (chunk_params chunk_size overlap)
                 - snd (chunk_params chunk_size overlap))).
Proof.
  intros Hfuel. unfold chunk_text.
  pose proof (chunk_params_valid chunk_size overlap) as Hv.
  destruct (chunk_params chunk_size overlap) as [cs ov]. cbn [fst snd] in *.
  destruct (chunk_loop_windows cleaned cs ov Hv fuel 0 [] [])
    as (ws & Hrun & Hwin & Hcount); [lia | lia |].
  exists ws. split; [exact Hrun|]. split; [apply emitted_ok; [exact Hwin | lia]|].
  intros Hne. rewrite Hcount; [now rewrite Z.sub_0_r|].
  destruct cleaned; [done | cbn; lia].
Qed.

(** X1: with more fuel than the cleaned text has characters the chunking
    returns, and every chunk it leaves is not empty, has at most the
    effective [chunk_size] characters, is a contiguous piece of the cleaned
    text and neither begins nor ends with white space; there are no more
    chunks than iterations. *)
Theorem chunks_are_trimmed_pieces
    (cleaned : pystr) (chunk_size overlap : Z) (fuel : nat) :
  (length cleaned < fuel)%nat ->
  exists r,
    chunk_text fuel cleaned chunk_size overlap = Some r
    /\ Forall (chunk_ok cleaned (fst (chunk_params chunk_size overlap)))
         (chunks_of r)
    /\ (length (chunks_of r) <= length (windows_of r))%nat.
Proof.
  intros Hfuel.
  destruct (chunk_text_windows cleaned chunk_size overlap fuel Hfuel)
    as (ws & Hrun & Hok & _).
  exists (Chunking (emitted cleaned ws) ws). cbn [chunks_of windows_of].
  split; [exact Hrun|]. split; [exact Hok | apply length_emitted].
Qed.

(** X2: for a cleaned text that is not empty the loop runs exactly
    [1 + ceil(max(0, length - chunk_size) / (chunk_size - overlap))]
    iterations, with the effective [chunk_size] and [overlap]. *)
Theorem chunking_iteration_count
    (cleaned : pystr) (chunk_size overlap : Z) (fuel : nat) :
  cleaned <> [] ->
  (length cleaned < fuel)%nat ->
  let cs := fst (chunk_params chunk_size overlap) in
  let ov := snd (chunk_params chunk_size overlap) in
  exists r,
    chunk_text fuel cleaned chunk_size overlap = Some r
    /\ Z.of_nat (length (windows_of r))
       = 1 + ceil_div (Z.max 0 (Z.of_nat (length cleaned) - cs)) (cs - ov).
Proof.
  intros Hne Hfuel cs ov.
  destruct (chunk_text_windows cleaned chunk_size overlap fuel Hfuel)
    as (ws & Hrun & _ & Hcount).
  exists (Chunking (emitted cleaned ws) ws). cbn [windows_of].
  split; [exact Hrun | now apply Hcount].
Qed.

(** ** Ids of the document store *)

Lemma table_wf_ids (rows1 rows2 : list Doc) (seq : Z) :
  List.map doc_id rows2 = List.map doc_id rows1 ->
  table_wf {| table_rows := rows1; table_seq := seq |} ->
  table_wf {| table_rows := rows2; table_seq := seq |}.
Proof.
  unfold table_wf. cbn. intros Hids [Hnd Hle]. rewrite Hids.
  split; [exact Hnd|].
  assert (H : Forall (fun i => i <= seq) (List.map doc_id rows1))
    by exact (proj2 (List.Forall_map doc_id (fun i => i <= seq) rows1) Hle).
  rewrite <- Hids in H.
  exact (proj1 (List.Forall_map doc_id (fun i => i <= seq) rows2) H).
Qed.

Lemma table_wf_filter (f : Doc -> bool) (rows : list Doc) (seq : Z) :
  table_wf {| table_rows := rows; table_seq := seq |} ->
  table_wf {| table_rows := List.filter f rows; table_seq := seq |}.
Proof.
  unfold table_wf. cbn. intros [Hnd Hle]. split.
  - clear Hle. induction rows as [|d rows IH]; cbn; [constructor|].
    cbn in Hnd. apply NoDup_cons in Hnd as [Hd Hnd].
    destruct (f d); [|now apply IH].
    cbn. apply NoDup_cons. split; [|now apply IH].
    intros Hin. apply Hd.
    apply list_elem_of_In, List.in_map_iff in Hin as (d' & Hid & Hd').
    apply List.filter_In in Hd' as [Hd' _].
    apply list_elem_of_In, List.in_map_iff. eauto.
  - apply List.Forall_forall. intros d Hd.
    apply List.filter_In in Hd as [Hd _].
    rewrite List.Forall_forall in Hle. auto.
Qed.

Lemma table_wf_insert (rows : list Doc) (seq : Z) (content : pystr)
    (embedding : vector) :
  table_wf {| table_rows := rows; table_seq := seq |} ->
  table_wf
    {| table_rows :=
         rows ++ [{| doc_id := seq + 1; doc_content := content;
                     doc_embedding := embedding |}];
       table_seq := seq + 1 |}.
Proof.
  unfold table_wf. cbn. intros [Hnd Hle]. split.
  - rewrite List.map_app. cbn. apply NoDup_app. split; [exact Hnd|].
    split; [|apply NoDup_singleton].
    intros i Hi Hnew. apply list_elem_of_singleton in Hnew as ->.
    apply list_elem_of_In, List.in_map_iff in Hi as (d & Hid & Hd).
    rewrite List.Forall_forall in Hle. specialize (Hle d Hd). lia.
  - apply Forall_app. split.
    + eapply List.Forall_impl; [|exact Hle]. cbn. intros d Hd. lia.
    + constructor; [cbn; lia | constructor].
Qed.

Lemma table_wf_seq (rows : list Doc) (seq seq' : Z) :
  seq <= seq' ->
  table_wf {| table_rows := rows; table_seq := seq |} ->
  table_wf {| table_rows := rows; table_seq := seq' |}.
Proof.
  unfold table_wf. cbn. intros Hseq [Hnd Hle]. split; [exact Hnd|].
  eapply List.Forall_impl; [|exact Hle]. cbn. intros d Hd. lia.
Qed.

Lemma store_wf_insert (store : Store) (name : pystr) (t : Table) :
  store_wf store -> table_wf t -> store_wf (<[name := t]> store).
Proof.
  intros Hstore Ht name' t'. rewrite lookup_insert.
  case_decide; [now intros [= <-] | apply Hstore].
Qed.

Lemma store_wf_delete (store : Store) (name : pystr) :
  store_wf store -> store_wf (delete name store).
Proof.
  intros Hstore name' t'. rewrite lookup_delete.
  case_decide; [discriminate | apply Hstore].
Qed.

(** The per-chunk loop draws consecutive values of the sequence, and keeps
    the ids of the working rows unique and behind the sequence. *)
Lemma insert_chunks_ids (chunks : list pystr) :
  forall rows seq inserted_ids,
    table_wf {| table_rows := rows; table_seq := seq |} ->
    match insert_chunks rows seq chunks inserted_ids with
    | (seq', Some (rows', ids')) =>
      table_wf {| table_rows := rows'; table_seq := seq' |}
      /\ ids' = inserted_ids ++ seqZ (seq + 1) (Z.of_nat (length chunks))
    | (seq', None) => seq <= seq'
    end.
Proof.
  induction chunks as [|ch rest IH]; intros rows seq inserted_ids Hwf.
  - cbn. now rewrite app_nil_r.
  - cbn [insert_chunks]. destruct (encode ch) as [emb|msg]; [|lia].
    destruct (insert_raises rows ch emb); [lia|].
    specialize (IH (rows ++ [{| doc_id := seq + 1; doc_content := ch;
                                doc_embedding := emb |}])
                  (seq + 1) (inserted_ids ++ [seq + 1])
                  (table_wf_insert _ _ _ _ Hwf)).
    destruct (insert_chunks _ _ rest _) as [seq' [[rows' ids']|]]; [|lia].
    destruct IH as [Hwf' ->]. split; [exact Hwf'|].
    rewrite <- app_assoc. f_equal. cbn [length].
    rewrite Nat2Z.inj_succ. rewrite (seqZ_cons (seq + 1)) by lia.
    cbn [app]. f_equal. f_equal; lia.
Qed.

(** X3: every handler that writes to the document store keeps, in every
    collection, the ids of the rows distinct and not ahead of the sequence
    of the collection. *)
Theorem handlers_keep_ids_unique (store : Store) :
  store_wf store ->
  (forall name content, store_wf (fst (add_document store name content)))
  /\ (forall name id content,
      store_wf (fst (update_document store name id content)))
  /\ (forall name id, store_wf (fst (delete_document store name id)))
  /\ (forall name, store_wf (fst (delete_collection store name)))
  /\ (forall metadata name,
      store_wf (snd (fst (create_collection metadata store name))))
  /\ (forall fuel name file chunk_size overlap result,
      ingest_file fuel store name file chunk_size overlap = Some result ->
      store_wf (fst result)).
Proof.
  intros Hstore. split; [|split; [|split; [|split; [|split]]]].
  - intros name content. unfold add_document.
    destruct (store !! table_name_of name) as [table|] eqn:Htable; [|done].
    destruct (encode content) as [emb|msg]; [|done].
    destruct (insert_raises _ _ _); [done|]. cbn [fst].
    apply store_wf_insert; [exact Hstore|].
    apply table_wf_insert. specialize (Hstore _ _ Htable). now destruct table.
  - intros name id content. unfold update_document.
    destruct (store !! table_name_of name) as [table|] eqn:Htable; [|done].
    destruct (encode content) as [emb|msg]; [|done].
    destruct (update_raises _ _ _ _); [done|].
    assert (Hwf : store_wf
              (<[table_name_of name :=
                   {| table_rows := update_rows id content emb (table_rows table);
                      table_seq := table_seq table |}]> store)).
    { apply store_wf_insert; [exact Hstore|].
      apply (table_wf_ids (table_rows table)); [apply update_rows_ids|].
      specialize (Hstore _ _ Htable). now destruct table. }
    destruct (List.filter (fun d => doc_id d =? id) (table_rows table));
      exact Hwf.
  - intros name id. unfold delete_document.
    destruct (store !! table_name_of name) as [table|] eqn:Htable; [|done].
    assert (Hwf : store_wf
              (<[table_name_of name :=
                   {| table_rows :=
                        List.filter (fun d => negb (doc_id d =? id))
                          (table_rows table);
                      table_seq := table_seq table |}]> store)).
    { apply store_wf_insert; [exact Hstore|]. apply table_wf_filter.
      specialize (Hstore _ _ Htable). now destruct table. }
    destruct (List.filter (fun d => doc_id d =? id) (table_rows table));
      exact Hwf.
  - intros name. unfold delete_collection.
    destruct (store !! table_name_of name); [|done].
    now apply store_wf_delete.
  - intros metadata name. unfold create_collection.
    case_bool_decide; [done|].
    destruct (store !! table_name_of name); [done|].
    destruct (create_table_error _); [done|]. cbn [fst snd].
    apply store_wf_insert; [exact Hstore|].
    split; cbn; constructor.
  - intros fuel name file chunk_size overlap result. unfold ingest_file.
    destruct (store !! table_name_of name) as [table|] eqn:Htable;
      [|now intros [= <-]].
    destruct (read_upload file _); [|now intros [= <-]].
    destruct (nonempty _); [|now intros [= <-]].
    destruct (chunk_text _ _ _ _) as [ch|]; [|discriminate].
    intros [= <-]. unfold persist_chunks.
    destruct (chunks_of ch) as [|c rest]; [done|].
    assert (Hwf : table_wf {| table_rows := table_rows table;
                              table_seq := table_seq table |})
      by (specialize (Hstore _ _ Htable); now destruct table).
    pose proof (insert_chunks_ids (c :: rest) _ _ [] Hwf) as Hloop.
    destruct (insert_chunks _ _ (c :: rest) []) as [seq' [[rows' ids']|]];
      cbn [fst]; apply store_wf_insert; try exact Hstore.
    + apply Hloop.
    + now apply (table_wf_seq _ (table_seq table)).
Qed.

(** ** Reading back what was written *)

Lemma filter_id_none (id : Z) (rows : list Doc) :
  ~ In id (List.map doc_id rows) ->
  List.filter (fun d => doc_id d =? id) rows = [].
Proof.
  intros Hid. apply filter_nil_iff, List.Forall_forall. intros d Hd.
  apply Z.eqb_neq. intros <-. apply Hid, List.in_map, Hd.
Qed.

Lemma filter_id_unique (rows : list Doc) :
  forall (k : nat) (d : Doc),
    NoDup (List.map doc_id rows) ->
    rows !! k = Some d ->
    List.filter (fun x => doc_id x =? doc_id d) rows = [d].
Proof.
  induction rows as [|x rest IH]; intros k d Hnd Hk; [discriminate|].
  cbn in Hnd. apply NoDup_cons in Hnd as [Hx Hnd].
  rewrite list_elem_of_In in Hx. destruct k as [|k]; cbn in Hk.
  - injection Hk as ->. cbn. rewrite Z.eqb_refl.
    now rewrite filter_id_none.
  - cbn. destruct (Z.eqb_spec (doc_id x) (doc_id d)) as [Heq|_].
    + exfalso. apply Hx. rewrite Heq. apply List.in_map.
      apply list_elem_of_In, list_elem_of_lookup. eauto.
    + now apply (IH k).
Qed.

Lemma get_document_ok (store : Store) (name : pystr) (id : Z) (v : DocView) :
  get_document store name id = Ok v ->
  exists table d rest,
    store !! table_name_of name = Some table
    /\ List.filter (fun x => doc_id x =? id) (table_rows table) = d :: rest
    /\ v = doc_view d
    /\ doc_id d = id
    /\ In d (table_rows table).
Proof.
  unfold get_document.
  destruct (store !! table_name_of name) as [table|]; [|discriminate].
  destruct (List.filter _ _) as [|d rest] eqn:Hf; [discriminate|].
  intros [= <-]. exists table, d, rest.
  assert (Hd : In d (List.filter (fun x => doc_id x =? id) (table_rows table)))
    by (rewrite Hf; now left).
  apply List.filter_In in Hd as [Hd Hid]. apply Z.eqb_eq in Hid. auto.
Qed.

(** X4: in a store whose ids are well formed, a document that
    [add_document] accepted is read back by [get_document] under the id of
    the receipt with the content that was sent; every document that could
    be read before has a smaller id and reads as before; no other
    collection changes. *)
Theorem add_document_then_get
    (store store' : Store) (name content : pystr) (r : Receipt) :
  store_wf store ->
  add_document store name content = (store', Ok r) ->
  get_document store' name (receipt_id r)
  = Ok {| docview_id := receipt_id r; docview_content := content |}
  /\ (forall id v,
      get_document store name id = Ok v ->
      id < receipt_id r /\ get_document store' name id = Ok v)
  /\ (forall other,
      other <> table_name_of name -> store' !! other = store !! other).
Proof.
  intros Hstore. unfold add_document.
  destruct (store !! table_name_of name) as [table|] eqn:Htable;
    [|discriminate].
  destruct (encode content) as [emb|msg]; [|discriminate].
  destruct (insert_raises _ _ _); [discriminate|].
  intros [= <- <-]. cbn [receipt_id].
  destruct (Hstore _ _ Htable) as [_ Hle].
  rewrite List.Forall_forall in Hle.
  assert (Hold : forall id,
            id <> table_seq table + 1 ->
            List.filter (fun x => doc_id x =? id)
              (table_rows table
               ++ [{| doc_id := table_seq table + 1; doc_content := content;
                      doc_embedding := emb |}])
            = List.filter (fun x => doc_id x =? id) (table_rows table)).
  { intros id Hid. rewrite List.filter_app. cbn.
    apply Z.eqb_neq in Hid. rewrite Z.eqb_sym, Hid. apply app_nil_r. }
  split; [|split].
  - unfold get_document. rewrite lookup_insert_eq. cbn [table_rows].
    rewrite List.filter_app, filter_id_none.
    + cbn. now rewrite Z.eqb_refl.
    + intros Hin. apply List.in_map_iff in Hin as (d & Hid & Hd).
      specialize (Hle d Hd). lia.
  - intros id v Hget.
    destruct (get_document_ok _ _ _ _ Hget)
      as (table' & d & rest & Htable' & Hf & -> & Hid & Hd).
    rewrite Htable in Htable'. injection Htable' as <-.
    specialize (Hle d Hd). split; [lia|].
    unfold get_document. rewrite lookup_insert_eq. cbn [table_rows].
    rewrite Hold by lia. now rewrite Hf.
  - intros other Hother. now rewrite lookup_insert_ne.
Qed.

Lemma update_rows_filter (id : Z) (content : pystr) (emb : vector)
    (rows : list Doc) :
  List.filter (fun x => doc_id x =? id) (update_rows id content emb rows)
  = List.map (fun x => {| doc_id := doc_id x; doc_content := content;
                          doc_embedding := emb |})
      (List.filter (fun x => doc_id x =? id) rows).
Proof.
  unfold update_rows. induction rows as [|x l IH]; [reflexivity|].
  cbn. destruct (doc_id x =? id) eqn:Hx; cbn; rewrite Hx; cbn;
    now rewrite IH.
Qed.

(** X5: a document that [update_document] accepted is read back by
    [get_document] under the same id with the new content. *)
Theorem update_document_then_get
    (store store' : Store) (name : pystr) (id : Z) (content : pystr)
    (r : Updated) :
  update_document store name id content = (store', Ok r) ->
  updated_id r = id
  /\ get_document store' name id
     = Ok {| docview_id := id; docview_content := content |}.
Proof.
  unfold update_document.
  destruct (store !! table_name_of name) as [table|]; [|discriminate].
  destruct (encode content) as [emb|msg]; [|discriminate].
  destruct (update_raises _ _ _ _); [discriminate|].
  destruct (List.filter (fun d => doc_id d =? id) (table_rows table))
    as [|d rest] eqn:Hf; [discriminate|].
  intros [= <- <-]. cbn [updated_id].
  assert (Hd : In d (List.filter (fun x => doc_id x =? id) (table_rows table)))
    by (rewrite Hf; now left).
  apply List.filter_In in Hd as [Hd Hid]. apply Z.eqb_eq in Hid.
  split; [exact Hid|].
  unfold get_document. rewrite lookup_insert_eq. cbn [table_rows].
  rewrite update_rows_filter, Hf. cbn. unfold doc_view. cbn. now rewrite Hid.
Qed.


(** ** Pages of ordered rows *)

Lemma drop_sorted {A : Type} (R : relation A) (n : nat) (rows : list A) :
  StronglySorted R rows -> StronglySorted R (drop n rows).
Proof.
  intros Hs. rewrite <- (take_drop n rows) in Hs.
  now apply StronglySorted_app_1_r in Hs.
Qed.

Lemma drop_subset {A : Type} (n : nat) (rows : list A) (x : A) :
  x ∈ drop n rows -> x ∈ rows.
Proof.
  intros Hx. rewrite <- (take_drop n rows). apply elem_of_app. now right.
Qed.

Lemma page_subset {A : Type} (size offset : Z) (rows : list A) (x : A) :
  x ∈ limit size (drop (Z.to_nat offset) rows) -> x ∈ rows.
Proof. intros Hx. eapply drop_subset, limit_subset, Hx. Qed.






(** ** Collections *)

(** X8: [create_collection] refuses with 400 a name that is in the
    metadata of the process or that has a table, and changes nothing; for
    a fresh name on which [create_all] does not raise it registers the name
    and adds an empty table and touches no other table, the first document
    added to the new collection gets id 1, and creating the same name
    again is refused. *)
Theorem create_collection_once
    (metadata : gset pystr) (store : Store) (name : pystr) :
  let table_name := table_name_of name in
  let refused :=
    HttpError 400 (py "Collection '" ++ table_name ++ py "' already exists.") in
  let created :=
    <[table_name := {| table_rows := []; table_seq := 0 |}]> store in
  (table_name ∈ metadata \/ is_Some (store !! table_name) ->
   create_collection metadata store name = (metadata, store, refused))
  /\ (table_name ∉ metadata ->
      store !! table_name = None ->
      create_table_error table_name = None ->
      create_collection metadata store name
      = ({[table_name]} ∪ metadata, created,
         Ok (py "Collection '" ++ table_name ++ py "' created successfully."))
      /\ (forall other, other <> table_name ->
          created !! other = store !! other)
      /\ (forall content store' r,
          add_document created name content = (store', Ok r) ->
          receipt_id r = 1)
      /\ create_collection ({[table_name]} ∪ metadata) created name
         = ({[table_name]} ∪ metadata, created, refused)).
Proof.
  intros table_name refused created. split.
  - intros Hexists. unfold create_collection. fold table_name.
    case_bool_decide; [reflexivity|].
    destruct Hexists as [Hmeta|[t Ht]]; [done|]. now rewrite Ht.
  - intros Hmeta Hstore Hddl. split; [|split; [|split]].
    + unfold create_collection. fold table_name.
      case_bool_decide; [done|]. now rewrite Hstore, Hddl.
    + intros other Hother. subst created. now rewrite lookup_insert_ne.
    + intros content store' r. unfold add_document. fold table_name.
      subst created. rewrite lookup_insert_eq. cbn [table_rows table_seq].
      destruct (encode content); [|discriminate].
      destruct (insert_raises _ _ _); [discriminate|].
      now intros [= _ <-].
    + unfold create_collection. fold table_name.
      case_bool_decide as Hin; [reflexivity|].
      exfalso. apply Hin, elem_of_union. left. now apply elem_of_singleton.
Qed.



(** ** Ingestion, read back *)

Lemma ingest_file_ok (fuel : nat) (store store' : Store) (name : pystr)
    (file : UploadFile) (chunk_size overlap : Z) (body : Ingested) :
  ingest_file fuel store name file chunk_size overlap = Some (store', Ok body) ->
  exists table text_data r rows ids seq',
    store !! table_name_of name = Some table
    /\ read_upload file
         match upload_filename file with
         | Some (c :: rest) => c :: rest
         | _ => py "uploaded"
         end = Ok text_data
    /\ chunk_text fuel (clean text_data) chunk_size overlap = Some r
    /\ chunks_of r <> []
    /\ insert_chunks (table_rows table) (table_seq table) (chunks_of r) []
       = (seq', Some (rows, ids))
    /\ store'
       = <[table_name_of name := {| table_rows := rows; table_seq := seq' |}]>
           store
    /\ ingested_chunks body = Z.of_nat (length (chunks_of r))
    /\ ingested_inserted body = Z.of_nat (length ids)
    /\ ingested_ids body = ids.
Proof.
  unfold ingest_file.
  destruct (store !! table_name_of name) as [table|]; [|discriminate].
  destruct (read_upload file _) as [text_data|] eqn:Hread; [|discriminate].
  destruct (nonempty _); [|discriminate].
  destruct (chunk_text _ _ _ _) as [r|] eqn:Hr; [|discriminate].
  unfold persist_chunks.
  destruct (chunks_of r) as [|c rest] eqn:Hchunks; [discriminate|].
  destruct (insert_chunks _ _ (c :: rest) []) as [seq' [[rows ids]|]] eqn:Hloop;
    [|discriminate].
  intros [= <- <-]. exists table, text_data, r, rows, ids, seq'.
  rewrite Hchunks. repeat split; auto.
Qed.

(** X11: in a store whose ids are well formed, a successful [ingest_file]
    reports as many chunks as the chunking of the cleaned text of the upload
    left and as many inserted rows, with the next values of the sequence of
    the collection as ids, in order; [get_document] reads the k-th chunk
    back under the k-th id, and every document that could be read before
    reads as before. *)
Theorem ingest_file_then_get
    (fuel : nat) (store store' : Store) (name : pystr) (file : UploadFile)
    (chunk_size overlap : Z) (body : Ingested) :
  store_wf store ->
  ingest_file fuel store name file chunk_size overlap = Some (store', Ok body) ->
  exists table text_data r,
    store !! table_name_of name = Some table
    /\ read_upload file
         match upload_filename file with
         | Some (c :: rest) => c :: rest
         | _ => py "uploaded"
         end = Ok text_data
    /\ chunk_text fuel (clean text_data) chunk_size overlap = Some r
    /\ chunks_of r <> []
    /\ ingested_chunks body = Z.of_nat (length (chunks_of r))
    /\ ingested_inserted body = Z.of_nat (length (chunks_of r))
    /\ ingested_ids body
       = seqZ (table_seq table + 1) (Z.of_nat (length (chunks_of r)))
    /\ (forall (k : nat) chunk,
        chunks_of r !! k = Some chunk ->
        get_document store' name (table_seq table + 1 + Z.of_nat k)
        = Ok {| docview_id := table_seq table + 1 + Z.of_nat k;
                docview_content := chunk |})
    /\ (forall id v,
        get_document store name id = Ok v ->
        get_document store' name id = Ok v).
Proof.
  intros Hstore Hok.
  destruct (ingest_file_ok _ _ _ _ _ _ _ _ Hok)
    as (table & text_data & r & rows & ids & seq'
        & Htable & Hread & Hr & Hne & Hloop & -> & Hchunks & Hinserted & Hids).
  assert (Hwf : table_wf {| table_rows := table_rows table;
                            table_seq := table_seq table |})
    by (specialize (Hstore _ _ Htable); now destruct table).
  pose proof (insert_chunks_ids (chunks_of r) _ _ [] Hwf) as Hseq.
  pose proof (insert_chunks_spec (chunks_of r) (table_rows table)
                (table_seq table) []) as Hspec.
  rewrite Hloop in Hseq, Hspec.
  destruct Hseq as [[Hnd _] Hids']. cbn [app table_rows] in Hids', Hnd.
  destruct Hspec as (new_rows & -> & Hnew_ids & Hcontent & _).
  cbn [app] in Hnew_ids.
  exists table, text_data, r.
  split; [exact Htable|]. split; [exact Hread|].
  split; [exact Hr|]. split; [exact Hne|].
  split; [exact Hchunks|].
  assert (Hlen : length ids = length (chunks_of r)).
  { rewrite Hnew_ids, length_map, <- Hcontent, length_map. reflexivity. }
  split; [now rewrite Hinserted, Hlen|].
  split; [now rewrite Hids|].
  split.
  - intros k chunk Hk.
    assert (Hrow : exists d, new_rows !! k = Some d /\ doc_content d = chunk).
    { rewrite <- Hcontent in Hk.
      change (List.map doc_content new_rows) with (doc_content <$> new_rows)
        in Hk.
      rewrite list_lookup_fmap in Hk.
      destruct (new_rows !! k) as [d|]; [|discriminate].
      injection Hk as Hk. eauto. }
    destruct Hrow as (d & Hd & Hdc).
    assert (Hid : doc_id d = table_seq table + 1 + Z.of_nat k).
    { assert (Hi : ids !! k = Some (doc_id d)).
      { rewrite Hnew_ids.
        change (List.map doc_id new_rows) with (doc_id <$> new_rows).
        now rewrite list_lookup_fmap, Hd. }
      rewrite Hids' in Hi. apply lookup_seqZ in Hi as [Hi _]. exact Hi. }
    unfold get_document. rewrite lookup_insert_eq. cbn [table_rows].
    rewrite <- Hid.
    rewrite (filter_id_unique _ (length (table_rows table) + k) d Hnd).
    + unfold doc_view. now rewrite Hdc.
    + rewrite lookup_app_r by lia.
      now replace (length (table_rows table) + k - length (table_rows table))%nat
        with k by lia.
  - intros id v Hget.
    destruct (get_document_ok _ _ _ _ Hget)
      as (table' & d & rest & Htable' & Hf & -> & Hid & Hd).
    rewrite Htable in Htable'. injection Htable' as <-.
    unfold get_document. rewrite lookup_insert_eq. cbn [table_rows].
    now rewrite List.filter_app, Hf.
Qed.

(** X12: a request to the document store that is answered with an error
    changes no row: after a failed [add_document], [update_document],
    [delete_document], [delete_collection] or [create_collection] the
    store is the one before the request, and after a failed [ingest_file]
    every table has the rows it had. *)
Theorem failed_requests_change_no_row (store store' : Store) (name : pystr)
    (status : Z) (detail : pystr) :
  (forall content,
      add_document store name content = (store', HttpError status detail) ->
      store' = store)
  /\ (forall id content,
      update_document store name id content
      = (store', HttpError status detail) ->
      store' = store)
  /\ (forall id,
      delete_document store name id = (store', HttpError status detail) ->
      store' = store)
  /\ (delete_collection store name = (store', HttpError status detail) ->
      store' = store)
  /\ (forall metadata metadata',
      create_collection metadata store name
      = (metadata', store', HttpError status detail) ->
      store' = store)
  /\ (forall fuel file chunk_size overlap,
      ingest_file fuel store name file chunk_size overlap
      = Some (store', HttpError status detail) ->
      forall other,
        table_rows <$> (store' !! other) = table_rows <$> (store !! other)).
Proof.
  split; [|split; [|split; [|split; [|split]]]].
  - intros content. unfold add_document.
    destruct (store !! table_name_of name); [|now intros [= <-]].
    destruct (encode content); [|now intros [= <-]].
    destruct (insert_raises _ _ _); [now intros [= <-] | discriminate].
  - intros id content. unfold update_document.
    destruct (store !! table_name_of name) as [table|] eqn:Htable;
      [|now intros [= <-]].
    destruct (encode content) as [emb|]; [|now intros [= <-]].
    destruct (update_raises _ _ _ _); [now intros [= <-]|].
    destruct (List.filter (fun d => doc_id d =? id) (table_rows table))
      eqn:Hf; [|discriminate].
    intros [= <- _ _]. apply insert_id. rewrite Htable.
    rewrite update_rows_absent; [now destruct table|].
    apply filter_nil_iff in Hf.
    eapply List.Forall_impl; [|exact Hf]. intros d Hd. now apply Z.eqb_neq.
  - intros id. unfold delete_document.
    destruct (store !! table_name_of name) as [table|] eqn:Htable;
      [|now intros [= <-]].
    destruct (List.filter (fun d => doc_id d =? id) (table_rows table))
      eqn:Hf; [|discriminate].
    intros [= <- _ _]. apply insert_id. rewrite Htable.
    rewrite filter_all; [now destruct table|].
    apply filter_nil_iff in Hf.
    eapply List.Forall_impl; [|exact Hf]. cbn. intros d Hd. now rewrite Hd.
  - unfold delete_collection.
    destruct (store !! table_name_of name); [discriminate | now intros [= <-]].
  - intros metadata metadata'. unfold create_collection.
    case_bool_decide; [now intros [= _ <-]|].
    destruct (store !! table_name_of name); [now intros [= _ <-]|].
    destruct (create_table_error _); [now intros [= _ <-] | discriminate].
  - intros fuel file chunk_size overlap. apply ingest_file_error_keeps_rows.
Qed.

(** ** Pages of the history store *)

Lemma order_by_created_at_sorted (rows : list Message) :
  StronglySorted (fun a b => msg_created_at a <= msg_created_at b)
    (order_by_created_at rows).
Proof.
  assert (Transitive (fun a b : Message => msg_created_at a <= msg_created_at b))
    by (intros x y z; lia).
  assert (Total (fun a b : Message => msg_created_at a <= msg_created_at b))
    by (intros x y; lia).
  unfold order_by_created_at. now apply StronglySorted_merge_sort.
Qed.

Lemma order_by_created_at_perm (rows : list Message) :
  order_by_created_at rows ≡ₚ rows.
Proof. apply merge_sort_Permutation. Qed.

Lemma order_by_created_at_desc_sorted (rows : list Conversation) :
  StronglySorted (fun a b => conv_created_at b <= conv_created_at a)
    (order_by_created_at_desc rows).
Proof.
  assert (Transitive
            (fun a b : Conversation => conv_created_at b <= conv_created_at a))
    by (intros x y z; lia).
  assert (Total
            (fun a b : Conversation => conv_created_at b <= conv_created_at a))
    by (intros x y; lia).
  unfold order_by_created_at_desc. now apply StronglySorted_merge_sort.
Qed.

Lemma order_by_created_at_desc_perm (rows : list Conversation) :
  order_by_created_at_desc rows ≡ₚ rows.
Proof. apply merge_sort_Permutation. Qed.

Lemma parse_pagination_range (page_size_arg page_arg : arg) :
  1 <= fst (parse_pagination page_size_arg page_arg) <= 200
  /\ 0 <= snd (parse_pagination page_size_arg page_arg).
Proof.
  unfold parse_pagination.
  destruct page_size_arg, page_arg; cbn [fst snd]; split; nia.
Qed.

(** X13: [parse_pagination] always yields a page size between 1 and 200
    and an offset that is a non-negative multiple of it; for two integers
    the size is the requested one clamped and the page that the handlers
    echo, [offset // page_size + 1], is the requested page or 1 when that
    is below 1; a parameter that is not an integer resets both to the
    defaults 20 and 1, also the one that was an integer. *)
Theorem parse_pagination_bounds (page_size_arg page_arg : arg) :
  let page_size := fst (parse_pagination page_size_arg page_arg) in
  let offset := snd (parse_pagination page_size_arg page_arg) in
  1 <= page_size <= 200
  /\ 0 <= offset
  /\ offset mod page_size = 0
  /\ (forall s p,
      page_size_arg = IntArg s -> page_arg = IntArg p ->
      page_size = Z.max 1 (Z.min s 200)
      /\ offset / page_size + 1 = Z.max 1 p)
  /\ (page_size_arg = Malformed \/ page_arg = Malformed ->
      page_size = 20 /\ offset = 0).
Proof.
  unfold parse_pagination.
  set (raw := match page_size_arg, page_arg with
              | Malformed, _ | _, Malformed => (20, 1)
              | Absent, Absent => (20, 1)
              | Absent, IntArg p => (20, p)
              | IntArg s, Absent => (s, 1)
              | IntArg s, IntArg p => (s, p)
              end).
  destruct raw as [s0 p0] eqn:Hraw. cbn [fst snd].
  set (page_size := Z.max 1 (Z.min s0 200)).
  assert (Hsize : 1 <= page_size <= 200) by (subst page_size; lia).
  split; [exact Hsize|]. split; [nia|].
  split; [apply Z.mod_mul; lia|].
  split.
  - intros s p -> ->. subst raw. injection Hraw as <- <-.
    split; [reflexivity|]. rewrite Z.div_mul by lia. lia.
  - intros Hbad. subst raw.
    assert (Hdef : (s0, p0) = (20, 1)).
    { destruct Hbad as [-> | ->]; [now rewrite <- Hraw|].
      rewrite <- Hraw. now destruct page_size_arg. }
    injection Hdef as -> ->. subst page_size. split; reflexivity.
Qed.

(** X14: for a conversation that has messages [get_conversation_details]
    answers with a page whose total is the number of messages of the
    conversation; the messages of the page are messages of that
    conversation from the store, by non-decreasing [created_at], at most
    [page_size] of them, and they carry an embedding field exactly when
    embeddings were asked for. *)
Theorem conversation_details_page
    (db : HistoryDb) (cid : Z) (include_embeddings : bool)
    (page_size_arg page_arg : arg) :
  message_count db cid <> 0 ->
  exists page,
    get_conversation_details db cid include_embeddings page_size_arg page_arg
    = Ok page
    /\ page_conversation_id page = cid
    /\ page_total page = message_count db cid
    /\ page_size_of page = fst (parse_pagination page_size_arg page_arg)
    /\ Z.of_nat (length (page_messages page)) <= page_size_of page
    /\ Forall (fun v =>
                 view_conversation_id v = cid
                 /\ (is_Some (view_embedding v) <-> include_embeddings = true)
                 /\ exists m, In m (chat_messages db)
                              /\ v = message_view include_embeddings m)
         (page_messages page)
    /\ StronglySorted (fun a b => view_created_at a <= view_created_at b)
         (page_messages page).
Proof.
  intros Hcount. unfold get_conversation_details.
  pose proof (parse_pagination_range page_size_arg page_arg)
    as (Hsize & Hoffset).
  destruct (parse_pagination page_size_arg page_arg) as [page_size offset].
  cbn [fst snd] in *. fold (message_count db cid).
  destruct (Z.eqb_spec (message_count db cid) 0) as [|_]; [done|].
  eexists. split; [reflexivity|]. cbn.
  split; [reflexivity|]. split; [reflexivity|]. split; [reflexivity|].
  split; [rewrite length_map, length_limit; lia|].
  split.
  - apply List.Forall_forall. intros v Hv.
    apply List.in_map_iff in Hv as (m & <- & Hm).
    apply list_elem_of_In, page_subset in Hm.
    rewrite order_by_created_at_perm in Hm.
    apply list_elem_of_In, List.filter_In in Hm as [Hm Hcid].
    apply Z.eqb_eq in Hcid. cbn. split; [exact Hcid|].
    split; [|eauto].
    destruct include_embeddings; cbn.
    + split; [reflexivity | intros _; eauto].
    + split; [intros [? ?] | intros ?]; discriminate.
  - apply (StronglySorted_fmap _
             (fun a b => msg_created_at a <= msg_created_at b)); [auto|].
    apply limit_sorted, drop_sorted, order_by_created_at_sorted.
Qed.

Lemma pages_concat {A : Type} (size : nat) (rows : list A) (n : nat) :
  concat (List.map (fun q => take size (drop (q * size) rows)) (seq 0 n))
  = take (n * size) rows.
Proof.
  induction n as [|n IH]; [reflexivity|].
  rewrite seq_S, List.map_app, concat_app, IH. cbn [List.map concat].
  rewrite app_nil_r, take_take_drop. f_equal. lia.
Qed.

Lemma NoDup_fmap_eq {A B : Type} (f : A -> B) (l : list A) (x y : A) :
  NoDup (f <$> l) -> x ∈ l -> y ∈ l -> f x = f y -> x = y.
Proof.
  induction l as [|a l IH]; intros Hnd Hx Hy Hxy; [inversion Hx|].
  cbn in Hnd. apply NoDup_cons in Hnd as [Hfresh Hnd].
  apply elem_of_cons in Hx as [->|Hx]; apply elem_of_cons in Hy as [->|Hy].
  - reflexivity.
  - exfalso. apply Hfresh. rewrite Hxy. apply list_elem_of_fmap. eauto.
  - exfalso. apply Hfresh. rewrite <- Hxy. apply list_elem_of_fmap. eauto.
  - now apply IH.
Qed.

(** With keys that are all different, [ORDER BY key] leaves the engine no
    choice: two sorted arrangements of the same rows are equal. *)
Lemma sorted_by_distinct_keys_unique {A : Type} (key : A -> Z)
    (l1 l2 : list A) :
  NoDup (key <$> l1) ->
  StronglySorted (fun a b => key a <= key b) l1 ->
  StronglySorted (fun a b => key a <= key b) l2 ->
  l1 ≡ₚ l2 ->
  l1 = l2.
Proof.
  intros Hnd Hs1 Hs2 Hperm.
  apply (StronglySorted_unique_strong (fun a b => key a <= key b));
    [|exact Hs1 | exact Hs2 | exact Hperm].
  intros x1 x2 Hx1 Hx2 H12 H21.
  apply (NoDup_fmap_eq key l1); [exact Hnd | exact Hx1 | | lia].
  now rewrite Hperm.
Qed.

(** X15: when no two messages of the conversation have the same
    [created_at], so that [ORDER BY created_at] leaves no choice to the
    engine, the pages 1 to [n] of [get_conversation_details], read one
    after the other with the same page size between 1 and 200, are the
    first [n * page_size] messages of the conversation in the order of
    [created_at], whichever sorted arrangement [all] of the messages of the
    conversation is taken: no message is skipped or repeated, and once
    [n * page_size] reaches the total they are all the messages of the
    conversation. *)
Theorem paging_visits_every_message
    (db : HistoryDb) (cid page_size : Z) (n : nat) (all : list Message) :
  message_count db cid <> 0 ->
  1 <= page_size <= 200 ->
  NoDup (msg_created_at
           <$> List.filter (fun m => msg_conversation_id m =? cid)
                 (chat_messages db)) ->
  StronglySorted (fun a b => msg_created_at a <= msg_created_at b) all ->
  all ≡ₚ List.filter (fun m => msg_conversation_id m =? cid)
           (chat_messages db) ->
  let pages :=
    concat
      (List.map
         (fun p =>
            page_messages_of
              (get_conversation_details db cid false (IntArg page_size)
                 (IntArg (Z.of_nat p))))
         (seq 1 n)) in
  pages = List.map (message_view false) (take (n * Z.to_nat page_size) all)
  /\ (message_count db cid <= Z.of_nat n * page_size ->
      pages = List.map (message_view false) all).
Proof.
  intros Hcount Hsize Hnd Hsorted Hperm pages.
  assert (Hall : order_by_created_at
                   (List.filter (fun m => msg_conversation_id m =? cid)
                      (chat_messages db)) = all).
  { apply (sorted_by_distinct_keys_unique msg_created_at).
    - change (msg_created_at <$> ?l) with (List.map msg_created_at l).
      rewrite (Permutation_map msg_created_at (order_by_created_at_perm _)).
      exact Hnd.
    - apply order_by_created_at_sorted.
    - exact Hsorted.
    - rewrite order_by_created_at_perm. now symmetry. }
  assert (Hpages : pages
                   = List.map (message_view false)
                       (take (n * Z.to_nat page_size) all)).
  { subst pages.
    rewrite <- (pages_concat (Z.to_nat page_size) all n).
    rewrite <- fmap_S_seq.
    change (S <$> seq 0 n) with (List.map S (seq 0 n)).
    rewrite List.map_map, concat_map, List.map_map. f_equal.
    apply List.map_ext. intros q.
    unfold get_conversation_details, parse_pagination.
    fold (message_count db cid).
    destruct (Z.eqb_spec (message_count db cid) 0) as [|_]; [done|].
    cbn [page_messages_of page_messages]. unfold limit. rewrite Hall.
    rewrite !Z.max_r, !Z.min_l by lia. do 3 f_equal. nia. }
  split; [exact Hpages|].
  intros Hreach. rewrite Hpages. f_equal. apply take_ge.
  rewrite (Permutation_length Hperm).
  unfold message_count in Hreach. nia.
Qed.

(** X16: [get_conversations] answers with the number of conversations as
    total and with at most [page_size] conversations of the store, by
    non-increasing [created_at]; each carries the number of messages of
    its conversation when counts are asked for and none otherwise, and
    [has_next] tells whether conversations are left behind the page. *)
Theorem conversations_page
    (db : HistoryDb) (include_counts : bool) (page_size_arg page_arg : arg) :
  exists page,
    get_conversations db include_counts page_size_arg page_arg = Ok page
    /\ clist_total page = Z.of_nat (length (conversations db))
    /\ Z.of_nat (length (clist_conversations page)) <= clist_page_size page
    /\ Forall (fun v =>
                 exists c,
                   In c (conversations db)
                   /\ cview_id v = conv_id c
                   /\ cview_title v = conv_title c
                   /\ cview_message_count v
                      = if include_counts
                        then Some (message_count db (conv_id c)) else None)
         (clist_conversations page)
    /\ StronglySorted (fun a b => cview_created_at b <= cview_created_at a)
         (clist_conversations page)
    /\ (clist_has_next page = true <->
        snd (parse_pagination page_size_arg page_arg) + clist_page_size page
        < clist_total page).
Proof.
  unfold get_conversations.
  pose proof (parse_pagination_range page_size_arg page_arg)
    as (Hsize & Hoffset).
  destruct (parse_pagination page_size_arg page_arg) as [page_size offset].
  cbn [fst snd] in *.
  eexists. split; [reflexivity|]. cbn.
  split; [reflexivity|].
  split; [rewrite length_map, length_limit; lia|].
  split; [|split].
  - apply List.Forall_forall. intros v Hv.
    apply List.in_map_iff in Hv as (c & <- & Hc).
    apply list_elem_of_In, page_subset in Hc.
    rewrite order_by_created_at_desc_perm in Hc.
    exists c. split; [now apply list_elem_of_In | auto].
  - apply (StronglySorted_fmap _
             (fun a b => conv_created_at b <= conv_created_at a)); [auto|].
    apply limit_sorted, drop_sorted, order_by_created_at_desc_sorted.
  - apply Z.ltb_lt.
Qed.

(** ** Existence of a conversation *)

Lemma has_conversation_filter (db : HistoryDb) (cid : Z) :
  has_conversation db cid = false
  <-> List.filter (fun c => conv_id c =? cid) (conversations db) = [].
Proof.
  unfold has_conversation.
  induction (conversations db) as [|c l IH]; cbn; [split; reflexivity|].
  destruct (conv_id c =? cid); cbn; [split; discriminate | exact IH].
Qed.

Lemma message_count_zero (db : HistoryDb) (cid : Z) :
  message_count db cid = 0
  <-> List.filter (fun m => msg_conversation_id m =? cid) (chat_messages db)
      = [].
Proof.
  unfold message_count.
  destruct (List.filter _ _); cbn; split; (reflexivity || discriminate || lia).
Qed.

(** X17: [export_conversation] decides existence on the [conversations]
    table: without a row of the id it answers 404, with one it returns
    that row and all messages of the conversation, each exactly once,
    by non-decreasing [created_at] and without embeddings. *)
Theorem export_contains_whole_conversation (db : HistoryDb) (cid : Z) :
  (has_conversation db cid = false ->
   export_conversation db cid = json_error "Conversation not found" 404)
  /\ (has_conversation db cid = true ->
      exists e,
        export_conversation db cid = Ok e
        /\ conv_id (export_conversation_row e) = cid
        /\ In (export_conversation_row e) (conversations db)
        /\ export_messages e
           ≡ₚ List.map (message_view false)
                (List.filter (fun m => msg_conversation_id m =? cid)
                   (chat_messages db))
        /\ StronglySorted (fun a b => view_created_at a <= view_created_at b)
             (export_messages e)
        /\ Forall (fun v => view_embedding v = None) (export_messages e)).
Proof.
  split.
  - intros Hnone. unfold export_conversation.
    apply has_conversation_filter in Hnone. now rewrite Hnone.
  - intros Hsome. unfold export_conversation.
    destruct (List.filter (fun c => conv_id c =? cid) (conversations db))
      as [|conv rest] eqn:Hf.
    { apply has_conversation_filter in Hf. congruence. }
    assert (Hconv : In conv (List.filter (fun c => conv_id c =? cid)
                               (conversations db)))
      by (rewrite Hf; now left).
    apply List.filter_In in Hconv as [Hconv Hid]. apply Z.eqb_eq in Hid.
    eexists. split; [reflexivity|]. cbn.
    split; [exact Hid|]. split; [exact Hconv|]. split; [|split].
    + change (List.map ?f ?l) with (f <$> l).
      now rewrite order_by_created_at_perm.
    + apply (StronglySorted_fmap _
               (fun a b => msg_created_at a <= msg_created_at b)); [auto|].
      apply order_by_created_at_sorted.
    + apply List.Forall_forall. intros v Hv.
      now apply List.in_map_iff in Hv as (m & <- & _).
Qed.

(** X18: the handlers do not agree on what an existing conversation is.
    For a conversation row without messages [get_conversation_details]
    answers 404 while [export_conversation] and
    [get_conversation_context] succeed with nothing in them; for messages
    whose conversation row is missing [get_conversation_details] succeeds
    while the other two answer 404. *)
Theorem handlers_disagree_on_existence
    (db : HistoryDb) (cid : Z) (include_embeddings include_system : bool)
    (page_size_arg page_arg : arg) (limit_ : Z) :
  (has_conversation db cid = true ->
   message_count db cid = 0 ->
   get_conversation_details db cid include_embeddings page_size_arg page_arg
   = json_error "Conversation not found" 404
   /\ (exists e, export_conversation db cid = Ok e /\ export_messages e = [])
   /\ (exists c,
        get_conversation_context db cid (IntArg limit_) include_system = Ok c
        /\ context_messages c = []))
  /\ (has_conversation db cid = false ->
      message_count db cid <> 0 ->
      (exists page,
          get_conversation_details db cid include_embeddings
            page_size_arg page_arg = Ok page)
      /\ export_conversation db cid = json_error "Conversation not found" 404
      /\ get_conversation_context db cid (IntArg limit_) include_system
         = json_error "Conversation not found" 404).
Proof.
  split.
  - intros Hconv Hcount.
    assert (Hmsgs : List.filter (fun m => msg_conversation_id m =? cid)
                      (chat_messages db) = [])
      by now apply message_count_zero.
    destruct (List.filter (fun c => conv_id c =? cid) (conversations db))
      as [|conv rest] eqn:Hf.
    { apply has_conversation_filter in Hf. congruence. }
    split; [|split].
    + unfold get_conversation_details.
      destruct (parse_pagination _ _). fold (message_count db cid).
      now rewrite Hcount.
    + unfold export_conversation. rewrite Hf, Hmsgs. eexists.
      split; reflexivity.
    + unfold get_conversation_context. rewrite Hf. cbn [length].
      eexists. split; [reflexivity|]. cbn [context_messages].
      unfold context_rows.
      replace (List.filter _ (chat_messages db)) with (@nil Message).
      2:{ symmetry. apply filter_nil_iff. apply filter_nil_iff in Hmsgs.
          eapply List.Forall_impl; [|exact Hmsgs]. cbn.
          intros m ->. reflexivity. }
      unfold limit, order_by_created_at. cbn. now rewrite take_nil.
  - intros Hconv Hcount. apply has_conversation_filter in Hconv.
    split; [|split].
    + unfold get_conversation_details.
      destruct (parse_pagination _ _). fold (message_count db cid).
      destruct (Z.eqb_spec (message_count db cid) 0); [done | eauto].
    + unfold export_conversation. now rewrite Hconv.
    + unfold get_conversation_context. now rewrite Hconv.
Qed.

(** ** Titles and context *)

(** X19: [update_conversation] answers 400 without touching the store
    when the title is missing or blank, and 404 without touching the store
    when no conversation has the id; otherwise it answers with the row of
    the conversation carrying the trimmed title, and the committed store
    differs from the old one only in the title of the conversations of
    that id: ids, dates, the other conversations and all messages are as
    before. *)
Theorem update_conversation_retitles
    (db : HistoryDb) (cid : Z) (title : option pystr) :
  (strip (text_of title) = [] ->
   update_conversation db cid title = (db, json_error "Title is required" 400))
  /\ (strip (text_of title) <> [] ->
      has_conversation db cid = false ->
      update_conversation db cid title
      = (db, json_error "Conversation not found" 404))
  /\ (strip (text_of title) <> [] ->
      has_conversation db cid = true ->
      exists row,
        snd (update_conversation db cid title) = Ok row
        /\ conv_id row = cid
        /\ conv_title row = Some (strip (text_of title))
        /\ chat_messages (fst (update_conversation db cid title))
           = chat_messages db
        /\ (forall (i : nat) c,
            conversations db !! i = Some c ->
            conversations (fst (update_conversation db cid title)) !! i
            = Some (if conv_id c =? cid
                    then {| conv_id := cid;
                            conv_created_at := conv_created_at c;
                            conv_title := Some (strip (text_of title)) |}
                    else c))).
Proof.
  split; [|split].
  - intros Hblank. unfold update_conversation.
    destruct title as [t|]; [|reflexivity]. cbn [text_of] in Hblank.
    now rewrite Hblank.
  - intros Htitle Hnone. unfold update_conversation.
    destruct title as [t|]; [|done]. cbn [text_of] in Htitle.
    destruct (strip t) as [|x s] eqn:Hs; [done|]. cbn [nonempty].
    unfold update_title. cbn.
    apply has_conversation_filter in Hnone. now rewrite Hnone.
  - intros Htitle Hsome. unfold update_conversation.
    destruct title as [t|]; [|done]. cbn [text_of] in *.
    destruct (strip t) as [|x s] eqn:Hs; [done|]. cbn [nonempty].
    unfold update_title. cbn.
    destruct (List.filter (fun c => conv_id c =? cid) (conversations db))
      as [|conv rest] eqn:Hf.
    { apply has_conversation_filter in Hf. congruence. }
    assert (Hconv : In conv (List.filter (fun c => conv_id c =? cid)
                               (conversations db)))
      by (rewrite Hf; now left).
    apply List.filter_In in Hconv as [_ Hid]. apply Z.eqb_eq in Hid.
    cbn. eexists. split; [reflexivity|]. cbn.
    split; [exact Hid|]. split; [reflexivity|]. split; [reflexivity|].
    intros i c Hc.
    change (List.map ?f ?l) with (f <$> l).
    rewrite list_lookup_fmap, Hc. cbn.
    destruct (Z.eqb_spec (conv_id c) cid) as [->|]; reflexivity.
Qed.

Lemma role_of_cases (sender : pystr) :
  (sender = py "user" /\ role_of sender = py "user")
  \/ (sender <> py "user" /\ role_of sender = py "assistant").
Proof. unfold role_of. case_bool_decide; auto. Qed.

(** X20: for a conversation that has a row, [get_conversation_context]
    returns at most [limit] messages, [limit] clamped into [1, 100] and 20
    by default, all of that conversation and by non-decreasing
    [created_at]; they are the oldest ones: a message of the conversation
    that is left out is no older than any returned one. Without
    [include_system] every returned message was sent by "user" or "ai".
    The role is "user" for the sender "user" and "assistant" for every
    other sender, and [truncated] tells whether as many messages were
    returned as the limit allows. *)
Theorem context_is_the_oldest_window
    (db : HistoryDb) (cid : Z) (limit_arg : arg) (include_system : bool) :
  has_conversation db cid = true ->
  limit_arg <> Malformed ->
  let limit_ :=
    Z.max 1 (Z.min (match limit_arg with IntArg z => z | _ => 20 end) 100) in
  let rows := context_rows db cid limit_ include_system in
  exists c,
    get_conversation_context db cid limit_arg include_system = Ok c
    /\ context_messages c = List.map context_message rows
    /\ context_message_count c = Z.of_nat (length rows)
    /\ context_message_count c <= limit_ <= 100
    /\ (context_truncated c = true <-> context_message_count c = limit_)
    /\ StronglySorted (fun a b => msg_created_at a <= msg_created_at b) rows
    /\ Forall (fun m =>
                 In m (chat_messages db)
                 /\ msg_conversation_id m = cid
                 /\ (include_system = false ->
                     msg_sender m = py "user" \/ msg_sender m = py "ai"))
         rows
    /\ Forall (fun cm =>
                 context_role cm = py "user"
                 \/ context_role cm = py "assistant")
         (context_messages c)
    /\ (forall m,
        In m (chat_messages db) ->
        msg_conversation_id m = cid ->
        include_system = true \/ user_or_ai (msg_sender m) = true ->
        ~ In m rows ->
        Forall (fun r => msg_created_at r <= msg_created_at m) rows).
Proof.
  intros Hconv Hlimit limit_ rows.
  destruct (List.filter (fun c => conv_id c =? cid) (conversations db))
    as [|conv rest] eqn:Hf.
  { apply has_conversation_filter in Hf. congruence. }
  set (eligible :=
         List.filter
           (fun m => (msg_conversation_id m =? cid)
                     && (include_system || user_or_ai (msg_sender m)))
           (chat_messages db)).
  assert (Hrows : rows = take (Z.to_nat limit_) (order_by_created_at eligible))
    by reflexivity.
  assert (Hsorted : StronglySorted
                      (fun a b => msg_created_at a <= msg_created_at b)
                      (order_by_created_at eligible))
    by apply order_by_created_at_sorted.
  assert (Hin : forall m, In m rows -> In m eligible).
  { intros m Hm. apply list_elem_of_In in Hm. rewrite Hrows in Hm.
    apply (limit_subset limit_) in Hm.
    rewrite order_by_created_at_perm in Hm. now apply list_elem_of_In. }
  assert (Hok : exists c,
            get_conversation_context db cid limit_arg include_system = Ok c
            /\ context_messages c = List.map context_message rows
            /\ context_message_count c = Z.of_nat (length rows)
            /\ context_truncated c = (Z.of_nat (length rows) =? limit_)).
  { unfold get_conversation_context. rewrite Hf. cbn [length].
    destruct limit_arg as [|z|]; [| |done];
      (eexists; split; [reflexivity|]; cbn; rewrite length_map;
       repeat split). }
  destruct Hok as (c & Hc & Hmsgs & Hcnt & Htrunc).
  exists c. split; [exact Hc|]. split; [exact Hmsgs|]. split; [exact Hcnt|].
  split.
  { rewrite Hcnt, Hrows, length_take. subst limit_. lia. }
  split; [rewrite Htrunc, Hcnt; apply Z.eqb_eq|].
  split; [rewrite Hrows; now apply (limit_sorted _ limit_)|].
  split.
  { apply List.Forall_forall. intros m Hm. apply Hin in Hm.
    apply List.filter_In in Hm as [Hm Hp].
    apply andb_true_iff in Hp as [Hcid Hsender]. apply Z.eqb_eq in Hcid.
    split; [exact Hm|]. split; [exact Hcid|].
    intros ->. cbn in Hsender. unfold user_or_ai in Hsender.
    apply orb_true_iff in Hsender as [Hu|Ha];
      apply bool_decide_eq_true in Hu || apply bool_decide_eq_true in Ha;
      auto. }
  split.
  { rewrite Hmsgs. apply List.Forall_forall. intros cm Hcm.
    apply List.in_map_iff in Hcm as (m & <- & _). cbn.
    destruct (role_of_cases (msg_sender m)) as [[_ ->]|[_ ->]]; auto. }
  intros m Hm Hcid Hsender Hout.
  assert (Hel : m ∈ order_by_created_at eligible).
  { rewrite order_by_created_at_perm. apply list_elem_of_In.
    apply List.filter_In. split; [exact Hm|].
    apply Z.eqb_eq in Hcid. rewrite Hcid. cbn.
    destruct Hsender as [-> | ->]; [reflexivity | apply orb_true_r]. }
  rewrite <- (take_drop (Z.to_nat limit_) (order_by_created_at eligible))
    in Hel, Hsorted.
  rewrite <- Hrows in Hel, Hsorted.
  apply elem_of_app in Hel as [Hel|Hel];
    [exfalso; now apply Hout, list_elem_of_In|].
  apply List.Forall_forall. intros r Hr.
  apply (StronglySorted_app_1_elem_of _ _ _ _ _ Hsorted);
    [now apply list_elem_of_In | exact Hel].
Qed.

(** ** Adding messages *)

(** What a successful [add_message] leaves in the store. *)
Lemma add_message_ok (st st' : HistoryState) (now : Z)
    (message sender : option pystr) (conversation_id : option Z)
    (conversation_title model_name : option pystr) (embedding : option vector)
    (r : MessageCreated) :
  add_message st now message sender conversation_id conversation_title
    model_name embedding = (st', Ok r) ->
  let cid :=
    match scope_of conversation_id with
    | Some cid => cid
    | None => conversations_id_seq st + 1
    end in
  let new_message :=
    {| msg_id := chat_messages_id_seq st + 1; msg_conversation_id := cid;
       msg_sender := text_of sender; msg_message := text_of message;
       msg_model_name := model_name; msg_created_at := now;
       msg_embedding := embedding |} in
  given message = true /\ given sender = true
  /\ created_id r = chat_messages_id_seq st + 1
  /\ created_conversation_id r = cid
  /\ chat_messages_id_seq st' = chat_messages_id_seq st + 1
  /\ chat_messages (state_db st')
     = chat_messages (state_db st) ++ [new_message]
  /\ match scope_of conversation_id with
     | Some _ =>
       conversations (state_db st') = conversations (state_db st)
       /\ conversations_id_seq st' = conversations_id_seq st
     | None =>
       conversations_id_seq st' = conversations_id_seq st + 1
       /\ exists title,
           conversations (state_db st')
           = conversations (state_db st)
             ++ [{| conv_id := cid; conv_created_at := now;
                    conv_title := title |}]
           /\ (strip (text_of conversation_title) <> [] ->
               title = Some (strip (text_of conversation_title)))
           /\ (strip (text_of conversation_title) = [] ->
               title = default_title)
     end.
Proof.
  unfold add_message.
  destruct (given message) eqn:Hm; [|discriminate].
  destruct (given sender) eqn:Hs; [|discriminate]. cbn [negb orb].
  destruct (scope_of conversation_id) as [cid|] eqn:Hscope.
  - destruct (message_insert_error _ _); [discriminate|].
    intros [= <- <-]. cbn. repeat split.
  - destruct (message_insert_error _ _); [discriminate|].
    intros [= <- <-]. cbn -[strip]. repeat split.
    eexists. split; [reflexivity|]. split.
    + intros Htitle. destruct conversation_title as [[|x t]|];
        cbn [given text_of andb] in *.
      * exfalso. now apply Htitle.
      * now destruct (strip (x :: t)).
      * exfalso. now apply Htitle.
    + intros Htitle. destruct conversation_title as [[|x t]|];
        cbn [given text_of andb] in *; [reflexivity| |reflexivity].
      now rewrite Htitle.
Qed.

(** X21: a successful [add_message] appends exactly one message, with the
    next value of the message sequence as id and the sender, text, model
    name and embedding of the request. With a conversation id other than 0
    the message goes to that conversation and no conversation is created;
    without one (or with 0) exactly one conversation is created, with the
    next value of the conversation sequence as id and the trimmed title of
    the request, or the default title when that is missing or blank, and
    the message belongs to it. *)
Theorem add_message_appends
    (st st' : HistoryState) (now : Z)
    (message sender : option pystr) (conversation_id : option Z)
    (conversation_title model_name : option pystr) (embedding : option vector)
    (r : MessageCreated) :
  add_message st now message sender conversation_id conversation_title
    model_name embedding = (st', Ok r) ->
  created_id r = chat_messages_id_seq st + 1
  /\ chat_messages (state_db st')
     = chat_messages (state_db st)
       ++ [{| msg_id := created_id r;
              msg_conversation_id := created_conversation_id r;
              msg_sender := text_of sender; msg_message := text_of message;
              msg_model_name := model_name; msg_created_at := now;
              msg_embedding := embedding |}]
  /\ text_of sender <> [] /\ text_of message <> []
  /\ (forall cid,
      conversation_id = Some cid -> cid <> 0 ->
      created_conversation_id r = cid
      /\ conversations (state_db st') = conversations (state_db st))
  /\ (conversation_id = None \/ conversation_id = Some 0 ->
      created_conversation_id r = conversations_id_seq st + 1
      /\ exists title,
          conversations (state_db st')
          = conversations (state_db st)
            ++ [{| conv_id := created_conversation_id r;
                   conv_created_at := now; conv_title := title |}]
          /\ (strip (text_of conversation_title) <> [] ->
              title = Some (strip (text_of conversation_title)))
          /\ (strip (text_of conversation_title) = [] ->
              title = default_title)).
Proof.
  intros Hok.
  destruct (add_message_ok _ _ _ _ _ _ _ _ _ _ Hok)
    as (Hm & Hs & Hid & Hcid & _ & Hmsgs & Hconv).
  split; [exact Hid|]. split; [now rewrite Hmsgs, Hid, Hcid|].
  split; [now destruct sender as [[|? ?]|]|].
  split; [now destruct message as [[|? ?]|]|].
  split.
  - intros cid -> Hne. unfold scope_of in *.
    apply Z.eqb_neq in Hne. rewrite Hne in *. now destruct Hconv.
  - intros Hnone.
    assert (Hscope : scope_of conversation_id = None)
      by (destruct Hnone as [-> | ->]; reflexivity).
    rewrite Hscope in *. destruct Hconv as (_ & title & Hc & Ht).
    split; [exact Hcid|]. exists title. now rewrite Hcid.
Qed.

(** X22: after a successful [add_message] the conversation of the
    response has one message more than before, [get_conversation_details]
    finds it with that total, and when the conversation was created by the
    request [export_conversation] returns the new message as its only
    one, provided no older message carried the new conversation id. *)
Theorem add_message_then_read
    (st st' : HistoryState) (now : Z)
    (message sender : option pystr) (conversation_id : option Z)
    (conversation_title model_name : option pystr) (embedding : option vector)
    (r : MessageCreated) :
  add_message st now message sender conversation_id conversation_title
    model_name embedding = (st', Ok r) ->
  let cid := created_conversation_id r in
  message_count (state_db st') cid = message_count (state_db st) cid + 1
  /\ (exists page,
        get_conversation_details (state_db st') cid false Absent Absent
        = Ok page
        /\ page_total page = message_count (state_db st) cid + 1)
  /\ (scope_of conversation_id = None ->
      message_count (state_db st) cid = 0 ->
      exists e,
        export_conversation (state_db st') cid = Ok e
        /\ export_messages e
           = [{| view_id := created_id r; view_conversation_id := cid;
                 view_sender := text_of sender;
                 view_message := text_of message;
                 view_model_name := model_name; view_created_at := now;
                 view_embedding := None |}]).
Proof.
  intros Hok cid.
  destruct (add_message_ok _ _ _ _ _ _ _ _ _ _ Hok)
    as (_ & _ & Hid & Hcid & _ & Hmsgs & Hconv).
  fold cid in Hcid.
  assert (Hcount : message_count (state_db st') cid
                   = message_count (state_db st) cid + 1).
  { destruct (state_db st') as [convs' msgs'], (state_db st) as [convs msgs].
    cbn [chat_messages] in Hmsgs. subst msgs'.
    unfold message_count at 1 2. cbn [chat_messages].
    rewrite List.filter_app, length_app. cbn [List.filter msg_conversation_id].
    rewrite <- Hcid, Z.eqb_refl. cbn. lia. }
  split; [exact Hcount|]. split.
  - unfold get_conversation_details.
    destruct (parse_pagination Absent Absent) as [page_size offset].
    fold (message_count (state_db st') cid). rewrite Hcount.
    destruct (Z.eqb_spec (message_count (state_db st) cid + 1) 0) as [Hz|_].
    { unfold message_count in Hz. lia. }
    eexists. split; reflexivity.
  - intros Hscope Hzero. rewrite Hscope in Hconv, Hcid, Hmsgs.
    destruct Hconv as (_ & title & Hc & _).
    unfold export_conversation. rewrite Hc, List.filter_app. cbn [List.filter conv_id].
    rewrite <- Hcid, Z.eqb_refl.
    destruct (List.filter (fun c => conv_id c =? cid)
                (conversations (state_db st)) ++ _) as [|conv rest] eqn:Hf.
    { now apply app_eq_nil in Hf as [_ Hf]. }
    eexists. split; [reflexivity|]. cbn [export_messages].
    rewrite Hmsgs, List.filter_app.
    apply message_count_zero in Hzero. rewrite Hzero.
    cbn [app List.filter msg_conversation_id].
    rewrite <- Hcid, Z.eqb_refl. rewrite Hid. reflexivity.
Qed.

(** ** Deleting conversations *)

Lemma delete_conversation_cases (db : HistoryDb) (cid : Z) :
  (has_conversation db cid = true /\
   delete_conversation db cid
   = (without_conversations [cid] db,
      Ok {| deleted_flag := true; deleted_conversation_id := cid |}))
  \/ (has_conversation db cid = false /\
      delete_conversation db cid
      = (db, json_error "Conversation not found" 404)).
Proof.
  unfold delete_conversation.
  pose proof (returning_nil_iff cid
                (delete_messages_of cid (get_db_connection db))) as Hrow.
  destruct (delete_conversation_row cid
              (delete_messages_of cid (get_db_connection db)))
    as [conn row] eqn:Hdel.
  cbn [snd] in Hrow.
  change (has_conversation
            (working (delete_messages_of cid (get_db_connection db))) cid)
    with (has_conversation db cid) in Hrow.
  unfold delete_conversation_row in Hdel. injection Hdel as <- _.
  destruct row as [|r row].
  - right. split; [now apply Hrow | reflexivity].
  - left. split.
    + destruct (has_conversation db cid); [reflexivity|].
      destruct Hrow as [_ Hnil]. discriminate (Hnil eq_refl).
    + unfold without_conversations, close, commit. cbn.
      f_equal. f_equal; apply List.filter_ext; intros x;
        unfold listed; cbn; now rewrite orb_false_r.
Qed.

Lemma message_count_without (ids : list Z) (db : HistoryDb) (cid : Z) :
  message_count (without_conversations ids db) cid
  = if listed ids cid then 0 else message_count db cid.
Proof.
  unfold message_count, without_conversations. cbn [chat_messages].
  rewrite filter_filter.
  destruct (listed ids cid) eqn:Hin.
  - replace (List.filter _ (chat_messages db)) with (@nil Message);
      [reflexivity|].
    symmetry. apply filter_nil_iff, List.Forall_forall. intros m _.
    destruct (Z.eqb_spec (msg_conversation_id m) cid) as [->|];
      [now rewrite Hin | apply andb_false_r].
  - do 2 f_equal. apply List.filter_ext. intros m.
    destruct (Z.eqb_spec (msg_conversation_id m) cid) as [->|];
      [now rewrite Hin | apply andb_false_r].
Qed.

(** X23: after a successful [delete_conversation] the conversation is
    gone for every handler: [get_conversation_details],
    [export_conversation], [get_conversation_context] and a second
    [delete_conversation] answer 404, while every other conversation keeps
    its row and its number of messages. *)
Theorem deleted_conversation_is_gone
    (db db' : HistoryDb) (cid : Z) (d : Deleted) :
  delete_conversation db cid = (db', Ok d) ->
  has_conversation db' cid = false
  /\ message_count db' cid = 0
  /\ (forall include_embeddings page_size_arg page_arg,
      get_conversation_details db' cid include_embeddings
        page_size_arg page_arg
      = json_error "Conversation not found" 404)
  /\ export_conversation db' cid = json_error "Conversation not found" 404
  /\ (forall limit_ include_system,
      get_conversation_context db' cid (IntArg limit_) include_system
      = json_error "Conversation not found" 404)
  /\ delete_conversation db' cid
     = (db', json_error "Conversation not found" 404)
  /\ (forall other, other <> cid ->
      has_conversation db' other = has_conversation db other
      /\ message_count db' other = message_count db other).
Proof.
  intros Hdel.
  destruct (delete_conversation_cases db cid) as [[_ Hyes]|[_ Hno]];
    [|rewrite Hno in Hdel; discriminate].
  rewrite Hyes in Hdel. injection Hdel as <- _.
  assert (Hin : listed [cid] cid = true)
    by (unfold listed; cbn; now rewrite Z.eqb_refl).
  assert (Hgone : has_conversation (without_conversations [cid] db) cid = false)
    by now rewrite has_conversation_without, Hin.
  assert (Hzero : message_count (without_conversations [cid] db) cid = 0)
    by now rewrite message_count_without, Hin.
  split; [exact Hgone|]. split; [exact Hzero|].
  split.
  { intros include_embeddings page_size_arg page_arg.
    unfold get_conversation_details. destruct (parse_pagination _ _).
    fold (message_count (without_conversations [cid] db) cid).
    now rewrite Hzero. }
  apply has_conversation_filter in Hgone as Hfilter.
  split; [unfold export_conversation; now rewrite Hfilter|].
  split; [intros limit_ include_system; unfold get_conversation_context;
          now rewrite Hfilter|].
  split.
  { destruct (delete_conversation_cases (without_conversations [cid] db) cid)
      as [[Hhas _]|[_ Hno]]; [congruence | exact Hno]. }
  intros other Hother.
  assert (Hout : listed [cid] other = false).
  { unfold listed. cbn. apply Z.eqb_neq in Hother. now rewrite Hother. }
  now rewrite has_conversation_without, message_count_without, Hout.
Qed.

Lemma filter_partition {A : Type} (f : A -> bool) (l : list A) :
  List.filter f l ++ List.filter (fun x => negb (f x)) l ≡ₚ l.
Proof.
  induction l as [|x l IH]; [reflexivity|]. cbn.
  destruct (f x); cbn.
  - now rewrite IH.
  - rewrite <- Permutation_middle. now rewrite IH.
Qed.

(** X24: a bulk deletion of a non-empty request whose ids are iterated
    without repetition reports each id exactly once, under [deleted] when
    its conversation existed and under [not_found] otherwise, and commits
    the store without the requested conversations and without any message
    of a requested id. This includes the messages of an id reported as not
    found, which a single [delete_conversation] of that id leaves in
    place. *)
Theorem bulk_delete_partitions (db : HistoryDb) (ids : list Z) :
  ids <> [] ->
  NoDup (set_list ids) ->
  exists body,
    bulk_delete_conversations db ids
    = (without_conversations (set_list ids) db, Ok body)
    /\ bulk_requested body = set_list ids
    /\ bulk_deleted body
       = List.filter (has_conversation db) (set_list ids)
    /\ bulk_not_found body
       = List.filter (fun i => negb (has_conversation db i)) (set_list ids)
    /\ bulk_deleted body ++ bulk_not_found body ≡ₚ set_list ids
    /\ (forall cid,
        In cid (set_list ids) ->
        has_conversation (without_conversations (set_list ids) db) cid = false
        /\ message_count (without_conversations (set_list ids) db) cid = 0)
    /\ (forall cid,
        In cid (bulk_not_found body) ->
        delete_conversation db cid
        = (db, json_error "Conversation not found" 404)).
Proof.
  intros Hne Hnd. rewrite bulk_delete_conversations_spec by assumption.
  eexists. split; [reflexivity|].
  cbn [bulk_requested bulk_deleted bulk_not_found].
  split; [reflexivity|]. split; [reflexivity|]. split; [reflexivity|].
  split; [apply filter_partition|]. split.
  - intros cid Hcid.
    assert (Hin : listed (set_list ids) cid = true).
    { unfold listed. apply List.existsb_exists. exists cid.
      split; [exact Hcid | apply Z.eqb_refl]. }
    now rewrite has_conversation_without, message_count_without, Hin.
  - intros cid Hcid. apply List.filter_In in Hcid as [_ Hcid].
    apply negb_true_iff in Hcid.
    destruct (delete_conversation_cases db cid) as [[Hhas _]|[_ Hno]];
      [congruence | exact Hno].
Qed.

(** X25: a request to the history store that is answered with an error
    changes nothing in the store: this holds for [add_message] (where a
    conversation inserted by the same request is rolled back with the
    message), for [update_conversation], for [delete_conversation] and for
    [bulk_delete_conversations]. *)
Theorem failed_history_requests_change_nothing
    (db db' : HistoryDb) (status : Z) (detail : pystr) :
  (forall st st' now message sender conversation_id conversation_title
          model_name embedding,
      add_message st now message sender conversation_id conversation_title
        model_name embedding = (st', HttpError status detail) ->
      state_db st' = state_db st)
  /\ (forall cid title,
      update_conversation db cid title = (db', HttpError status detail) ->
      db' = db)
  /\ (forall cid,
      delete_conversation db cid = (db', HttpError status detail) ->
      db' = db)
  /\ (forall ids,
      bulk_delete_conversations db ids = (db', HttpError status detail) ->
      db' = db).
Proof.
  split; [|split; [|split]].
  - intros st st' now message sender conversation_id conversation_title
      model_name embedding. unfold add_message.
    destruct (negb (given message) || negb (given sender));
      [now intros [= <-]|].
    destruct (scope_of conversation_id);
      (destruct (message_insert_error _ _); [|discriminate]);
      now intros [= <-].
  - intros cid title. unfold update_conversation.
    destruct title as [t|]; [|now intros [= <-]].
    destruct (nonempty (strip t)); [|now intros [= <-]].
    unfold update_title. cbn.
    destruct (List.filter _ _); [now intros [= <-] | discriminate].
  - intros cid.
    destruct (delete_conversation_cases db cid) as [[_ ->]|[_ ->]];
      [discriminate | now intros [= <-]].
  - intros ids. unfold bulk_delete_conversations.
    destruct ids; [now intros [= <-]|].
    destruct (bulk_delete_loop _ _ _ _) as [[conn deleted] not_found].
    discriminate.
Qed.

(** ** The answers of [ingest_file] *)

Lemma chunk_loop_grows (cleaned : pystr) (cs ov : Z) (fuel : nat) :
  forall start chunks ws r,
    chunk_loop fuel cleaned cs ov start chunks ws = Some r ->
    exists more, chunks_of r = chunks ++ more.
Proof.
  induction fuel as [|fuel IH]; intros start chunks ws r; [discriminate|].
  cbn [chunk_loop].
  destruct (start <? Z.of_nat (length cleaned)).
  2:{ intros [= <-]. exists []. now rewrite app_nil_r. }
  rewrite emitted_one.
  destruct (_ >=? _).
  - intros [= <-]. eauto.
  - intros Hrun. destruct (IH _ _ _ _ Hrun) as [more Hmore].
    rewrite Hmore, <- app_assoc. eauto.
Qed.

Lemma chunk_text_leaves_a_chunk (text_data : pystr) (chunk_size overlap : Z)
    (fuel : nat) (r : chunking) :
  clean text_data <> [] ->
  chunk_text fuel (clean text_data) chunk_size overlap = Some r ->
  chunks_of r <> [].
Proof.
  intros Hne. destruct (clean_head text_data Hne) as (c & t & Hc & Hsp).
  unfold chunk_text.
  pose proof (chunk_params_valid chunk_size overlap) as Hv.
  destruct (chunk_params chunk_size overlap) as [cs ov]. cbn [fst snd] in Hv.
  destruct fuel as [|fuel]; [discriminate|]. cbn [chunk_loop].
  rewrite Hc.
  destruct (Z.ltb_spec 0 (Z.of_nat (length (c :: t)))) as [_|Hlen];
    [|cbn [length] in Hlen; lia].
  assert (Hchunk : exists x s,
            strip (py_slice (c :: t) 0
                     (Z.min (Z.of_nat (length (c :: t))) (0 + cs)))
            = x :: s).
  { rewrite py_slice_inside by (cbn [length]; lia).
    change (Z.to_nat 0) with 0%nat. cbn [drop].
    destruct (Z.to_nat (Z.min (Z.of_nat (length (c :: t))) (0 + cs) - 0))
      as [|n] eqn:En; [cbn [length] in En; lia|].
    cbn [take]. rewrite strip_cons_nonspace by exact Hsp. eauto. }
  destruct Hchunk as (x & s & ->). cbn [nonempty app].
  destruct (_ >=? _).
  - intros [= <-]. discriminate.
  - intros Hrun. destruct (chunk_loop_grows _ _ _ _ _ _ _ _ Hrun) as [more ->].
    discriminate.
Qed.

(** X26: [ingest_file] never answers with its error "No valid chunks
    produced from file content.": whenever the cleaned text is not empty
    the chunking leaves a chunk, so that branch of the handler cannot be
    taken. *)
Theorem ingest_file_never_reports_no_chunks
    (fuel : nat) (store store' : Store) (name : pystr) (file : UploadFile)
    (chunk_size overlap : Z) (r : response Ingested) :
  ingest_file fuel store name file chunk_size overlap = Some (store', r) ->
  r <> HttpError 400 (py "No valid chunks produced from file content.").
Proof.
  unfold ingest_file.
  destruct (store !! table_name_of name) as [table|].
  2:{ intros [= _ <-]. discriminate. }
  destruct (read_upload file _) as [text_data|status detail] eqn:Hread.
  2:{ intros [= _ <-]. intros [= -> ->].
      unfold read_upload in Hread.
      repeat case_decide;
        try destruct pypdf_installed;
        try destruct (pdf_extract _);
        try discriminate Hread;
        injection Hread as Hd; vm_compute in Hd; discriminate Hd. }
  destruct (nonempty (clean text_data)) eqn:Hne.
  2:{ intros [= _ <-]. intros Hd. vm_compute in Hd. discriminate Hd. }
  destruct (chunk_text _ _ _ _) as [ch|] eqn:Hch; [|discriminate].
  assert (Hchunks : chunks_of ch <> []).
  { apply (chunk_text_leaves_a_chunk text_data chunk_size overlap fuel);
      [now destruct (clean text_data) | exact Hch]. }
  unfold persist_chunks.
  destruct (chunks_of ch) as [|c rest]; [done|].
  destruct (insert_chunks _ _ _ _) as [seq [[rows ids]|]];
    intros [= _ <-]; intros Hd; vm_compute in Hd; discriminate Hd.
Qed.

End Handlers.

(** ** Examples on the sample stores *)

Lemma chunking_terminates_example :
  clean (py "hello world foo") <> []
  /\ exists r,
      chunk_text 16 (clean (py "hello world foo")) 5 7 = Some r
      /\ chunks_of r <> [].
Proof.
  assert (Hne : clean (py "hello world foo") <> [])
    by (vm_compute; discriminate).
  split; [exact Hne|].
  destruct (chunking_terminates_with_a_chunk steady_encode never_raises
              (py "hello world foo") 5 7 Hne) as (_ & Hrun & _).
  destruct (Hrun 16%nat) as (r & Hr & Hchunks & _); [vm_compute; lia|].
  exists r. split; [exact Hr | exact Hchunks].
Defined.

Lemma windows_cover_example :
  exists r,
    chunk_text 4 (clean (py "a b")) 2 0 = Some r
    /\ subtract_overlap 0
         (List.map (window_text (clean (py "a b"))) (windows_of r))
       = clean (py "a b").
Proof.
  destruct (windows_cover_cleaned_text (py "a b") 2 0 4)
    as (r & Hr & Hcover & _).
  - vm_compute. discriminate.
  - vm_compute. lia.
  - exists r. split; [exact Hr | exact Hcover].
Defined.

(** The chunks themselves do not put the text together again: the space
    at the end of the first window of "a b" is trimmed away. *)
Lemma chunks_leave_a_gap :
  chunk_text 4 (clean (py "a b")) 2 0
  = Some {| chunks_of := [py "a"; py "b"]; windows_of := [(0, 2); (2, 3)] |}
  /\ subtract_overlap 0 [py "a"; py "b"] <> clean (py "a b").
Proof. split; [vm_compute; reflexivity | vm_compute; discriminate]. Qed.

(** Conversation 1 goes with its message, and the messages of the
    conversations 2 and 999 stay; for the id 999, which has a message but no
    row, the answer is 404 and the store is the one before, with that
    message. *)
Lemma delete_conversation_example :
  delete_conversation orphan_history 1
  = ({| conversations :=
          [{| conv_id := 2; conv_created_at := 20; conv_title := None |};
           {| conv_id := 7; conv_created_at := 30; conv_title := None |}];
        chat_messages :=
          [sample_message 2 2 None; sample_message 3 999 None] |},
     Ok {| deleted_flag := true; deleted_conversation_id := 1 |})
  /\ delete_conversation orphan_history 999
     = ({| conversations := conversations sample_history;
           chat_messages :=
             [sample_message 1 1 (Some [1%R]); sample_message 2 2 None;
              sample_message 3 999 None] |},
        json_error "Conversation not found" 404).
Proof.
  split.
  - apply (proj1 (delete_conversation_all_or_nothing orphan_history 1)).
    reflexivity.
  - apply (proj2 (delete_conversation_all_or_nothing orphan_history 999)).
    reflexivity.
Defined.

Lemma bulk_delete_example :
  snd (bulk_delete_conversations remove_dups sample_history [1; 2; 999])
  = Ok {| bulk_requested := [1; 2; 999];
          bulk_deleted := [1; 2];
          bulk_not_found := [999];
          bulk_errors := [] |}.
Proof.
  apply (bulk_delete_scenario remove_dups sample_history); reflexivity.
Defined.

Lemma details_not_found_example :
  has_conversation sample_history 7 = true
  /\ get_conversation_details sample_history 7 false Absent Absent
     = HttpError 404 (py "Conversation not found").
Proof.
  split; [reflexivity|].
  apply (details_not_found_without_messages
           (conversations sample_history) (chat_messages sample_history) 7).
  repeat constructor; discriminate.
Defined.

(** Three chunks, of which the first goes through. The model is
    unavailable for the second, or the database rejects its row: the answer
    is 500 and no table has another row than before. With a model and a
    database that accept them all, the three rows are committed. *)
Lemma ingest_failure_example :
  (snd (persist_chunks flaky_encode never_raises sample_store (py "notes")
          notes (py "f.txt") [py "a"; py "b"; py "c"])
   = internal_server_error
   /\ forall name,
       table_rows
         <$> (fst (persist_chunks flaky_encode never_raises sample_store
                     (py "notes") notes (py "f.txt")
                     [py "a"; py "b"; py "c"]) !! name)
       = table_rows <$> (sample_store !! name))
  /\ (snd (persist_chunks steady_encode rejects_b sample_store (py "notes")
             notes (py "f.txt") [py "a"; py "b"; py "c"])
      = internal_server_error
      /\ forall name,
          table_rows
            <$> (fst (persist_chunks steady_encode rejects_b sample_store
                        (py "notes") notes (py "f.txt")
                        [py "a"; py "b"; py "c"]) !! name)
          = table_rows <$> (sample_store !! name))
  /\ table_rows
       <$> (fst (persist_chunks steady_encode never_raises sample_store
                   (py "notes") notes (py "f.txt")
                   [py "a"; py "b"; py "c"]) !! py "notes")
     = Some (table_rows notes
             ++ [{| doc_id := 2; doc_content := py "a";
                    doc_embedding := [1%R] |};
                 {| doc_id := 3; doc_content := py "b";
                    doc_embedding := [1%R] |};
                 {| doc_id := 4; doc_content := py "c";
                    doc_embedding := [1%R] |}]).
Proof.
  split; [|split].
  - refine (proj1 (ingest_commits_all_or_nothing flaky_encode never_raises
                     sample_store (py "notes") notes (py "f.txt")
                     [py "a"; py "b"; py "c"] _ _)
              [py "a"] (py "b") [py "c"] [[1%R]] _ _ _).
    + discriminate.
    + reflexivity.
    + reflexivity.
    + split; [repeat constructor|]. intros i ch emb _ _. reflexivity.
    + left. exists (py "model unavailable"). reflexivity.
  - refine (proj1 (ingest_commits_all_or_nothing steady_encode rejects_b
                     sample_store (py "notes") notes (py "f.txt")
                     [py "a"; py "b"; py "c"] _ _)
              [py "a"] (py "b") [py "c"] [[1%R]] _ _ _).
    + discriminate.
    + reflexivity.
    + reflexivity.
    + split; [repeat constructor|].
      intros [|i] ch emb Hch Hemb; [|discriminate Hch].
      injection Hch as <-. reflexivity.
    + right. exists [1%R]. split; reflexivity.
  - destruct (proj1 (proj2 (ingest_commits_all_or_nothing steady_encode
                              never_raises sample_store (py "notes") notes
                              (py "f.txt") [py "a"; py "b"; py "c"]
                              ltac:(discriminate) eq_refl))
                [[1%R]; [1%R]; [1%R]])
      as (Hresult & _).
    + split; [repeat constructor|]. intros i ch emb _ _. reflexivity.
    + rewrite Hresult. reflexivity.
Defined.

Lemma update_document_example :
  update_document ascii_lower steady_encode update_passes (py "update failed")
    sample_store (py "Notes") 1 (py "new text")
  = (<[py "notes" :=
         {| table_rows :=
              [{| doc_id := 1; doc_content := py "new text";
                  doc_embedding := [1%R] |}];
            table_seq := 1 |}]> sample_store,
     Ok {| updated_message := py "Document updated successfully.";
           updated_id := 1 |})
  /\ update_document ascii_lower steady_encode update_passes
       (py "update failed") sample_store (py "Notes") 999 (py "new text")
     = (sample_store, HttpError 404 (py "Document not found.")).
Proof.
  destruct (update_document_replaces ascii_lower steady_encode update_passes
              (py "update failed") sample_store (py "Notes") 1 (py "new text"))
    as (_ & _ & _ & Hfound).
  destruct (Hfound notes [1%R]) as (_ & Hupdate & _);
    [reflexivity | reflexivity | reflexivity |].
  destruct (update_document_replaces ascii_lower steady_encode update_passes
              (py "update failed") sample_store (py "Notes") 999
              (py "new text"))
    as (_ & _ & _ & Habsent).
  destruct (Habsent notes [1%R]) as (Hnone & _);
    [reflexivity | reflexivity | reflexivity |].
  split.
  - apply Hupdate. constructor. reflexivity.
  - apply Hnone. repeat constructor. discriminate.
Defined.

(** The embedding model is asked before the row is looked up: with a model
    that is unavailable for the text "b", the update of an id that no row
    of the collection carries answers 500, not 404. *)
Lemma update_of_absent_id_answers_500 :
  sample_store !! table_name_of ascii_lower (py "notes") = Some notes
  /\ Forall (fun d => doc_id d <> 999) (table_rows notes)
  /\ update_document ascii_lower flaky_encode update_passes
       (py "update failed") sample_store (py "notes") 999 (py "b")
     = (sample_store, HttpError 500 (py "model unavailable"))
  /\ update_document ascii_lower flaky_encode update_passes
       (py "update failed") sample_store (py "notes") 999 (py "b")
     <> (sample_store, HttpError 404 (py "Document not found.")).
Proof.
  split; [reflexivity|]. split; [repeat constructor; discriminate|].
  split; [reflexivity|]. discriminate.
Qed.

Lemma cosine_distance_same : cosine_distance [1%R] [1%R] = 0%R.
Proof.
  unfold cosine_distance, norm. cbn [dot].
  replace (1 * 1 + 0)%R with 1%R by ring. rewrite sqrt_1. field.
Qed.

Lemma cosine_distance_opposite : cosine_distance [(-1)%R] [1%R] = 2%R.
Proof.
  unfold cosine_distance, norm. cbn [dot].
  replace (-1 * -1 + 0)%R with 1%R by ring.
  replace (1 * 1 + 0)%R with 1%R by ring.
  replace (-1 * 1 + 0)%R with (-1)%R by ring.
  rewrite sqrt_1. field.
Qed.

(** The stored vector that equals the query comes first, with similarity
    1; the opposite vector follows with similarity -1; the message without
    embedding is not a candidate. *)
Example nearest_first :
  similarity_search no_distance_error ranked_history [1%R] 10 None
  = Ok {| search_results :=
            [search_hit [1%R] (sample_message 2 1 (Some [1%R]), [1%R]);
             search_hit [1%R] (sample_message 1 2 (Some [(-1)%R]), [(-1)%R])];
          search_count := 2 |}.
Proof.
  unfold similarity_search, order_by_asc. cbn.
  destruct (decide _) as [Hle|_]; [|reflexivity].
  rewrite cosine_distance_same, cosine_distance_opposite in Hle. lra.
Qed.

Example nearest_first_scores :
  hit_similarity (search_hit [1%R] (sample_message 2 1 (Some [1%R]), [1%R]))
  = 1%R
  /\ hit_similarity
       (search_hit [1%R] (sample_message 1 2 (Some [(-1)%R]), [(-1)%R]))
     = (-1)%R.
Proof.
  cbn. rewrite cosine_distance_same, cosine_distance_opposite.
  split; ring.
Qed.

Lemma norm_unit : norm [1%R] = 1%R.
Proof.
  unfold norm. cbn [dot].
  replace (1 * 1 + 0)%R with 1%R by ring. apply sqrt_1.
Qed.

Lemma norm_minus_unit : norm [(-1)%R] = 1%R.
Proof.
  unfold norm. cbn [dot].
  replace (-1 * -1 + 0)%R with 1%R by ring. apply sqrt_1.
Qed.

(** The search for [[1]] in [ranked_history] returns both messages that
    have an embedding, and its first row, the message whose embedding is
    the query itself, scores 1. *)
Lemma search_example :
  exists res,
    similarity_search no_distance_error ranked_history [1%R] 10 None = Ok res
    /\ length (search_results res) = 2%nat
    /\ exists h hits,
        search_results res = h :: hits /\ hit_similarity h = 1%R.
Proof.
  destruct (proj1 (similarity_results_ordered ascii_lower steady_encode
                     no_distance_error [])
              ranked_history [1%R] 10 None eq_refl)
    as (res & Hres & _ & _ & Hlen & _ & Hmax).
  exists res. split; [exact Hres|]. split; [exact Hlen|].
  destruct Hmax as [_ Hone].
  - rewrite norm_unit. lra.
  - repeat constructor; cbn [snd];
      rewrite ?norm_unit, ?norm_minus_unit; lra.
  - apply (Hone (sample_message 2 1 (Some [1%R])) [1%R] 1%R).
    + apply list_elem_of_further, list_elem_of_here.
    + cbn. f_equal. ring.
    + lra.
Defined.

(** With the scope of conversation 2 and [top_k = 1] the search returns
    the message of conversation 2, although the message of conversation 1
    is nearer to the query. *)
Lemma scoped_search_example :
  exists res,
    similarity_search no_distance_error ranked_history [1%R] 1 (Some 2)
    = Ok res
    /\ length (search_results res) = 1%nat
    /\ Forall (fun h => hit_conversation_id h = 2) (search_results res).
Proof.
  eexists. split; [reflexivity|]. split; [reflexivity|].
  refine (proj1 (search_stays_in_scope no_distance_error ranked_history
                   [1%R] 1 2 _ _ _)); [discriminate | reflexivity].
Defined.

Example nearer_row_is_out_of_scope :
  (cosine_distance [1%R] [1%R] < cosine_distance [(-1)%R] [1%R])%R.
Proof. rewrite cosine_distance_same, cosine_distance_opposite. lra. Qed.

Lemma scope_zero_is_no_scope :
  exists res,
    similarity_search no_distance_error sample_history [1%R] 10 (Some 0)
    = Ok res
    /\ ~ Forall (fun h => hit_conversation_id h = 0) (search_results res).
Proof.
  eexists. split; [reflexivity|].
  intros Hall. inversion Hall as [|h rest Hh _]. discriminate Hh.
Qed.

Lemma clamp_example :
  exists res,
    similarity_search no_distance_error sample_history [1%R] (-5) None = Ok res
    /\ clamp_top_k (-5) = 1
    /\ length (search_results res) = 1%nat.
Proof.
  eexists. split; [reflexivity|].
  destruct (proj1 (top_k_clamped_in_history_search ascii_lower steady_encode
                     no_distance_error [])
              sample_history [1%R] (-5) None _ eq_refl)
    as (_ & Hlow & _ & _ & Hlen).
  split; [apply Hlow; lia | exact Hlen].
Defined.

Lemma query_collection_does_not_clamp :
  query_collection ascii_lower steady_encode no_distance_error []
    sample_store (py "Notes") (py "hello") 0 = Ok []
  /\ clamp_top_k 0 = 1
  /\ limit (clamp_top_k 0)
       (order_by_desc query_similarity
          (List.map (query_hit [1%R]) (table_rows notes))) <> [].
Proof.
  split; [reflexivity|]. split; [reflexivity|]. discriminate.
Qed.

(** ** Examples for the other handlers *)

Lemma sample_store_wf : store_wf sample_store.
Proof.
  intros name t Ht. unfold sample_store in Ht.
  apply lookup_singleton_Some in Ht as [_ <-].
  split.
  - apply NoDup_singleton.
  - repeat constructor. cbn. lia.
Qed.

Lemma chunks_are_trimmed_example :
  exists r,
    chunk_text 16 (clean (py "hello world foo")) 5 2 = Some r
    /\ Forall (chunk_ok (clean (py "hello world foo")) 5) (chunks_of r).
Proof.
  destruct (chunks_are_trimmed_pieces (clean (py "hello world foo")) 5 2 16)
    as (r & Hr & Hok & _); [vm_compute; lia|].
  exists r. split; [exact Hr | exact Hok].
Defined.

(** Fifteen characters in windows of five with an overlap of two: the loop
    runs [1 + ceil(10 / 3) = 5] times. *)
Lemma chunking_iteration_count_example :
  exists r,
    chunk_text 16 (clean (py "hello world foo")) 5 2 = Some r
    /\ length (windows_of r) = 5%nat.
Proof.
  destruct (chunking_iteration_count (clean (py "hello world foo")) 5 2 16)
    as (r & Hr & Hn); [vm_compute; discriminate | vm_compute; lia |].
  exists r. split; [exact Hr|]. apply Nat2Z.inj. exact Hn.
Defined.

Lemma handlers_keep_ids_unique_example :
  store_wf sample_store
  /\ store_wf
       (fst (add_document ascii_lower steady_encode never_raises
               (py "insert failed") sample_store (py "notes") (py "second"))).
Proof.
  split; [exact sample_store_wf|].
  exact (proj1 (handlers_keep_ids_unique ascii_lower steady_encode
                  never_raises ascii_decode false no_pdf no_create_error
                  (py "insert failed") update_passes (py "update failed")
                  sample_store sample_store_wf)
           (py "notes") (py "second")).
Defined.

Lemma add_document_then_get_example :
  get_document ascii_lower
    (fst (add_document ascii_lower steady_encode never_raises
            (py "insert failed") sample_store (py "notes") (py "second")))
    (py "notes") 2
  = Ok {| docview_id := 2; docview_content := py "second" |}.
Proof.
  refine (proj1 (add_document_then_get ascii_lower steady_encode never_raises
                   (py "insert failed") sample_store _ (py "notes")
                   (py "second")
                   {| receipt_message := py "Document added successfully.";
                      receipt_id := 2 |} sample_store_wf _)).
  reflexivity.
Defined.

Lemma update_document_then_get_example :
  get_document ascii_lower
    (fst (update_document ascii_lower steady_encode update_passes
            (py "update failed") sample_store (py "Notes") 1 (py "new text")))
    (py "Notes") 1
  = Ok {| docview_id := 1; docview_content := py "new text" |}.
Proof.
  refine (proj2 (update_document_then_get ascii_lower steady_encode
                   update_passes (py "update failed")
                   sample_store _ (py "Notes") 1 (py "new text")
                   {| updated_message := py "Document updated successfully.";
                      updated_id := 1 |} _)).
  reflexivity.
Defined.



Lemma create_collection_once_example :
  create_collection ascii_lower no_create_error ∅ sample_store (py "To Do")
  = ({[table_name_of ascii_lower (py "To Do")]} ∪ ∅,
     <[table_name_of ascii_lower (py "To Do") :=
         {| table_rows := []; table_seq := 0 |}]> sample_store,
     Ok (py "Collection '" ++ table_name_of ascii_lower (py "To Do")
         ++ py "' created successfully.")).
Proof.
  refine (proj1 (proj2 (create_collection_once ascii_lower steady_encode
                          never_raises no_create_error (py "insert failed")
                          ∅ sample_store (py "To Do")) _ _ _)).
  - apply not_elem_of_empty.
  - reflexivity.
  - reflexivity.
Defined.



Lemma ingest_file_then_get_example :
  ingest_file ascii_lower steady_encode never_raises ascii_decode false no_pdf
    32 sample_store (py "notes") memo 1000 200
  = Some (memo_store, Ok memo_body)
  /\ get_document ascii_lower memo_store (py "notes") 1
     = Ok {| docview_id := 1; docview_content := py "hello world" |}.
Proof.
  assert (Hrun : ingest_file ascii_lower steady_encode never_raises
                   ascii_decode false no_pdf 32 sample_store (py "notes")
                   memo 1000 200
                 = Some (memo_store, Ok memo_body)) by reflexivity.
  split; [exact Hrun|].
  destruct (ingest_file_then_get ascii_lower steady_encode never_raises
              ascii_decode false no_pdf 32 sample_store memo_store
              (py "notes") memo 1000 200 memo_body sample_store_wf Hrun)
    as (table & text_data & r & _ & _ & _ & _ & _ & _ & _ & _ & Hold).
  apply Hold. reflexivity.
Defined.

(** The model is unavailable for the text "b": the request fails and the
    store is the one before. *)
Lemma failed_requests_change_no_row_example :
  fst (add_document ascii_lower flaky_encode never_raises (py "insert failed")
         sample_store (py "notes") (py "b"))
  = sample_store.
Proof.
  refine (proj1 (failed_requests_change_no_row ascii_lower flaky_encode
                   never_raises ascii_decode false no_pdf no_create_error
                   (py "insert failed") update_passes (py "update failed")
                   sample_store _ (py "notes") 500
                   (py "model unavailable"))
            (py "b") _).
  reflexivity.
Defined.

Lemma parse_pagination_bounds_example :
  fst (parse_pagination (IntArg 500) (IntArg 3)) = Z.max 1 (Z.min 500 200)
  /\ snd (parse_pagination (IntArg 500) (IntArg 3))
     / fst (parse_pagination (IntArg 500) (IntArg 3)) + 1
     = Z.max 1 3.
Proof.
  exact (proj1 (proj2 (proj2 (proj2 (parse_pagination_bounds (IntArg 500)
                                       (IntArg 3)))))
           500 3 eq_refl eq_refl).
Defined.

Lemma conversation_details_page_example :
  exists page,
    get_conversation_details sample_history 1 false Absent Absent = Ok page
    /\ page_total page = 1.
Proof.
  destruct (conversation_details_page sample_history 1 false Absent Absent)
    as (page & Hp & _ & Ht & _); [vm_compute; discriminate|].
  exists page. split; [exact Hp | exact Ht].
Defined.

(** Conversation 2 of [ranked_history] has two messages, created at 1 and
    at 3: two pages of one message each are the whole conversation. *)
Lemma paging_visits_every_message_example :
  concat
    (List.map
       (fun p =>
          page_messages_of
            (get_conversation_details ranked_history 2 false (IntArg 1)
               (IntArg (Z.of_nat p))))
       (seq 1 2))
  = List.map (message_view false)
      [sample_message 1 2 (Some [(-1)%R]); sample_message 3 2 None].
Proof.
  refine (proj2 (paging_visits_every_message ranked_history 2 1 2
                   [sample_message 1 2 (Some [(-1)%R]);
                    sample_message 3 2 None] _ _ _ _ _) _).
  - vm_compute. discriminate.
  - lia.
  - cbn. apply NoDup_cons_2; [|apply NoDup_singleton].
    rewrite not_elem_of_cons. split; [discriminate | apply not_elem_of_nil].
  - repeat constructor; cbn; lia.
  - reflexivity.
  - vm_compute. discriminate.
Defined.

Lemma export_example :
  exists e,
    export_conversation sample_history 1 = Ok e
    /\ conv_id (export_conversation_row e) = 1.
Proof.
  destruct (proj2 (export_contains_whole_conversation sample_history 1))
    as (e & He & Hid & _); [reflexivity|].
  exists e. split; [exact He | exact Hid].
Defined.

(** Conversation 7 of [sample_history] has a row and no message. *)
Lemma handlers_disagree_example :
  get_conversation_details sample_history 7 false Absent Absent
  = json_error "Conversation not found" 404
  /\ exists e,
      export_conversation sample_history 7 = Ok e /\ export_messages e = [].
Proof.
  destruct (proj1 (handlers_disagree_on_existence str_of_int sample_history 7
                     false false Absent Absent 20))
    as (Hd & He & _); [reflexivity | reflexivity |].
  split; [exact Hd | exact He].
Defined.

Lemma update_conversation_example :
  exists row,
    snd (update_conversation sample_history 1 (Some (py " Plans "))) = Ok row
    /\ conv_title row = Some (py "Plans").
Proof.
  destruct (proj2 (proj2 (update_conversation_retitles sample_history 1
                            (Some (py " Plans ")))))
    as (row & Hr & _ & Ht & _).
  - vm_compute. discriminate.
  - reflexivity.
  - exists row. split; [exact Hr | exact Ht].
Defined.

Lemma context_example :
  exists c,
    get_conversation_context str_of_int sample_history 1 Absent false = Ok c
    /\ context_message_count c <= 20.
Proof.
  destruct (context_is_the_oldest_window str_of_int sample_history 1 Absent
              false)
    as (c & Hc & _ & _ & Hle & _); [reflexivity | discriminate |].
  exists c. split; [exact Hc | exact (proj1 Hle)].
Defined.

Lemma add_message_appends_example :
  chat_messages
    (state_db
       (fst (add_message None no_insert_error sample_state 40
               (Some (py "hello")) (Some (py "user")) None
               (Some (py " Plans ")) None None)))
  = chat_messages sample_history
    ++ [{| msg_id := 3; msg_conversation_id := 8; msg_sender := py "user";
           msg_message := py "hello"; msg_model_name := None;
           msg_created_at := 40; msg_embedding := None |}].
Proof.
  refine (proj1 (proj2 (add_message_appends None no_insert_error sample_state
                          _ 40 (Some (py "hello")) (Some (py "user")) None
                          (Some (py " Plans ")) None None sample_created _))).
  reflexivity.
Defined.

Lemma add_message_then_read_example :
  message_count
    (state_db
       (fst (add_message None no_insert_error sample_state 40
               (Some (py "hello")) (Some (py "user")) None
               (Some (py " Plans ")) None None)))
    8
  = message_count sample_history 8 + 1.
Proof.
  refine (proj1 (add_message_then_read None no_insert_error sample_state _ 40
                   (Some (py "hello")) (Some (py "user")) None
                   (Some (py " Plans ")) None None sample_created _)).
  reflexivity.
Defined.

Lemma deleted_conversation_example :
  export_conversation (fst (delete_conversation sample_history 1)) 1
  = json_error "Conversation not found" 404.
Proof.
  refine (proj1 (proj2 (proj2 (proj2
            (deleted_conversation_is_gone str_of_int sample_history _ 1
               {| deleted_flag := true; deleted_conversation_id := 1 |} _))))).
  reflexivity.
Defined.

Lemma bulk_delete_partitions_example :
  exists body,
    bulk_delete_conversations remove_dups sample_history [1; 2; 999]
    = (without_conversations (remove_dups [1; 2; 999]) sample_history, Ok body)
    /\ bulk_deleted body ++ bulk_not_found body ≡ₚ remove_dups [1; 2; 999].
Proof.
  destruct (bulk_delete_partitions remove_dups sample_history [1; 2; 999])
    as (body & Hb & _ & _ & _ & Hp & _).
  - discriminate.
  - apply NoDup_remove_dups.
  - exists body. split; [exact Hb | exact Hp].
Defined.

(** The insert of the message fails after the conversation was inserted:
    the store is the one before the request. *)
Lemma failed_history_requests_example :
  state_db
    (fst (add_message None full_disk sample_state 40 (Some (py "hello"))
            (Some (py "user")) None None None None))
  = sample_history.
Proof.
  refine (proj1 (failed_history_requests_change_nothing remove_dups None
                   full_disk sample_history sample_history 500
                   (py "Failed to add message: disk full"))
            sample_state _ 40 (Some (py "hello")) (Some (py "user")) None None
            None None _).
  reflexivity.
Defined.

Lemma ingest_file_answer_example :
  Ok memo_body
  <> HttpError 400 (py "No valid chunks produced from file content.").
Proof.
  apply (ingest_file_never_reports_no_chunks ascii_lower steady_encode
           never_raises ascii_decode false no_pdf 32 sample_store memo_store
           (py "notes") memo 1000 200 (Ok memo_body)).
  reflexivity.
Defined.
